(** * intern3-chat: settings store, registry resolver and provider factory

    A shallow embedding of [convex/settings.ts] (the per-user settings
    queries and mutations, and the registry resolver) and of
    [convex/lib/models.ts] (the model catalog and [createProvider]),
    followed by the properties of the specification that concern them.

    JavaScript objects used as string-keyed records are finite maps
    ([gmap string _]); [Object.entries] is [map_to_list].  Arrays are
    lists.  A handler that reads and writes the settings table is a
    computation in a small state-and-failure monad over the table.

    A read [record[key]] on a key the record lacks finds what the record
    inherits from [Object.prototype] under that name, if anything.  Where
    a handler reads through [?.] and [|| ""], an inherited value and a
    missing key give the same result, and the read is the lookup among
    the record's own entries.  Two places tell them apart and are
    modelled with the inherited names: the custom loop of the full
    update, which reads [.encryptedKey] of what it finds ([fullCustom]),
    and the [in] operator of the resolver.  A write [record[key] = value]
    creates or replaces an own entry: the keys of stored and submitted
    records are Convex field names, which do not start with an
    underscore, so [__proto__] is not among them. *)

From stdpp Require Import gmap strings list fin_maps.
From Stdlib Require Import NArith Ascii.

Local Open Scope string_scope.

(** ** JavaScript values and control flow *)

Module Js.

(** What a handler can throw.  [ChatError] and [Error] are the two
    exception classes the sources construct; [TypeError] is what the
    engine raises on a property read of [undefined]; [Rejected] is a
    rejection coming out of an awaited external collaborator. *)
Inductive Failure : Type :=
  | ChatError (code : string)
  | Error (message : string)
  | TypeError (message : string)
  | Rejected (reason : string).

Inductive Result (A : Type) : Type :=
  | Ok (a : A)
  | Err (f : Failure).
Arguments Ok {A} a.
Arguments Err {A} f.

Definition bindR {A B} (r : Result A) (k : A → Result B) : Result B :=
  match r with
  | Ok a => k a
  | Err f => Err f
  end.

Definition isOk {A} (r : Result A) : bool :=
  match r with Ok _ => true | Err _ => false end.

(** [for (const x of xs) { acc = await body(acc, x) }]: the loop stops at
    the first iteration that throws. *)
Fixpoint forOf {A B} (body : A → B → Result A) (xs : list B) (acc : A)
  : Result A :=
  match xs with
  | [] => Ok acc
  | x :: rest => bindR (body acc x) (forOf body rest)
  end.

(** Truthiness of an optional string: [undefined] and [""] are falsy. *)
Definition truthy (s : option string) : bool :=
  match s with
  | Some (String _ _) => true
  | _ => false
  end.

(** [s || ""] on an optional string. *)
Definition orEmpty (s : option string) : string :=
  match s with
  | Some (String c r) => String c r
  | _ => ""
  end.

(** [adapter.split(":")[0]]: everything before the first colon, the whole
    string when there is none. *)
Fixpoint splitHead (s : string) : string :=
  match s with
  | EmptyString => EmptyString
  | String c rest =>
      if Ascii.eqb c ":"%char then EmptyString else String c (splitHead rest)
  end.

(** [s.startsWith(p)]. *)
Definition startsWith (p s : string) : bool := String.prefix p s.

(** The property names every plain object inherits from
    [Object.prototype]; the [in] operator sees them as well as the
    object's own keys. *)
Definition ObjectPrototypeKeys : list string :=
  [ "constructor"; "__defineGetter__"; "__defineSetter__"; "hasOwnProperty";
    "__lookupGetter__"; "__lookupSetter__"; "isPrototypeOf";
    "propertyIsEnumerable"; "toString"; "valueOf"; "__proto__";
    "toLocaleString" ].

(** [k in o] for an object literal [o] with own entries [m]. *)
Definition hasProperty {V} (k : string) (m : gmap string V) : bool :=
  bool_decide (is_Some (m !! k)) || bool_decide (k ∈ ObjectPrototypeKeys).

(** Strings whose individual characters matter are sequences of UTF-16
    code units. *)
Definition CodeUnits : Type := list N.

Definition codeUnitsOf (s : string) : CodeUnits :=
  Ascii.N_of_ascii <$> String.list_ascii_of_string s.

(** ECMAScript [WhiteSpace] and [LineTerminator], the characters
    [String.prototype.trim] strips. *)
Definition isWhiteSpace (c : N) : bool :=
  (N.eqb c 9 || N.eqb c 10 || N.eqb c 11 || N.eqb c 12 || N.eqb c 13
   || N.eqb c 32 || N.eqb c 160 || N.eqb c 5760
   || (N.leb 8192 c && N.leb c 8202)
   || N.eqb c 8232 || N.eqb c 8233 || N.eqb c 8239 || N.eqb c 8287
   || N.eqb c 12288 || N.eqb c 65279)%N.

Fixpoint trimStart (s : CodeUnits) : CodeUnits :=
  match s with
  | [] => []
  | c :: rest => if isWhiteSpace c then trimStart rest else c :: rest
  end.

Definition trimEnd (s : CodeUnits) : CodeUnits := rev (trimStart (rev s)).

Definition trim (s : CodeUnits) : CodeUnits := trimEnd (trimStart s).

Definition codeUnitsEqb (a b : CodeUnits) : bool :=
  bool_decide (a = b).

End Js.

Export Js.

Notation "'let?' x := r 'in' k" := (bindR r (λ x, k))
  (at level 10, x pattern, r at level 200, k at level 200, only parsing).

(** ** The model catalog and the provider factory ([convex/lib/models.ts]) *)

Module Models.

Inductive ModelAbility : Type :=
  | reasoning | vision | function_calling | pdf | effort_control.

Inductive Mode : Type := text | image | speech_to_text.

(** A [RegistryKey] is a string [provider:modelIdentifier]; an [ImageSize]
    is an aspect or resolution token.  Both are plain strings at run
    time. *)
Definition RegistryKey : Type := string.
Definition ImageSize : Type := string.

(** [v.number()] values are only copied, never computed on. *)
Definition number : Type := Z.

Module SharedModel.
Record t : Type := make {
  id : string;
  name : string;
  shortName : option string;
  adapters : list RegistryKey;
  abilities : list ModelAbility;
  mode : option Mode;
  contextLength : option number;
  maxTokens : option number;
  supportedImageSizes : option (list ImageSize);
  customIcon : option string;
  supportsDisablingReasoning : option bool
}.
End SharedModel.

(** An object literal of the catalog: the mandatory fields, then the
    optional ones the literal spells out. *)
Definition entry (id name : string) (shortName : option string)
    (adapters : list RegistryKey) (abilities : list ModelAbility)
    (mode : option Mode) (sizes : option (list ImageSize))
    (customIcon : option string) (supportsDisablingReasoning : option bool)
  : SharedModel.t :=
  SharedModel.make id name shortName adapters abilities mode None None
    sizes customIcon supportsDisablingReasoning.

Definition MODELS_SHARED : list SharedModel.t :=
  [ entry "deepseek-v3" "DeepSeek V3" (Some "DS V3")
      ["openrouter:deepseek/deepseek-chat-v3-0324:free"]
      [function_calling] None None (Some "deepseek") None;
    entry "deepseek-r1" "DeepSeek R1" (Some "DS R1")
      ["openrouter:deepseek/deepseek-r1-0528:free"]
      [reasoning; function_calling] None None (Some "deepseek") None;
    entry "gemini-2.5-flash" "Gemini 2.5 Flash" (Some "2.5 Flash")
      ["google:gemini-2.5-flash"]
      [vision; function_calling; reasoning; pdf; effort_control]
      None None None (Some true);
    entry "gpt-4o" "GPT 4o" (Some "4o")
      ["openai:gpt-4o"; "openrouter:openai/gpt-4o"]
      [vision; function_calling; pdf] None None None None;
    entry "gpt-4o-mini" "GPT 4o mini" (Some "4o mini")
      ["i3-openai:gpt-4o-mini"; "openai:gpt-4o-mini"]
      [vision; function_calling; pdf] None None None None;
    entry "gpt-4.1" "GPT 4.1" None
      ["openai:gpt-4.1"; "openrouter:openai/gpt-4.1"]
      [vision; function_calling; pdf] None None None None;
    entry "gpt-4.1-mini" "GPT 4.1 mini" (Some "4.1 mini")
      ["i3-openai:gpt-4.1-mini"; "openai:gpt-4.1-mini"]
      [vision; function_calling; pdf] None None None None;
    entry "gpt-4.1-nano" "GPT 4.1 nano" (Some "4.1 nano")
      ["i3-openai:gpt-4.1-nano"; "openai:gpt-4.1-nano"]
      [vision; function_calling; pdf] None None None None;
    entry "claude-opus-4" "Claude Opus 4" (Some "Opus 4")
      ["anthropic:claude-opus-4-0"; "openrouter:anthropic/claude-opus-4"]
      [reasoning; vision; function_calling; pdf; effort_control]
      None None None (Some true);
    entry "claude-sonnet-4" "Claude Sonnet 4" (Some "Sonnet 4")
      ["anthropic:claude-sonnet-4-0"; "openrouter:anthropic/claude-sonnet-4"]
      [reasoning; vision; function_calling; pdf; effort_control]
      None None None (Some true);
    entry "claude-3-7-sonnet" "Claude 3.7 Sonnet" (Some "3.7 Sonnet")
      ["anthropic:claude-3-7-sonnet"; "openrouter:anthropic/claude-3.7-sonnet"]
      [reasoning; vision; function_calling; pdf; effort_control]
      None None None (Some true);
    entry "gemini-2.5-flash-lite" "Gemini 2.5 Flash Lite"
      (Some "2.5 Flash Lite")
      ["i3-google:gemini-2.5-flash-lite-preview-06-17";
       "google:gemini-2.5-flash-lite-preview-06-17"]
      [vision; function_calling; reasoning; pdf; effort_control]
      None None None (Some true);
    entry "gemini-2.0-flash" "Gemini 2.0 Flash" (Some "2.0 Flash")
      ["i3-google:gemini-2.0-flash"; "google:gemini-2.0-flash";
       "openrouter:google/gemini-2.0-flash-001"]
      [vision; function_calling; pdf] None None None None;
    entry "gemini-2.0-flash-lite" "Gemini 2.0 Flash Lite"
      (Some "2.0 Flash Lite")
      ["i3-google:gemini-2.0-flash-lite"; "google:gemini-2.0-flash-lite"]
      [vision; function_calling; pdf] None None None None;
    entry "gemini-2.0-flash-image-generation" "Gemini 2.0 Flash Imagen"
      (Some "2.0 Flash Imagen")
      ["i3-google:gemini-2.0-flash-exp"; "google:gemini-2.0-flash-exp"]
      [vision] None None None None;
    entry "sdxl-lightning" "SDXL Lightning" (Some "SDXL")
      ["fal:fal-ai/fast-lightning-sdxl"] [] (Some image)
      (Some ["1:1"; "1:1-hd"; "3:4"; "4:3"; "9:16"; "16:9"])
      (Some "stability-ai") None;
    entry "flux-schnell" "FLUX.1 [schnell]" (Some "flux.schnell")
      ["fal:fal-ai/flux/schnell"] [] (Some image)
      (Some ["1:1"; "1:1-hd"; "3:4"; "4:3"; "9:16"; "16:9"])
      (Some "bflabs") None;
    entry "flux-dev" "FLUX.1 [dev]" (Some "flux.dev")
      ["fal:fal-ai/flux/dev"] [] (Some image)
      (Some ["1:1"; "1:1-hd"; "3:4"; "4:3"; "9:16"; "16:9"])
      (Some "bflabs") None;
    entry "google-imagen-4" "Google Imagen 4" (Some "Imagen 4")
      ["fal:fal-ai/imagen4/preview"] [] (Some image)
      (Some ["1:1-hd"; "16:9-hd"; "9:16-hd"; "3:4-hd"; "4:3-hd"])
      (Some "google") None;
    entry "llama-4-scout-17b-16e-instruct" "Llama 4 Scout 17B 16E"
      (Some "Llama 4 Scout 17B")
      ["groq:meta-llama/llama-4-scout-17b-16e-instruct"]
      [vision] None None (Some "meta") None;
    entry "llama-4-maverick-17b-128e-instruct"
      "Llama 4 Maverick 17B 128E Instruct" (Some "Llama 4 Maverick 17B")
      ["groq:meta-llama/llama-4-maverick-17b-128e-instruct"]
      [vision] None None (Some "meta") None;
    entry "llama-3-1-8b-instant" "Llama 3.1 8B Instant" (Some "Llama 3.1 8B")
      ["i3-groq:llama-3.1-8b-instant"; "groq:llama-3.1-8b-instant"]
      [] None None (Some "meta") None;
    entry "whisper-large-v3-turbo" "Whisper Large v3 Turbo" None
      ["groq:whisper-large-v3-turbo"] [] (Some speech_to_text)
      None None None ].

(** The object a vendor SDK constructor returns: which constructor built
    it and the options it was given.  [apiKey] is [None] when the option
    was [undefined]. *)
Inductive ProviderClient : Type :=
  | OpenAI (apiKey : option CodeUnits) (compatibility : string)
  | Anthropic (apiKey : option CodeUnits)
  | GoogleGenerativeAI (apiKey : option CodeUnits)
  | Groq (apiKey : option CodeUnits)
  | OpenRouter (apiKey : CodeUnits)
  | Fal (apiKey : option CodeUnits).

(** [process.env]: variable name to value, [None] when unset. *)
Definition Env : Type := string → option CodeUnits.

Definition internal : CodeUnits := codeUnitsOf "internal".

(** [apiKey === "internal" ? process.env.X : apiKey] *)
Definition keyOrEnv (env : Env) (variable : string) (apiKey : CodeUnits)
  : option CodeUnits :=
  if codeUnitsEqb apiKey internal then env variable else Some apiKey.

Definition createProvider (env : Env) (providerId : string)
    (apiKey : CodeUnits) : Result ProviderClient :=
  if negb (codeUnitsEqb apiKey internal)
     && (codeUnitsEqb apiKey [] || codeUnitsEqb (trim apiKey) [])
  then Err (Error "API key is required for non-internal providers")
  else
    if String.eqb providerId "openai" then
      Ok (OpenAI (keyOrEnv env "OPENAI_API_KEY" apiKey) "strict")
    else if String.eqb providerId "anthropic" then
      Ok (Anthropic (keyOrEnv env "ANTHROPIC_API_KEY" apiKey))
    else if String.eqb providerId "google" then
      Ok (GoogleGenerativeAI (keyOrEnv env "GOOGLE_API_KEY" apiKey))
    else if String.eqb providerId "groq" then
      Ok (Groq (keyOrEnv env "GROQ_API_KEY" apiKey))
    else if String.eqb providerId "openrouter" then
      Ok (OpenRouter apiKey)
    else if String.eqb providerId "fal" then
      Ok (Fal (keyOrEnv env "FAL_API_KEY" apiKey))
    else Err (Error ("Unknown provider: " +:+ providerId)).

(** The provider identifiers [createProvider] is typed to accept:
    [CoreProvider | "openrouter" | "fal"]. *)
Definition CoreProviders : list string :=
  ["openai"; "anthropic"; "google"; "groq"; "fal"].

Definition FactoryProviders : list string :=
  CoreProviders ++ ["openrouter"; "fal"].

End Models.

(** ** The settings store ([convex/settings.ts]) *)

Module Settings.
Import Models.

(** *** External collaborators *)

(** [./lib/encryption]: both operations are awaited and may reject.
    [decryptUndefined] is [decryptKey(undefined)]: the resolver hands the
    collaborator the [encryptedKey] of a stored custom provider as it
    finds it, and an entry can lack one (see [CustomAIProvider]). *)
Class KeyManagement : Type := {
  encryptKey : string → Result string;
  decryptKey : string → Result string;
  decryptUndefined : Result string
}.

(** What [getUserIdentity(ctx.auth, { allowAnons: false })] resolves to:
    an object with an [error] field, or the caller's identity. *)
Inductive UserIdentity : Type :=
  | unresolved (error : string)
  | resolved (id : string).

(** *** Documents *)

Module CoreAIProvider.
Record t : Type := make { enabled : bool; encryptedKey : string }.
End CoreAIProvider.

(** [encryptedKey] is [None] on an entry written with
    [encryptedKey: undefined], which the custom loop of the full update
    can do (see [fullCustom]): the entry then reads back without the
    field. *)
Module CustomAIProvider.
Record t : Type := make {
  name : string;
  enabled : bool;
  endpoint : string;
  encryptedKey : option string
}.
End CustomAIProvider.

Module CustomModel.
Record t : Type := make {
  enabled : bool;
  name : option string;
  modelId : string;
  providerId : string;
  contextLength : number;
  maxTokens : number;
  abilities : list ModelAbility
}.
End CustomModel.

Inductive Safesearch : Type := off | moderate | strict.

(** One entry of [generalProviders].  [country], [searchLang] and
    [safesearch] belong to [brave]; [language] and [country] to
    [serper]. *)
Module GeneralProvider.
Record t : Type := make {
  enabled : bool;
  encryptedKey : string;
  country : option string;
  searchLang : option string;
  safesearch : option Safesearch;
  language : option string
}.
End GeneralProvider.

Inductive McpType : Type := sse | http.

Module McpServer.
Record t : Type := make {
  name : string;
  url : string;
  type : McpType;
  enabled : option bool;
  headers : option (list (string * string))
}.
End McpServer.

Module Customization.
Record t : Type := make {
  name : option string;
  aiPersonality : option string;
  additionalContext : option string
}.
End Customization.

Inductive SearchProvider : Type := firecrawl | brave | tavily | serper.

(** Storage-assigned document ids. *)
Abbreviation Id := nat (only parsing).

(** A settings document as [getSettings] returns it; [_id] is absent on
    the in-memory default.  Optional fields of the schema are options. *)
Module UserSettings.
Record t : Type := make {
  _id : option Id;
  userId : string;
  searchProvider : SearchProvider;
  searchIncludeSourcesByDefault : bool;
  coreAIProviders : gmap string CoreAIProvider.t;
  customAIProviders : gmap string CustomAIProvider.t;
  customModels : gmap string CustomModel.t;
  titleGenerationModel : string;
  customThemes : option (list string);
  mcpServers : option (list McpServer.t);
  generalProviders : option (gmap string GeneralProvider.t);
  customization : option Customization.t;
  onboardingCompleted : option bool
}.
End UserSettings.

Definition DefaultSettings (userId : string) : UserSettings.t :=
  {| UserSettings._id := None;
     UserSettings.userId := userId;
     UserSettings.searchProvider := firecrawl;
     UserSettings.searchIncludeSourcesByDefault := false;
     UserSettings.coreAIProviders := ∅;
     UserSettings.customAIProviders := ∅;
     UserSettings.customModels := ∅;
     UserSettings.titleGenerationModel := "gemini-2.0-flash-lite";
     UserSettings.customThemes := Some [];
     UserSettings.mcpServers := Some [];
     UserSettings.generalProviders := Some ∅;
     UserSettings.customization := None;
     UserSettings.onboardingCompleted := Some false |}.

(** *** The settings table *)

(** [settings] carrying the storage-assigned id [id]. *)
Definition withId (id : Id) (settings : UserSettings.t) : UserSettings.t :=
  {| UserSettings._id := Some id;
     UserSettings.userId := UserSettings.userId settings;
     UserSettings.searchProvider := UserSettings.searchProvider settings;
     UserSettings.searchIncludeSourcesByDefault :=
       UserSettings.searchIncludeSourcesByDefault settings;
     UserSettings.coreAIProviders := UserSettings.coreAIProviders settings;
     UserSettings.customAIProviders := UserSettings.customAIProviders settings;
     UserSettings.customModels := UserSettings.customModels settings;
     UserSettings.titleGenerationModel :=
       UserSettings.titleGenerationModel settings;
     UserSettings.customThemes := UserSettings.customThemes settings;
     UserSettings.mcpServers := UserSettings.mcpServers settings;
     UserSettings.generalProviders := UserSettings.generalProviders settings;
     UserSettings.customization := UserSettings.customization settings;
     UserSettings.onboardingCompleted :=
       UserSettings.onboardingCompleted settings |}.

(** The documents of the [settings] table in creation order, which is the
    order of the [byUser] index among the documents of one user.  Nothing
    in scope deletes a document, so a document's position identifies it:
    the storage-assigned [_id] is that position. *)
Abbreviation Db := (list UserSettings.t).

(** [ctx.db.query("settings").withIndex("byUser", q => q.eq("userId",
    userId)).first()] *)
Definition first (db : Db) (userId : string) : option UserSettings.t :=
  (λ found, withId found.1 found.2)
    <$> list_find (λ d, UserSettings.userId d = userId) db.

Definition getSettings (db : Db) (userId : string) : UserSettings.t :=
  match first db userId with
  | None => DefaultSettings userId
  | Some settings => settings
  end.

(** What [ctx.db.patch(id, value)] leaves in the document: every field
    present in [value] overwrites the stored one, a field absent from
    [value] keeps its stored value, and [_id] is the document's own. *)
Definition patched (stored value : UserSettings.t) : UserSettings.t :=
  let keep {A} (new old : option A) : option A :=
    match new with Some _ => new | None => old end in
  {| UserSettings._id := UserSettings._id stored;
     UserSettings.userId := UserSettings.userId value;
     UserSettings.searchProvider := UserSettings.searchProvider value;
     UserSettings.searchIncludeSourcesByDefault :=
       UserSettings.searchIncludeSourcesByDefault value;
     UserSettings.coreAIProviders := UserSettings.coreAIProviders value;
     UserSettings.customAIProviders := UserSettings.customAIProviders value;
     UserSettings.customModels := UserSettings.customModels value;
     UserSettings.titleGenerationModel :=
       UserSettings.titleGenerationModel value;
     UserSettings.customThemes :=
       keep (UserSettings.customThemes value) (UserSettings.customThemes stored);
     UserSettings.mcpServers :=
       keep (UserSettings.mcpServers value) (UserSettings.mcpServers stored);
     UserSettings.generalProviders :=
       keep (UserSettings.generalProviders value)
            (UserSettings.generalProviders stored);
     UserSettings.customization :=
       keep (UserSettings.customization value)
            (UserSettings.customization stored);
     UserSettings.onboardingCompleted :=
       keep (UserSettings.onboardingCompleted value)
            (UserSettings.onboardingCompleted stored) |}.

(** [{ ...settings, customThemes: themes }] *)
Definition withCustomThemes (themes : list string) (settings : UserSettings.t)
  : UserSettings.t :=
  {| UserSettings._id := UserSettings._id settings;
     UserSettings.userId := UserSettings.userId settings;
     UserSettings.searchProvider := UserSettings.searchProvider settings;
     UserSettings.searchIncludeSourcesByDefault :=
       UserSettings.searchIncludeSourcesByDefault settings;
     UserSettings.coreAIProviders := UserSettings.coreAIProviders settings;
     UserSettings.customAIProviders := UserSettings.customAIProviders settings;
     UserSettings.customModels := UserSettings.customModels settings;
     UserSettings.titleGenerationModel :=
       UserSettings.titleGenerationModel settings;
     UserSettings.customThemes := Some themes;
     UserSettings.mcpServers := UserSettings.mcpServers settings;
     UserSettings.generalProviders := UserSettings.generalProviders settings;
     UserSettings.customization := UserSettings.customization settings;
     UserSettings.onboardingCompleted :=
       UserSettings.onboardingCompleted settings |}.

(** *** Mutations: state and failure over the table *)

(** A mutation handler runs against the table and either returns or
    throws; the table it leaves behind is part of the outcome, so that a
    write made before a throw would be visible. *)
Definition Mutation (A : Type) : Type := Db → Result A * Db.

Definition ret {A} (a : A) : Mutation A := λ db, (Ok a, db).

Definition throw {A} (f : Failure) : Mutation A := λ db, (Err f, db).

Definition bind {A B} (m : Mutation A) (k : A → Mutation B) : Mutation B :=
  λ db, match m db with
        | (Ok a, db') => k a db'
        | (Err f, db') => (Err f, db')
        end.

(** An awaited computation that touches no table. *)
Definition await {A} (r : Result A) : Mutation A := λ db, (r, db).

Definition readSettings (userId : string) : Mutation UserSettings.t :=
  λ db, (Ok (getSettings db userId), db).

(** [ctx.db.patch] throws when no document has the id. *)
Definition patch (id : Id) (value : UserSettings.t) : Mutation unit :=
  λ db, match db !! id with
        | Some _ => (Ok tt, alter (λ stored, patched stored value) id db)
        | None => (Err (Error "Update on nonexistent document"), db)
        end.

Definition insert (value : UserSettings.t) : Mutation unit :=
  λ db, (Ok tt, (db ++ [withId (length db) value])%list).

(** The closing statement of every mutation:
    [if (settings._id) patch(settings._id, newSettings) else
    insert("settings", newSettings)]. *)
Definition save (settings newSettings : UserSettings.t) : Mutation unit :=
  match UserSettings._id settings with
  | Some id => patch id newSettings
  | None => insert newSettings
  end.

Notation "'let!' x := m 'in' k" := (bind m (λ x, k))
  (at level 10, x pattern, m at level 200, k at level 200, only parsing).

(** *** Queries *)

Definition getUserSettingsInternal (db : Db) (userId : string)
  : UserSettings.t :=
  getSettings db userId.

(** Returns the settings, or the object [{ error: "unauthorized:api" }]. *)
Definition getUserSettings (auth : UserIdentity) (db : Db)
  : string + UserSettings.t :=
  match auth with
  | unresolved _ => inl "unauthorized:api"
  | resolved id => inr (getSettings db id)
  end.

(** **** The registry resolver *)

Module ResolvedProvider.
Record t : Type := make {
  key : string;
  endpoint : option string;
  name : option string
}.
End ResolvedProvider.

(** [SharedModel & { customProviderId?: string }], with the fields the
    two object literals of the resolver set. *)
Module RegistryModel.
Record t : Type := make {
  id : string;
  name : string;
  adapters : list RegistryKey;
  abilities : list ModelAbility;
  mode : option Mode;
  supportedImageSizes : option (list ImageSize);
  contextLength : option number;
  maxTokens : option number;
  customProviderId : option string
}.
End RegistryModel.

Module Registry.
Record t : Type := make {
  providers : gmap string ResolvedProvider.t;
  models : gmap string RegistryModel.t;
  settings : UserSettings.t
}.
End Registry.

Section Resolver.
Context `{KeyManagement}.

(** Body of the loop over [Object.entries(settings.coreAIProviders)]. *)
Definition addCoreProvider (providers : gmap string ResolvedProvider.t)
    (entry : string * CoreAIProvider.t)
  : Result (gmap string ResolvedProvider.t) :=
  let '(providerId, provider) := entry in
  if negb (CoreAIProvider.enabled provider) then Ok providers
  else
    let? key := decryptKey (CoreAIProvider.encryptedKey provider) in
    Ok (<[providerId :=
            ResolvedProvider.make key None (Some providerId)]> providers).

(** [decryptKey(provider.encryptedKey)] on a stored custom provider. *)
Definition decryptStored (encryptedKey : option string) : Result string :=
  match encryptedKey with
  | Some ciphertext => decryptKey ciphertext
  | None => decryptUndefined
  end.

(** Body of the loop over [Object.entries(settings.customAIProviders)]. *)
Definition addCustomProvider (providers : gmap string ResolvedProvider.t)
    (entry : string * CustomAIProvider.t)
  : Result (gmap string ResolvedProvider.t) :=
  let '(providerId, provider) := entry in
  if negb (CustomAIProvider.enabled provider) then Ok providers
  else
    let? key := decryptStored (CustomAIProvider.encryptedKey provider) in
    Ok (<[providerId :=
            ResolvedProvider.make key
              (Some (CustomAIProvider.endpoint provider))
              (Some (CustomAIProvider.name provider))]> providers).

Definition resolveProviders (settings : UserSettings.t)
  : Result (gmap string ResolvedProvider.t) :=
  let? providers :=
    forOf addCoreProvider
      (map_to_list (UserSettings.coreAIProviders settings)) ∅ in
  forOf addCustomProvider
    (map_to_list (UserSettings.customAIProviders settings)) providers.

End Resolver.

(** The inner loop over [model.adapters]. *)
Fixpoint available_adapters (providers : gmap string ResolvedProvider.t)
    (adapters : list RegistryKey) : list RegistryKey :=
  match adapters with
  | [] => []
  | adapter :: rest =>
      let provider := splitHead adapter in
      if hasProperty provider providers || startsWith "i3-" provider
      then adapter :: available_adapters providers rest
      else available_adapters providers rest
  end.

Definition catalogModel (providers : gmap string ResolvedProvider.t)
    (model : SharedModel.t) : RegistryModel.t :=
  {| RegistryModel.id := SharedModel.id model;
     RegistryModel.name := SharedModel.name model;
     RegistryModel.adapters :=
       available_adapters providers (SharedModel.adapters model);
     RegistryModel.abilities := SharedModel.abilities model;
     RegistryModel.mode := SharedModel.mode model;
     RegistryModel.supportedImageSizes :=
       SharedModel.supportedImageSizes model;
     RegistryModel.contextLength := None;
     RegistryModel.maxTokens := None;
     RegistryModel.customProviderId := None |}.

(** The loop over the catalog: [models[model.id] = { ... }]. *)
Definition addCatalogModels (catalog : list SharedModel.t)
    (providers : gmap string ResolvedProvider.t)
    (models : gmap string RegistryModel.t) : gmap string RegistryModel.t :=
  foldl (λ models model,
           <[SharedModel.id model := catalogModel providers model]> models)
        models catalog.

Definition customModel (model : CustomModel.t) : RegistryModel.t :=
  {| RegistryModel.id := CustomModel.modelId model;
     RegistryModel.name :=
       default (CustomModel.modelId model) (CustomModel.name model);
     RegistryModel.adapters :=
       [CustomModel.providerId model +:+ ":" +:+ CustomModel.modelId model];
     RegistryModel.abilities := CustomModel.abilities model;
     RegistryModel.mode := None;
     RegistryModel.supportedImageSizes := None;
     RegistryModel.contextLength := Some (CustomModel.contextLength model);
     RegistryModel.maxTokens := Some (CustomModel.maxTokens model);
     RegistryModel.customProviderId := Some (CustomModel.providerId model) |}.

(** The loop over [Object.entries(settings.customModels)]. *)
Definition addCustomModels (customModels : gmap string CustomModel.t)
    (models : gmap string RegistryModel.t) : gmap string RegistryModel.t :=
  foldl (λ models entry,
           let '(modelId, model) := entry in
           if negb (CustomModel.enabled model) then models
           else <[modelId := customModel model]> models)
        models (map_to_list customModels).

Definition resolveRegistry `{KeyManagement} (catalog : list SharedModel.t)
    (settings : UserSettings.t) : Result Registry.t :=
  let? providers := resolveProviders settings in
  let models := addCatalogModels catalog providers ∅ in
  let models := addCustomModels (UserSettings.customModels settings) models in
  Ok (Registry.make providers models settings).

Definition getUserRegistryInternal `{KeyManagement} (db : Db)
    (userId : string) : Result Registry.t :=
  resolveRegistry MODELS_SHARED (getSettings db userId).

(** **** Decrypted keys of the general providers *)

(** [try { return await decryptKey(c) } catch (error) { console.error(...);
    return null }] *)
Definition decryptOrNull `{KeyManagement} (ciphertext : string)
  : Result (option string) :=
  match decryptKey ciphertext with
  | Ok key => Ok (Some key)
  | Err _ => Ok None
  end.

Definition generalProvider (settings : UserSettings.t) (providerId : string)
  : option GeneralProvider.t :=
  match UserSettings.generalProviders settings with
  | None => None
  | Some providers => providers !! providerId
  end.

Definition getDecryptedGeneralProviderKey `{KeyManagement} (db : Db)
    (providerId userId : string) : Result (option string) :=
  let settings := getSettings db userId in
  match generalProvider settings providerId with
  | None => Ok None
  | Some providerConfig =>
      if negb (GeneralProvider.enabled providerConfig)
         || String.eqb (GeneralProvider.encryptedKey providerConfig) ""
      then Ok None
      else decryptOrNull (GeneralProvider.encryptedKey providerConfig)
  end.

Definition getSupermemoryKey `{KeyManagement} (db : Db) (userId : string)
  : Result (option string) :=
  let settings := getSettings db userId in
  match generalProvider settings "supermemory" with
  | None => Ok None
  | Some supermemory =>
      if negb (GeneralProvider.enabled supermemory)
         || String.eqb (GeneralProvider.encryptedKey supermemory) ""
      then Ok None
      else decryptOrNull (GeneralProvider.encryptedKey supermemory)
  end.

(** *** Mutation arguments *)

Module CoreUpdate.
Record t : Type := make { enabled : bool; newKey : option string }.
End CoreUpdate.

Module CustomUpdate.
Record t : Type := make {
  name : string;
  enabled : bool;
  endpoint : string;
  newKey : option string
}.
End CustomUpdate.

(** The three shapes a general-provider update may take, as one record:
    the plain one reads [enabled] and [newKey] only. *)
Module GeneralUpdate.
Record t : Type := make {
  enabled : bool;
  newKey : option string;
  country : option string;
  searchLang : option string;
  safesearch : option Safesearch;
  language : option string
}.
End GeneralUpdate.

(** Modelled from the spec: [NonSensitiveUserSettings] is declared in
    [convex/schema/settings], outside the sources at hand.  It is taken
    to carry every field of the settings document except the three the
    handler fills itself ([coreAIProviders], [customAIProviders],
    [generalProviders]): the base fields a full update replaces. *)
Module BaseSettings.
Record t : Type := make {
  userId : string;
  searchProvider : SearchProvider;
  searchIncludeSourcesByDefault : bool;
  customModels : gmap string CustomModel.t;
  titleGenerationModel : string;
  customThemes : option (list string);
  mcpServers : option (list McpServer.t);
  customization : option Customization.t;
  onboardingCompleted : option bool
}.
End BaseSettings.

(** The handler never reads [mcpServers]. *)
Module FullUpdate.
Record t : Type := make {
  userId : string;
  baseSettings : BaseSettings.t;
  coreProviders : gmap string CoreUpdate.t;
  customProviders : gmap string CustomUpdate.t;
  generalProviders : option (gmap string GeneralUpdate.t);
  supermemory : option CoreUpdate.t;
  mcpServers : option (list McpServer.t)
}.
End FullUpdate.

Module PartialUpdate.
Record t : Type := make {
  searchProvider : option SearchProvider;
  searchIncludeSourcesByDefault : option bool;
  titleGenerationModel : option string;
  customization : option Customization.t;
  coreProviderUpdates : option (gmap string CoreUpdate.t);
  customProviderUpdates : option (gmap string (option CustomUpdate.t));
  generalProviderUpdates : option (gmap string GeneralUpdate.t);
  customModelUpdates : option (gmap string (option CustomModel.t));
  mcpServers : option (list McpServer.t);
  addTheme : option string;
  removeTheme : option string
}.
End PartialUpdate.

(** *** Mutation handlers *)

Section Handlers.
Context `{KeyManagement}.

(** [newKey ? await encryptKey(newKey) : previous] *)
Definition encryptOr (newKey : option string) (previous : Result string)
  : Result string :=
  match newKey with
  | Some (String c rest) => encryptKey (String c rest)
  | _ => previous
  end.

(** [newKey ? await encryptKey(newKey) : stored], where [stored] may be
    [undefined]. *)
Definition encryptOrStored (newKey : option string)
    (stored : Result (option string)) : Result (option string) :=
  match newKey with
  | Some (String c rest) =>
      let? encryptedKey := encryptKey (String c rest) in
      Ok (Some encryptedKey)
  | _ => stored
  end.

(** [stored[providerId]?.encryptedKey || ""] *)
Definition previousCoreKey (stored : gmap string CoreAIProvider.t)
    (providerId : string) : string :=
  orEmpty (CoreAIProvider.encryptedKey <$> stored !! providerId).

Definition previousGeneralKey (existingProvider : option GeneralProvider.t)
  : string :=
  orEmpty (GeneralProvider.encryptedKey <$> existingProvider).

(** The general-provider entry written for [providerId]: the [brave]
    branch, the [serper] branch, and the plain one. *)
Definition generalEntry (providerId : string) (update : GeneralUpdate.t)
    (encryptedKey : string) : GeneralProvider.t :=
  if String.eqb providerId "brave" then
    GeneralProvider.make (GeneralUpdate.enabled update) encryptedKey
      (GeneralUpdate.country update) (GeneralUpdate.searchLang update)
      (GeneralUpdate.safesearch update) None
  else if String.eqb providerId "serper" then
    GeneralProvider.make (GeneralUpdate.enabled update) encryptedKey
      (GeneralUpdate.country update) None None
      (GeneralUpdate.language update)
  else
    GeneralProvider.make (GeneralUpdate.enabled update) encryptedKey
      None None None None.

(** **** updateUserSettings *)

Definition fullCore (settings : UserSettings.t)
    (acc : gmap string CoreAIProvider.t) (entry : string * CoreUpdate.t)
  : Result (gmap string CoreAIProvider.t) :=
  let '(providerId, provider) := entry in
  let? encryptedKey :=
    encryptOr (CoreUpdate.newKey provider)
      (Ok (previousCoreKey (UserSettings.coreAIProviders settings)
             providerId)) in
  Ok (<[providerId :=
          CoreAIProvider.make (CoreUpdate.enabled provider) encryptedKey]>
        acc).

(** [settings.customAIProviders[providerId].encryptedKey], read without
    optional chaining: the key of the stored entry; [undefined] when
    there is no stored entry but [providerId] is a name the record
    inherits, whose value (a function, or [Object.prototype] itself) has
    no such property; a [TypeError] when [providerId] names nothing. *)
Definition storedCustomKey (stored : gmap string CustomAIProvider.t)
    (providerId : string) : Result (option string) :=
  match stored !! providerId with
  | Some provider => Ok (CustomAIProvider.encryptedKey provider)
  | None =>
      if bool_decide (providerId ∈ ObjectPrototypeKeys) then Ok None
      else
        Err (TypeError
               "Cannot read properties of undefined (reading 'encryptedKey')")
  end.

(** The custom loop; without [newKey] the entry takes over what
    [storedCustomKey] finds, [undefined] included. *)
Definition fullCustom (settings : UserSettings.t)
    (acc : gmap string CustomAIProvider.t) (entry : string * CustomUpdate.t)
  : Result (gmap string CustomAIProvider.t) :=
  let '(providerId, provider) := entry in
  let? encryptedKey :=
    encryptOrStored (CustomUpdate.newKey provider)
      (storedCustomKey (UserSettings.customAIProviders settings) providerId) in
  Ok (<[providerId :=
          CustomAIProvider.make (CustomUpdate.name provider)
            (CustomUpdate.enabled provider) (CustomUpdate.endpoint provider)
            encryptedKey]> acc).

Definition fullGeneral (settings : UserSettings.t)
    (acc : gmap string GeneralProvider.t) (entry : string * GeneralUpdate.t)
  : Result (gmap string GeneralProvider.t) :=
  let '(providerId, providerData) := entry in
  let existingProvider := generalProvider settings providerId in
  let? encryptedKey :=
    encryptOr (GeneralUpdate.newKey providerData)
      (Ok (previousGeneralKey existingProvider)) in
  Ok (<[providerId := generalEntry providerId providerData encryptedKey]> acc).

(** [{ supermemory: settings.generalProviders?.supermemory, firecrawl: ...,
    tavily: ..., brave: ..., serper: ... }] *)
Definition carriedGeneralProviders (settings : UserSettings.t)
  : gmap string GeneralProvider.t :=
  foldr (λ providerId acc,
           match generalProvider settings providerId with
           | Some provider => <[providerId := provider]> acc
           | None => acc
           end)
        ∅ ["supermemory"; "firecrawl"; "tavily"; "brave"; "serper"].

Definition fullNewSettings (settings : UserSettings.t) (args : FullUpdate.t)
  : Result UserSettings.t :=
  let base := FullUpdate.baseSettings args in
  let? core :=
    forOf (fullCore settings) (map_to_list (FullUpdate.coreProviders args))
      ∅ in
  let? custom :=
    forOf (fullCustom settings)
      (map_to_list (FullUpdate.customProviders args)) ∅ in
  let? general :=
    match FullUpdate.generalProviders args with
    | Some updates =>
        forOf (fullGeneral settings) (map_to_list updates)
          (carriedGeneralProviders settings)
    | None => Ok (carriedGeneralProviders settings)
    end in
  let? general :=
    match FullUpdate.supermemory args with
    | Some supermemory =>
        let? encryptedKey :=
          encryptOr (CoreUpdate.newKey supermemory)
            (Ok (previousGeneralKey (generalProvider settings "supermemory")))
        in
        Ok (<["supermemory" :=
                GeneralProvider.make (CoreUpdate.enabled supermemory)
                  encryptedKey None None None None]> general)
    | None => Ok general
    end in
  Ok {| UserSettings._id := None;
        UserSettings.userId := BaseSettings.userId base;
        UserSettings.searchProvider := BaseSettings.searchProvider base;
        UserSettings.searchIncludeSourcesByDefault :=
          BaseSettings.searchIncludeSourcesByDefault base;
        UserSettings.coreAIProviders := core;
        UserSettings.customAIProviders := custom;
        UserSettings.customModels := BaseSettings.customModels base;
        UserSettings.titleGenerationModel :=
          BaseSettings.titleGenerationModel base;
        UserSettings.customThemes := BaseSettings.customThemes base;
        UserSettings.mcpServers := BaseSettings.mcpServers base;
        UserSettings.generalProviders := Some general;
        UserSettings.customization := BaseSettings.customization base;
        UserSettings.onboardingCompleted :=
          BaseSettings.onboardingCompleted base |}.

Definition updateUserSettings (auth : UserIdentity) (args : FullUpdate.t)
  : Mutation unit :=
  match auth with
  | unresolved _ => throw (ChatError "unauthorized:api")
  | resolved id =>
      if negb (String.eqb id (FullUpdate.userId args))
      then throw (ChatError "unauthorized:api")
      else
        let! settings := readSettings (FullUpdate.userId args) in
        let! newSettings := await (fullNewSettings settings args) in
        save settings newSettings
  end.

(** **** addUserTheme, deleteUserTheme *)

Definition includes (themes : list string) (url : string) : bool :=
  existsb (String.eqb url) themes.

Definition addUserTheme (auth : UserIdentity) (url : string)
  : Mutation unit :=
  match auth with
  | unresolved _ => throw (Error "Unauthorized")
  | resolved id =>
      let! settings := readSettings id in
      let existingThemes := default [] (UserSettings.customThemes settings) in
      if includes existingThemes url then ret tt
      else if (5 <=? length existingThemes)%nat
      then throw (Error "Maximum number of themes reached")
      else
        save settings (withCustomThemes (existingThemes ++ [url])%list settings)
  end.

Definition deleteUserTheme (auth : UserIdentity) (url : string)
  : Mutation unit :=
  match auth with
  | unresolved _ => throw (Error "Unauthorized")
  | resolved id =>
      let! settings := readSettings id in
      let existingThemes := default [] (UserSettings.customThemes settings) in
      let updatedThemes :=
        List.filter (λ t, negb (String.eqb t url)) existingThemes in
      save settings (withCustomThemes updatedThemes settings)
  end.

(** **** updateUserSettingsPartial *)

(** [newSettings] is a shallow copy of [settings]: its provider and model
    records are the very objects of [settings].  A loop that writes
    [newSettings.coreAIProviders[k]] and reads
    [settings.coreAIProviders[k]] therefore reads what earlier iterations
    wrote; the loop bodies below take the one shared record as [acc]. *)

Definition partialCore (acc : gmap string CoreAIProvider.t)
    (entry : string * CoreUpdate.t) : Result (gmap string CoreAIProvider.t) :=
  let '(providerId, update) := entry in
  let? encryptedKey :=
    encryptOr (CoreUpdate.newKey update)
      (Ok (previousCoreKey acc providerId)) in
  Ok (<[providerId :=
          CoreAIProvider.make (CoreUpdate.enabled update) encryptedKey]> acc).

Definition partialCustom (acc : gmap string CustomAIProvider.t)
    (entry : string * option CustomUpdate.t)
  : Result (gmap string CustomAIProvider.t) :=
  let '(providerId, update) := entry in
  match update with
  | None => Ok (delete providerId acc)
  | Some update =>
      let? encryptedKey :=
        encryptOr (CustomUpdate.newKey update)
          (Ok (orEmpty (acc !! providerId ≫= CustomAIProvider.encryptedKey)))
      in
      Ok (<[providerId :=
              CustomAIProvider.make (CustomUpdate.name update)
                (CustomUpdate.enabled update) (CustomUpdate.endpoint update)
                (Some encryptedKey)]> acc)
  end.

(** [shared] tells whether [newSettings.generalProviders] is the stored
    record (it is not when the stored one was missing and a fresh object
    was created); [existingProvider] is read from the stored one. *)
Definition partialGeneral (shared : bool)
    (acc : gmap string GeneralProvider.t) (entry : string * GeneralUpdate.t)
  : Result (gmap string GeneralProvider.t) :=
  let '(providerId, update) := entry in
  let existingProvider := if shared then acc !! providerId else None in
  let? encryptedKey :=
    encryptOr (GeneralUpdate.newKey update)
      (Ok (previousGeneralKey existingProvider)) in
  Ok (<[providerId := generalEntry providerId update encryptedKey]> acc).

Definition partialModel (acc : gmap string CustomModel.t)
    (entry : string * option CustomModel.t) : gmap string CustomModel.t :=
  let '(modelId, update) := entry in
  match update with
  | None => delete modelId acc
  | Some update => <[modelId := update]> acc
  end.

(** [{ ...old, ...update }] on customization objects. *)
Definition mergeCustomization (old : option Customization.t)
    (update : Customization.t) : Customization.t :=
  let pick {A} (new : option A) (prev : option A) : option A :=
    match new with Some _ => new | None => prev end in
  {| Customization.name :=
       pick (Customization.name update) (old ≫= Customization.name);
     Customization.aiPersonality :=
       pick (Customization.aiPersonality update)
            (old ≫= Customization.aiPersonality);
     Customization.additionalContext :=
       pick (Customization.additionalContext update)
            (old ≫= Customization.additionalContext) |}.

(** The two theme statements at the end of the partial update. *)
Definition partialAddTheme (addTheme : option string)
    (customThemes : option (list string)) : option (list string) :=
  match addTheme with
  | Some (String c rest) =>
      let url := String c rest in
      let existingThemes := default [] customThemes in
      if negb (includes existingThemes url) && (length existingThemes <? 5)%nat
      then Some (existingThemes ++ [url])%list
      else customThemes
  | _ => customThemes
  end.

Definition partialRemoveTheme (removeTheme : option string)
    (customThemes : option (list string)) : option (list string) :=
  match removeTheme with
  | Some (String c rest) =>
      let url := String c rest in
      let existingThemes := default [] customThemes in
      Some (List.filter (λ t, negb (String.eqb t url)) existingThemes)
  | _ => customThemes
  end.

Definition partialNewSettings (settings : UserSettings.t)
    (args : PartialUpdate.t) : Result UserSettings.t :=
  let? core :=
    match PartialUpdate.coreProviderUpdates args with
    | Some updates =>
        forOf partialCore (map_to_list updates)
          (UserSettings.coreAIProviders settings)
    | None => Ok (UserSettings.coreAIProviders settings)
    end in
  let? custom :=
    match PartialUpdate.customProviderUpdates args with
    | Some updates =>
        forOf partialCustom (map_to_list updates)
          (UserSettings.customAIProviders settings)
    | None => Ok (UserSettings.customAIProviders settings)
    end in
  let? general :=
    match PartialUpdate.generalProviderUpdates args with
    | Some updates =>
        match UserSettings.generalProviders settings with
        | Some stored =>
            let? general :=
              forOf (partialGeneral true) (map_to_list updates) stored in
            Ok (Some general)
        | None =>
            let? general :=
              forOf (partialGeneral false) (map_to_list updates) ∅ in
            Ok (Some general)
        end
    | None => Ok (UserSettings.generalProviders settings)
    end in
  let models :=
    match PartialUpdate.customModelUpdates args with
    | Some updates =>
        foldl partialModel (UserSettings.customModels settings)
          (map_to_list updates)
    | None => UserSettings.customModels settings
    end in
  Ok {| UserSettings._id := UserSettings._id settings;
        UserSettings.userId := UserSettings.userId settings;
        UserSettings.searchProvider :=
          default (UserSettings.searchProvider settings)
                  (PartialUpdate.searchProvider args);
        UserSettings.searchIncludeSourcesByDefault :=
          default (UserSettings.searchIncludeSourcesByDefault settings)
                  (PartialUpdate.searchIncludeSourcesByDefault args);
        UserSettings.coreAIProviders := core;
        UserSettings.customAIProviders := custom;
        UserSettings.customModels := models;
        UserSettings.titleGenerationModel :=
          default (UserSettings.titleGenerationModel settings)
                  (PartialUpdate.titleGenerationModel args);
        UserSettings.customThemes :=
          partialRemoveTheme (PartialUpdate.removeTheme args)
            (partialAddTheme (PartialUpdate.addTheme args)
               (UserSettings.customThemes settings));
        UserSettings.mcpServers :=
          match PartialUpdate.mcpServers args with
          | Some servers => Some servers
          | None => UserSettings.mcpServers settings
          end;
        UserSettings.generalProviders := general;
        UserSettings.customization :=
          match PartialUpdate.customization args with
          | Some update =>
              Some (mergeCustomization (UserSettings.customization settings)
                      update)
          | None => UserSettings.customization settings
          end;
        UserSettings.onboardingCompleted :=
          UserSettings.onboardingCompleted settings |}.

Definition updateUserSettingsPartial (auth : UserIdentity)
    (args : PartialUpdate.t) : Mutation unit :=
  match auth with
  | unresolved _ => throw (ChatError "unauthorized:api")
  | resolved id =>
      let! settings := readSettings id in
      let! newSettings := await (partialNewSettings settings args) in
      save settings newSettings
  end.

(** **** getOnboardingStatus, completeOnboarding *)

(** [{ ...settings, onboardingCompleted: true }] *)
Definition withOnboardingCompleted (settings : UserSettings.t)
  : UserSettings.t :=
  {| UserSettings._id := UserSettings._id settings;
     UserSettings.userId := UserSettings.userId settings;
     UserSettings.searchProvider := UserSettings.searchProvider settings;
     UserSettings.searchIncludeSourcesByDefault :=
       UserSettings.searchIncludeSourcesByDefault settings;
     UserSettings.coreAIProviders := UserSettings.coreAIProviders settings;
     UserSettings.customAIProviders := UserSettings.customAIProviders settings;
     UserSettings.customModels := UserSettings.customModels settings;
     UserSettings.titleGenerationModel :=
       UserSettings.titleGenerationModel settings;
     UserSettings.customThemes := UserSettings.customThemes settings;
     UserSettings.mcpServers := UserSettings.mcpServers settings;
     UserSettings.generalProviders := UserSettings.generalProviders settings;
     UserSettings.customization := UserSettings.customization settings;
     UserSettings.onboardingCompleted := Some true |}.

(** Returns [{ shouldShowOnboarding }], or the object
    [{ error: "unauthorized:api" }]; [!settings.onboardingCompleted] is
    true when the field is missing. *)
Definition getOnboardingStatus (auth : UserIdentity) (db : Db)
  : string + bool :=
  match auth with
  | unresolved _ => inl "unauthorized:api"
  | resolved id =>
      inr (negb (default false
                   (UserSettings.onboardingCompleted (getSettings db id))))
  end.

Definition completeOnboarding (auth : UserIdentity) : Mutation unit :=
  match auth with
  | unresolved _ => throw (ChatError "unauthorized:api")
  | resolved id =>
      let! settings := readSettings id in
      save settings (withOnboardingCompleted settings)
  end.

End Handlers.

End Settings.

(** ** The model selector ([src/routes/__root.tsx]) *)

Module Selector.
Import Models.

(** [DisplayModel] is declared in [lib/models-providers-shared], outside
    the sources at hand; the memo of [ModelSelector] reads two things of
    a model, which are taken as parameters: its [adapters] ([None] when
    the field is missing) and its [isCustom] field ([None] when the
    object has no such key). *)
Section Grouping.
Context {DisplayModel : Type}.
Context (adapters : DisplayModel → option (list RegistryKey)).
Context (isCustom : DisplayModel → option bool).

(** [availableModels.filter((model) => !("isCustom" in model))] *)
Definition sharedModels (availableModels : list DisplayModel)
  : list DisplayModel :=
  List.filter (λ model, negb (bool_decide (is_Some (isCustom model))))
    availableModels.

(** [availableModels.filter((model) => "isCustom" in model &&
    model.isCustom)] *)
Definition customModels (availableModels : list DisplayModel)
  : list DisplayModel :=
  List.filter (λ model, bool_decide (isCustom model = Some true))
    availableModels.

(** [adapters?.[0]?.split(":")[0] || "unknown"], then [Built-in] for an
    internal provider. *)
Definition providerKey (model : DisplayModel) : string :=
  let provider :=
    match adapters model with
    | Some (adapter :: _) =>
        match splitHead adapter with
        | EmptyString => "unknown"
        | String c rest => String c rest
        end
    | _ => "unknown"
    end in
  if startsWith "i3-" provider then "Built-in" else provider.

(** One call of the reducer: [if (!acc[providerKey]) acc[providerKey] =
    []; acc[providerKey].push(model)].  Under a key that plain objects
    inherit, [acc[providerKey]] is the inherited value, which is truthy
    and has no [push]. *)
Definition groupStep (acc : gmap string (list DisplayModel))
    (model : DisplayModel) : Result (gmap string (list DisplayModel)) :=
  let key := providerKey model in
  match acc !! key with
  | Some group => Ok (<[key := (group ++ [model])%list]> acc)
  | None =>
      if bool_decide (key ∈ ObjectPrototypeKeys)
      then Err (TypeError "acc[providerKey].push is not a function")
      else Ok (<[key := [model]]> acc)
  end.

Definition groupedSharedModels (availableModels : list DisplayModel)
  : Result (gmap string (list DisplayModel)) :=
  forOf groupStep (sharedModels availableModels) ∅.

End Grouping.

End Selector.

(** ** Reference definitions *)

Module Reference.
Import Models Settings.

(** [available_adapters] as the specification words it: the adapters, in
    catalog order, whose provider segment is a key of the enabled
    providers or carries the internal prefix. *)
Definition available_adapters_spec (providers : gmap string ResolvedProvider.t)
    (adapters : list RegistryKey) : list RegistryKey :=
  List.filter
    (λ adapter,
       bool_decide (splitHead adapter ∈ dom providers)
       || startsWith "i3-" (splitHead adapter))
    adapters.

(** A credential stored under [providerId] that is switched on, in either
    provider record. *)
Definition enabledCredential (settings : UserSettings.t) (providerId : string)
  : Prop :=
  (∃ c, UserSettings.coreAIProviders settings !! providerId = Some c
        ∧ CoreAIProvider.enabled c = true)
  ∨ (∃ c, UserSettings.customAIProviders settings !! providerId = Some c
          ∧ CustomAIProvider.enabled c = true).

(** A credential stored under [providerId] that is switched off. *)
Definition disabledCredential (settings : UserSettings.t) (providerId : string)
  : Prop :=
  (∃ c, UserSettings.coreAIProviders settings !! providerId = Some c
        ∧ CoreAIProvider.enabled c = false)
  ∨ (∃ c, UserSettings.customAIProviders settings !! providerId = Some c
          ∧ CustomAIProvider.enabled c = false).

(** What the resolver hands to [decryptKey]: the encrypted keys of the
    enabled credentials, [None] being the missing key of an enabled
    custom provider stored without one. *)
Definition decryptedCiphertext (settings : UserSettings.t) (c : option string)
  : Prop :=
  (∃ k p, UserSettings.coreAIProviders settings !! k = Some p
          ∧ CoreAIProvider.enabled p = true
          ∧ Some (CoreAIProvider.encryptedKey p) = c)
  ∨ (∃ k p, UserSettings.customAIProviders settings !! k = Some p
            ∧ CustomAIProvider.enabled p = true
            ∧ CustomAIProvider.encryptedKey p = c).

(** The document a read finds for [userId] once [value] was saved over
    the settings read for [userId]: the patched first document of the
    user, or the freshly inserted one. *)
Definition readBack (db : Db) (userId : string) (value : UserSettings.t)
  : UserSettings.t :=
  match list_find (λ d, UserSettings.userId d = userId) db with
  | Some (i, d) => withId i (patched d value)
  | None => withId (length db) value
  end.

(** The collaborator never rejects an encryption. *)
Definition encryptionTotal (K : KeyManagement) : Prop :=
  ∀ plaintext, isOk (encryptKey plaintext) = true.

(** One loop iteration that rewrites the entry stored under its own key
    and nothing else: [step] computes the entry's new content from the
    key, the request and the current content, or throws. *)
Definition keyed {V A} (step : string → V → option A → Result (option A))
    (acc : gmap string A) (entry : string * V) : Result (gmap string A) :=
  let? content := step entry.1 entry.2 (acc !! entry.1) in
  Ok (partial_alter (λ _, content) entry.1 acc).

Definition configurationError : Failure :=
  Error "API key is required for non-internal providers".

Definition unknownProviderError (providerId : string) : Failure :=
  Error ("Unknown provider: " +:+ providerId).

Definition unauthorized : Failure := ChatError "unauthorized:api".

Definition undefinedRead : Failure :=
  TypeError "Cannot read properties of undefined (reading 'encryptedKey')".

(** The loop bodies of the handlers, as steps on the entry under the
    iteration's key. *)
Definition resolveCoreStep `{KeyManagement} (providerId : string)
    (provider : CoreAIProvider.t) (old : option ResolvedProvider.t)
  : Result (option ResolvedProvider.t) :=
  if negb (CoreAIProvider.enabled provider) then Ok old
  else
    let? key := decryptKey (CoreAIProvider.encryptedKey provider) in
    Ok (Some (ResolvedProvider.make key None (Some providerId))).

Definition resolveCustomStep `{KeyManagement} (providerId : string)
    (provider : CustomAIProvider.t) (old : option ResolvedProvider.t)
  : Result (option ResolvedProvider.t) :=
  if negb (CustomAIProvider.enabled provider) then Ok old
  else
    let? key := decryptStored (CustomAIProvider.encryptedKey provider) in
    Ok (Some (ResolvedProvider.make key
                (Some (CustomAIProvider.endpoint provider))
                (Some (CustomAIProvider.name provider)))).

Definition catalogStep (providers : gmap string ResolvedProvider.t)
    (modelId : string) (model : SharedModel.t) (old : option RegistryModel.t)
  : Result (option RegistryModel.t) :=
  Ok (Some (catalogModel providers model)).

Definition customModelStep (modelId : string) (model : CustomModel.t)
    (old : option RegistryModel.t) : Result (option RegistryModel.t) :=
  Ok (if negb (CustomModel.enabled model) then old
      else Some (customModel model)).

Definition fullCoreStep `{KeyManagement} (settings : UserSettings.t)
    (providerId : string) (provider : CoreUpdate.t)
    (old : option CoreAIProvider.t) : Result (option CoreAIProvider.t) :=
  let? encryptedKey :=
    encryptOr (CoreUpdate.newKey provider)
      (Ok (previousCoreKey (UserSettings.coreAIProviders settings)
             providerId)) in
  Ok (Some (CoreAIProvider.make (CoreUpdate.enabled provider) encryptedKey)).

Definition fullCustomStep `{KeyManagement} (settings : UserSettings.t)
    (providerId : string) (provider : CustomUpdate.t)
    (old : option CustomAIProvider.t) : Result (option CustomAIProvider.t) :=
  let? encryptedKey :=
    encryptOrStored (CustomUpdate.newKey provider)
      (storedCustomKey (UserSettings.customAIProviders settings) providerId) in
  Ok (Some (CustomAIProvider.make (CustomUpdate.name provider)
              (CustomUpdate.enabled provider) (CustomUpdate.endpoint provider)
              encryptedKey)).

Definition partialCustomStep `{KeyManagement} (providerId : string)
    (update : option CustomUpdate.t) (old : option CustomAIProvider.t)
  : Result (option CustomAIProvider.t) :=
  match update with
  | None => Ok None
  | Some update =>
      let? encryptedKey :=
        encryptOr (CustomUpdate.newKey update)
          (Ok (orEmpty (old ≫= CustomAIProvider.encryptedKey))) in
      Ok (Some (CustomAIProvider.make (CustomUpdate.name update)
                  (CustomUpdate.enabled update) (CustomUpdate.endpoint update)
                  (Some encryptedKey)))
  end.

Definition partialModelStep (modelId : string) (update : option CustomModel.t)
    (old : option CustomModel.t) : Result (option CustomModel.t) :=
  Ok update.

(** The [createProvider] guard: the key is not the sentinel and is empty
    or made of white space only. *)
Definition blankKey (apiKey : CodeUnits) : Prop :=
  apiKey ≠ internal ∧ Forall (λ c, isWhiteSpace c = true) apiKey.

(** More loop bodies as steps. *)
Definition partialCoreStep `{KeyManagement} (providerId : string)
    (update : CoreUpdate.t) (old : option CoreAIProvider.t)
  : Result (option CoreAIProvider.t) :=
  let? encryptedKey :=
    encryptOr (CoreUpdate.newKey update)
      (Ok (orEmpty (CoreAIProvider.encryptedKey <$> old))) in
  Ok (Some (CoreAIProvider.make (CoreUpdate.enabled update) encryptedKey)).

Definition partialGeneralStep `{KeyManagement} (shared : bool)
    (providerId : string) (update : GeneralUpdate.t)
    (old : option GeneralProvider.t) : Result (option GeneralProvider.t) :=
  let? encryptedKey :=
    encryptOr (GeneralUpdate.newKey update)
      (Ok (previousGeneralKey (if shared then old else None))) in
  Ok (Some (generalEntry providerId update encryptedKey)).

Definition fullGeneralStep `{KeyManagement} (settings : UserSettings.t)
    (providerId : string) (providerData : GeneralUpdate.t)
    (old : option GeneralProvider.t) : Result (option GeneralProvider.t) :=
  let? encryptedKey :=
    encryptOr (GeneralUpdate.newKey providerData)
      (Ok (previousGeneralKey (generalProvider settings providerId))) in
  Ok (Some (generalEntry providerId providerData encryptedKey)).

(** The five general providers a settings document has fields for. *)
Definition generalProviderIds : list string :=
  ["supermemory"; "firecrawl"; "tavily"; "brave"; "serper"].

(** The collaborator gives back [plaintext] from whatever it encrypted it
    to, and that ciphertext is not the empty string. *)
Definition roundTrips (K : KeyManagement) (plaintext : string) : Prop :=
  ∀ ciphertext,
    encryptKey plaintext = Ok ciphertext →
    ciphertext ≠ "" ∧ decryptKey ciphertext = Ok plaintext.

(** The key a client was constructed with. *)
Definition clientKey (client : ProviderClient) : option CodeUnits :=
  match client with
  | OpenAI apiKey _ => apiKey
  | Anthropic apiKey => apiKey
  | GoogleGenerativeAI apiKey => apiKey
  | Groq apiKey => apiKey
  | OpenRouter apiKey => Some apiKey
  | Fal apiKey => apiKey
  end.

(** The environment variable [createProvider] reads for a core
    provider. *)
Definition envVariable (providerId : string) : string :=
  if String.eqb providerId "openai" then "OPENAI_API_KEY"
  else if String.eqb providerId "anthropic" then "ANTHROPIC_API_KEY"
  else if String.eqb providerId "google" then "GOOGLE_API_KEY"
  else if String.eqb providerId "groq" then "GROQ_API_KEY"
  else "FAL_API_KEY".

(** The adapters of a list that carry the internal prefix. *)
Definition internalAdapters (adapters : list RegistryKey) : list RegistryKey :=
  List.filter (λ adapter, startsWith "i3-" (splitHead adapter)) adapters.

(** Whether a string contains a colon. *)
Fixpoint hasColon (s : string) : bool :=
  match s with
  | EmptyString => false
  | String c rest => Ascii.eqb c ":"%char || hasColon rest
  end.

(** The stored theme list, [[]] when the field is missing. *)
Definition themesOf (settings : UserSettings.t) : list string :=
  default [] (UserSettings.customThemes settings).

End Reference.

(** ** Sample data *)

Module Samples.
Import Models Settings.

(** A key-management collaborator for the examples: a ciphertext is the
    plaintext behind the tag [enc:], and anything else fails to
    decrypt. *)
Definition taggedKeys : KeyManagement :=
  {| encryptKey := λ plaintext, Ok ("enc:" +:+ plaintext);
     decryptKey := λ ciphertext,
       if startsWith "enc:" ciphertext
       then Ok (String.substring 4 (String.length ciphertext - 4) ciphertext)
       else Err (Rejected "decryption failed");
     decryptUndefined := Err (Rejected "decryption failed") |}.

(** The settings document of user [userId] with the given records. *)
Definition document (userId : string)
    (core : gmap string CoreAIProvider.t)
    (custom : gmap string CustomAIProvider.t)
    (models : gmap string CustomModel.t)
    (themes : list string) : UserSettings.t :=
  {| UserSettings._id := None;
     UserSettings.userId := userId;
     UserSettings.searchProvider := firecrawl;
     UserSettings.searchIncludeSourcesByDefault := false;
     UserSettings.coreAIProviders := core;
     UserSettings.customAIProviders := custom;
     UserSettings.customModels := models;
     UserSettings.titleGenerationModel := "gemini-2.0-flash-lite";
     UserSettings.customThemes := Some themes;
     UserSettings.mcpServers := None;
     UserSettings.generalProviders := None;
     UserSettings.customization := None;
     UserSettings.onboardingCompleted := None |}.

Definition withGeneralProviders (general : gmap string GeneralProvider.t)
    (settings : UserSettings.t) : UserSettings.t :=
  {| UserSettings._id := UserSettings._id settings;
     UserSettings.userId := UserSettings.userId settings;
     UserSettings.searchProvider := UserSettings.searchProvider settings;
     UserSettings.searchIncludeSourcesByDefault :=
       UserSettings.searchIncludeSourcesByDefault settings;
     UserSettings.coreAIProviders := UserSettings.coreAIProviders settings;
     UserSettings.customAIProviders := UserSettings.customAIProviders settings;
     UserSettings.customModels := UserSettings.customModels settings;
     UserSettings.titleGenerationModel :=
       UserSettings.titleGenerationModel settings;
     UserSettings.customThemes := UserSettings.customThemes settings;
     UserSettings.mcpServers := UserSettings.mcpServers settings;
     UserSettings.generalProviders := Some general;
     UserSettings.customization := UserSettings.customization settings;
     UserSettings.onboardingCompleted :=
       UserSettings.onboardingCompleted settings |}.

(** A table whose one document, of user [bob], holds an enabled core
    credential and an enabled memory integration, both with a ciphertext
    the collaborator rejects. *)
Definition corruptKeys : Db :=
  [ withGeneralProviders
      {[ "supermemory" :=
           GeneralProvider.make true "corrupt" None None None None ]}
      (document "bob" {[ "openai" := CoreAIProvider.make true "corrupt" ]}
         ∅ ∅ []) ].

(** A table whose one document switches [openai] off, keeps a key for it,
    and holds an enabled and a disabled custom model. *)
Definition my4o : CustomModel.t :=
  CustomModel.make true (Some "My 4o") "my-4o" "my-llm" 8000%Z 1000%Z [vision].

Definition aliceModels : gmap string CustomModel.t :=
  {[ "gpt-4o" := my4o;
     "draft" :=
       CustomModel.make false None "draft-1" "my-llm" 8000%Z 1000%Z [] ]}.

Definition aliceTable : Db :=
  [ document "alice"
      {[ "openai" := CoreAIProvider.make false "enc:sk-1";
         "google" := CoreAIProvider.make true "enc:g-1" ]}
      {[ "my-llm" :=
           CustomAIProvider.make "My LLM" true "https://llm.example/v1"
             (Some "enc:c-1") ]}
      aliceModels
      ["t1"; "t2"; "t3"; "t4"; "t5"] ].

(** What the resolver returns for [alice] on [aliceTable]. *)
Definition aliceRegistry : Registry.t :=
  Eval vm_compute in
    match @getUserRegistryInternal taggedKeys aliceTable "alice" with
    | Ok registry => registry
    | Err _ => Registry.make ∅ ∅ (DefaultSettings "alice")
    end.

(** Full updates for [alice]: one that re-sends [openai] without a key
    and [my-llm] with a new one; one that names a custom provider the
    stored settings lack, without a key; one that does the same for a
    core provider only. *)
Definition aliceBase : BaseSettings.t :=
  BaseSettings.make "alice" firecrawl false aliceModels
    "gemini-2.0-flash-lite" None None None None.

Definition keepOpenai : FullUpdate.t :=
  FullUpdate.make "alice" aliceBase
    {[ "openai" := CoreUpdate.make true None ]}
    {[ "my-llm" :=
         CustomUpdate.make "My LLM" true "https://llm.example/v1"
           (Some "sk-new") ]}
    None None None.

Definition afterKeepOpenai : Db :=
  Eval vm_compute in
    (@updateUserSettings taggedKeys (resolved "alice") keepOpenai aliceTable).2.

Definition unknownCustom : FullUpdate.t :=
  FullUpdate.make "alice" aliceBase
    {[ "anthropic" := CoreUpdate.make true None ]}
    {[ "other-llm" :=
         CustomUpdate.make "Other" true "https://other.example/v1" None ]}
    None None None.

Definition unknownCore : FullUpdate.t :=
  FullUpdate.make "alice" aliceBase
    {[ "anthropic" := CoreUpdate.make true None ]} ∅ None None None.

(** A full update for [alice] whose one custom provider, sent without a
    key, goes by a name every plain object inherits. *)
Definition inheritedCustom : FullUpdate.t :=
  FullUpdate.make "alice" aliceBase ∅
    {[ "constructor" :=
         CustomUpdate.make "Ctor" true "https://ctor.example/v1" None ]}
    None None None.

Definition afterInheritedCustom : Db :=
  Eval vm_compute in
    (@updateUserSettings taggedKeys (resolved "alice") inheritedCustom
       aliceTable).2.

(** A full update for [alice] that names the memory integration twice:
    switched off and with a new key under [generalProviders], switched on
    and without a key in the legacy argument. *)
Definition legacyMemory : FullUpdate.t :=
  FullUpdate.make "alice" aliceBase ∅ ∅
    (Some {[ "supermemory" :=
               GeneralUpdate.make false (Some "A") None None None None ]})
    (Some (CoreUpdate.make true None)) None.

Definition afterLegacyMemory : Db :=
  Eval vm_compute in
    (@updateUserSettings taggedKeys (resolved "alice") legacyMemory
       aliceTable).2.

(** Partial updates for [alice]: one that deletes the custom provider
    [my-llm] and the custom model [draft]; one that only adds a theme. *)
Definition dropMyLlm : PartialUpdate.t :=
  PartialUpdate.make None None None None None
    (Some {[ "my-llm" := None ]}) None (Some {[ "draft" := None ]})
    None None None.

Definition afterDropMyLlm : Db :=
  Eval vm_compute in
    (@updateUserSettingsPartial taggedKeys (resolved "alice") dropMyLlm
       aliceTable).2.

Definition addTheme (url : string) : PartialUpdate.t :=
  PartialUpdate.make None None None None None None None None None
    (Some url) None.

Definition afterAddSixthTheme : Db :=
  Eval vm_compute in
    (@updateUserSettingsPartial taggedKeys (resolved "alice") (addTheme "t6")
       aliceTable).2.

Definition noEnv : Env := λ _, None.

(** The catalog entry [gpt-4o]. *)
Definition gpt4o : SharedModel.t :=
  entry "gpt-4o" "GPT 4o" (Some "4o")
    ["openai:gpt-4o"; "openrouter:openai/gpt-4o"]
    [vision; function_calling; pdf] None None None None.

(** A table with one document for [alice] and one for [bob], and what
    two theme mutations by [alice] leave of it. *)
Definition twoUsers : Db :=
  [ document "alice" ∅ ∅ ∅ ["t1"]; document "bob" ∅ ∅ ∅ ["b1"] ].

Definition afterDeleteT1 : Db :=
  Eval vm_compute in (deleteUserTheme (resolved "alice") "t1" twoUsers).2.

Definition afterAddT2 : Db :=
  Eval vm_compute in (addUserTheme (resolved "alice") "t2" twoUsers).2.

(** Partial updates for [alice] on [aliceTable]: one that switches
    [openai] on without sending a key, one that stores a key for the
    search provider [tavily]. *)
Definition enableOpenai : PartialUpdate.t :=
  PartialUpdate.make None None None None
    (Some {[ "openai" := CoreUpdate.make true None ]})
    None None None None None None.

Definition afterEnableOpenai : Db :=
  Eval vm_compute in
    (@updateUserSettingsPartial taggedKeys (resolved "alice") enableOpenai
       aliceTable).2.

Definition registryAfterEnableOpenai : Registry.t :=
  Eval vm_compute in
    match @getUserRegistryInternal taggedKeys afterEnableOpenai "alice" with
    | Ok registry => registry
    | Err _ => Registry.make ∅ ∅ (DefaultSettings "alice")
    end.

Definition tavilyUpdate : GeneralUpdate.t :=
  GeneralUpdate.make true (Some "tv-key") None None None None.

Definition enableTavily : PartialUpdate.t :=
  PartialUpdate.make None None None None None None
    (Some {[ "tavily" := tavilyUpdate ]}) None None None None.

Definition afterEnableTavily : Db :=
  Eval vm_compute in
    (@updateUserSettingsPartial taggedKeys (resolved "alice") enableTavily
       aliceTable).2.

Definition myLlm : CustomAIProvider.t :=
  CustomAIProvider.make "My LLM" true "https://llm.example/v1"
    (Some "enc:c-1").

Definition openaiOnly : gmap string ResolvedProvider.t :=
  {[ "openai" := ResolvedProvider.make "sk-1" None (Some "openai") ]}.

End Samples.

(** ** Properties *)

Import Models Settings Reference.

(** *** Loops *)

Section Loops.
Context {A B : Type}.

Lemma forOf_ext (f g : A → B → Result A) xs acc :
  (∀ a x, f a x = g a x) → forOf f xs acc = forOf g xs acc.
Proof.
  intros Hfg. revert acc.
  induction xs as [|x xs IH]; intros acc; simpl; [done|].
  rewrite Hfg. destruct (g acc x); simpl; auto.
Qed.

Lemma forOf_pure (f : A → B → A) xs acc :
  forOf (λ a x, Ok (f a x)) xs acc = Ok (foldl f acc xs).
Proof.
  revert acc. induction xs as [|x xs IH]; intros acc; simpl; auto.
Qed.

End Loops.

Section KeyedLoops.
Context {V A : Type} (step : string → V → option A → Result (option A)).

Lemma keyed_lookup_ne acc acc' k v k' :
  keyed step acc (k, v) = Ok acc' → k ≠ k' → acc' !! k' = acc !! k'.
Proof.
  unfold keyed; simpl. destruct (step k v (acc !! k)); simpl; [|done].
  intros [= <-] Hne. by rewrite lookup_partial_alter_ne.
Qed.

(** What a completed loop over entries with distinct keys leaves: every
    visited key holds what its step computed from the initial content,
    every other key is untouched. *)
Lemma forOf_keyed_spec xs :
  NoDup xs.*1 →
  ∀ acc acc', forOf (keyed step) xs acc = Ok acc' →
    (∀ k v, (k, v) ∈ xs →
       ∃ content, step k v (acc !! k) = Ok content ∧ acc' !! k = content)
    ∧ (∀ k, k ∉ xs.*1 → acc' !! k = acc !! k).
Proof.
  induction xs as [|[k0 v0] xs IH]; simpl; intros Hnd acc acc' Hrun.
  - injection Hrun as <-. split; [intros k v Hin; by apply elem_of_nil in Hin|done].
  - apply NoDup_cons in Hnd as [Hk0 Hnd].
    destruct (keyed step acc (k0, v0)) as [acc1|] eqn:Hstep; simpl in Hrun; [|done].
    destruct (IH Hnd acc1 acc' Hrun) as [Hin Hout].
    pose proof Hstep as Hstep'. unfold keyed in Hstep'; simpl in Hstep'.
    destruct (step k0 v0 (acc !! k0)) as [content|] eqn:Hc; simpl in Hstep'; [|done].
    injection Hstep' as <-.
    split.
    + intros k v [[= -> ->]|Hkv]%elem_of_cons.
      * exists content. split; [done|].
        rewrite (Hout _ Hk0). by rewrite lookup_partial_alter_eq.
      * assert (k ≠ k0) as Hne.
        { intros ->. apply Hk0. apply list_elem_of_fmap. by exists (k0, v). }
        destruct (Hin k v Hkv) as (c & Hc' & Hl).
        rewrite lookup_partial_alter_ne in Hc' by done. eauto.
    + intros k Hk. apply not_elem_of_cons in Hk as [Hne Hk].
      rewrite (Hout _ Hk). by rewrite lookup_partial_alter_ne.
Qed.

(** The loop completes when every step does. *)
Lemma forOf_keyed_ok xs :
  NoDup xs.*1 →
  ∀ acc, (∀ k v, (k, v) ∈ xs → isOk (step k v (acc !! k)) = true) →
    ∃ acc', forOf (keyed step) xs acc = Ok acc'.
Proof.
  induction xs as [|[k0 v0] xs IH]; simpl; intros Hnd acc Hok; [eauto|].
  apply NoDup_cons in Hnd as [Hk0 Hnd].
  pose proof (Hok k0 v0 ltac:(left)) as H0.
  unfold keyed at 1; simpl.
  destruct (step k0 v0 (acc !! k0)) as [content|]; [simpl|done].
  apply IH; [done|]. intros k v Hkv.
  rewrite lookup_partial_alter_ne; [apply Hok; by right|].
  intros ->. apply Hk0. apply list_elem_of_fmap. by exists (k, v).
Qed.

(** The loop throws [e] when some step throws [e] and no step throws
    anything else. *)
Lemma forOf_keyed_err xs e :
  NoDup xs.*1 →
  ∀ acc,
    (∀ k v, (k, v) ∈ xs →
       isOk (step k v (acc !! k)) = true ∨ step k v (acc !! k) = Err e) →
    (∃ k v, (k, v) ∈ xs ∧ step k v (acc !! k) = Err e) →
    forOf (keyed step) xs acc = Err e.
Proof.
  induction xs as [|[k0 v0] xs IH]; simpl; intros Hnd acc Hall Hex.
  - destruct Hex as (k & v & Hin & _). by apply elem_of_nil in Hin.
  - apply NoDup_cons in Hnd as [Hk0 Hnd].
    unfold keyed at 1; simpl.
    destruct (Hall k0 v0 ltac:(left)) as [H0|H0].
    + destruct (step k0 v0 (acc !! k0)) as [content|] eqn:Hc; [simpl|done].
      assert (∀ k v, (k, v) ∈ xs → k ≠ k0) as Hne.
      { intros k v Hkv ->. apply Hk0. apply list_elem_of_fmap. by exists (k0, v). }
      apply IH; [done| |].
      * intros k v Hkv. rewrite lookup_partial_alter_ne by (symmetry; eauto).
        apply Hall. by right.
      * destruct Hex as (k & v & [[= -> ->]|Hkv]%elem_of_cons & Hk); [congruence|].
        exists k, v. split; [done|].
        by rewrite lookup_partial_alter_ne by (symmetry; eauto).
    + by rewrite H0.
Qed.

End KeyedLoops.

(** *** The registry resolver *)

Section ResolverFacts.
Context `{K : KeyManagement}.

Lemma addCoreProvider_keyed acc entry :
  addCoreProvider acc entry = keyed resolveCoreStep acc entry.
Proof.
  destruct entry as [k p]. unfold addCoreProvider, keyed, resolveCoreStep; simpl.
  destruct (CoreAIProvider.enabled p); simpl.
  - by destruct (decryptKey _).
  - by rewrite partial_alter_self.
Qed.

Lemma addCustomProvider_keyed acc entry :
  addCustomProvider acc entry = keyed resolveCustomStep acc entry.
Proof.
  destruct entry as [k p]. unfold addCustomProvider, keyed, resolveCustomStep; simpl.
  destruct (CustomAIProvider.enabled p); simpl.
  - by destruct (decryptStored _).
  - by rewrite partial_alter_self.
Qed.

(** The providers map has a key exactly for the enabled credentials. *)
Lemma resolveProviders_keys settings providers k :
  resolveProviders settings = Ok providers →
  is_Some (providers !! k) ↔ enabledCredential settings k.
Proof.
  unfold resolveProviders, enabledCredential.
  destruct (forOf addCoreProvider _ ∅) as [core|] eqn:Hcore; simpl; [|done].
  intros Hcustom.
  rewrite (forOf_ext _ _ _ _ addCoreProvider_keyed) in Hcore.
  rewrite (forOf_ext _ _ _ _ addCustomProvider_keyed) in Hcustom.
  apply forOf_keyed_spec in Hcore as [Hc1 Hc2]; [|apply NoDup_fst_map_to_list].
  apply forOf_keyed_spec in Hcustom as [Hu1 Hu2]; [|apply NoDup_fst_map_to_list].
  assert (is_Some (core !! k) ↔
          ∃ c, UserSettings.coreAIProviders settings !! k = Some c
               ∧ CoreAIProvider.enabled c = true) as Hcore.
  { destruct (UserSettings.coreAIProviders settings !! k) as [c|] eqn:Hk.
    - apply elem_of_map_to_list in Hk.
      destruct (Hc1 _ _ Hk) as (content & Hstep & ->).
      unfold resolveCoreStep in Hstep. rewrite lookup_empty in Hstep.
      destruct (CoreAIProvider.enabled c) eqn:Hen; simpl in Hstep.
      + destruct (decryptKey _); simpl in Hstep; [|done].
        injection Hstep as <-. split; [eauto|by eexists].
      + injection Hstep as <-. split; [by intros [? ?]|].
        intros (? & [= <-] & ?). congruence.
    - rewrite Hc2, lookup_empty.
      + split; [by intros [? ?]|]. by intros (? & ? & ?).
      + intros ([k' c] & -> & Hin%elem_of_map_to_list)%list_elem_of_fmap.
        simpl in Hk. congruence. }
  destruct (UserSettings.customAIProviders settings !! k) as [c|] eqn:Hk.
  - apply elem_of_map_to_list in Hk.
    destruct (Hu1 _ _ Hk) as (content & Hstep & ->).
    unfold resolveCustomStep in Hstep.
    destruct (CustomAIProvider.enabled c) eqn:Hen; simpl in Hstep.
    + destruct (decryptStored _); simpl in Hstep; [|done].
      injection Hstep as <-. split; [|by eexists]. intros _. right. eauto.
    + injection Hstep as <-. rewrite Hcore. split; [by left|].
      intros [?|(? & [= <-] & ?)]; [done|congruence].
  - rewrite Hu2, Hcore.
    + split; [by left|]. by intros [?|(? & ? & ?)].
    + intros ([k' c] & -> & Hin%elem_of_map_to_list)%list_elem_of_fmap.
      simpl in Hk. congruence.
Qed.

(** The resolver completes exactly when the collaborator accepts
    everything it is handed. *)
Lemma resolveProviders_ok settings :
  (∀ c, decryptedCiphertext settings c → isOk (decryptStored c) = true) →
  ∃ providers, resolveProviders settings = Ok providers.
Proof.
  intros Hdec. unfold resolveProviders.
  destruct (forOf_keyed_ok resolveCoreStep
              (map_to_list (UserSettings.coreAIProviders settings))
              (NoDup_fst_map_to_list _) ∅) as [core Hcore].
  { intros k p Hin%elem_of_map_to_list. unfold resolveCoreStep.
    destruct (CoreAIProvider.enabled p) eqn:Hen; simpl; [|done].
    specialize (Hdec (Some (CoreAIProvider.encryptedKey p))). simpl in Hdec.
    destruct (decryptKey _); simpl; [done|].
    apply Hdec. left. eauto. }
  rewrite (forOf_ext _ _ _ _ addCoreProvider_keyed), Hcore; simpl.
  rewrite (forOf_ext _ _ _ _ addCustomProvider_keyed).
  apply forOf_keyed_ok; [apply NoDup_fst_map_to_list|].
  intros k p Hin%elem_of_map_to_list. unfold resolveCustomStep.
  destruct (CustomAIProvider.enabled p) eqn:Hen; simpl; [|done].
  specialize (Hdec (CustomAIProvider.encryptedKey p)).
  destruct (decryptStored _); simpl; [done|].
  apply Hdec. right. eauto.
Qed.

Lemma resolveProviders_needs_decryption settings providers c :
  resolveProviders settings = Ok providers →
  decryptedCiphertext settings c → isOk (decryptStored c) = true.
Proof.
  unfold resolveProviders.
  destruct (forOf addCoreProvider _ ∅) as [core|] eqn:Hcore; simpl; [|done].
  intros Hcustom.
  rewrite (forOf_ext _ _ _ _ addCoreProvider_keyed) in Hcore.
  rewrite (forOf_ext _ _ _ _ addCustomProvider_keyed) in Hcustom.
  apply forOf_keyed_spec in Hcore as [Hc1 _]; [|apply NoDup_fst_map_to_list].
  apply forOf_keyed_spec in Hcustom as [Hu1 _]; [|apply NoDup_fst_map_to_list].
  intros [(k & p & Hk%elem_of_map_to_list & Hen & <-)
         |(k & p & Hk%elem_of_map_to_list & Hen & <-)].
  - destruct (Hc1 _ _ Hk) as (content & Hstep & _).
    unfold resolveCoreStep in Hstep. rewrite Hen in Hstep; simpl in *.
    by destruct (decryptKey _).
  - destruct (Hu1 _ _ Hk) as (content & Hstep & _).
    unfold resolveCustomStep in Hstep. rewrite Hen in Hstep; simpl in Hstep.
    by destruct (decryptStored _).
Qed.

End ResolverFacts.

Lemma forOf_agree {A B} (f g : A → B → Result A) xs acc :
  (∀ a x, x ∈ xs → f a x = g a x) → forOf f xs acc = forOf g xs acc.
Proof.
  revert acc. induction xs as [|x xs IH]; intros acc Hfg; simpl; [done|].
  rewrite (Hfg acc x) by left.
  destruct (g acc x); simpl; [|done].
  apply IH. intros a' x' Hin. apply Hfg. by right.
Qed.

Lemma available_adapters_elem providers adapters adapter :
  adapter ∈ available_adapters providers adapters ↔
  adapter ∈ adapters
  ∧ hasProperty (splitHead adapter) providers
    || startsWith "i3-" (splitHead adapter) = true.
Proof.
  induction adapters as [|a rest IH]; simpl.
  - split; [by intros ?%elem_of_nil|by intros [?%elem_of_nil _]].
  - destruct (hasProperty (splitHead a) providers
              || startsWith "i3-" (splitHead a)) eqn:Ha.
    + rewrite !elem_of_cons, IH. split.
      * intros [->|[? ?]]; auto.
      * intros [[->|?] ?]; auto.
    + rewrite elem_of_cons, IH. split.
      * intros [? ?]; auto.
      * intros [[->|?] ?]; [congruence|auto].
Qed.

(** With provider segments that are no inherited property name, the [in]
    test is membership among the providers' own keys, and the loop is the
    filter of the specification. *)
Lemma available_adapters_own providers adapters :
  Forall (λ a, splitHead a ∉ ObjectPrototypeKeys) adapters →
  available_adapters providers adapters
  = available_adapters_spec providers adapters.
Proof.
  unfold available_adapters_spec.
  induction 1 as [|a rest Ha _ IH]; simpl; [done|].
  unfold hasProperty at 1.
  rewrite (bool_decide_eq_false_2 (splitHead a ∈ ObjectPrototypeKeys)) by done.
  rewrite orb_false_r.
  rewrite (bool_decide_ext _ (splitHead a ∈ dom providers))
    by (symmetry; apply elem_of_dom).
  by rewrite IH.
Qed.

(** No adapter of the catalog names its provider after an inherited
    property, and the catalog's ids are pairwise distinct. *)
Lemma catalog_providers_own :
  Forall (λ model,
            Forall (λ a, splitHead a ∉ ObjectPrototypeKeys)
                   (SharedModel.adapters model))
         MODELS_SHARED.
Proof. apply (bool_decide_unpack _). by vm_compute. Qed.

Lemma catalog_ids_unique : NoDup (SharedModel.id <$> MODELS_SHARED).
Proof. apply (bool_decide_unpack _). by vm_compute. Qed.

(** *** The models map *)

Lemma addCatalogModels_keyed catalog providers acc :
  forOf (keyed (catalogStep providers))
        ((λ model, (SharedModel.id model, model)) <$> catalog) acc
  = Ok (addCatalogModels catalog providers acc).
Proof.
  unfold addCatalogModels. revert acc.
  induction catalog as [|model rest IH]; intros acc; simpl; [done|].
  apply IH.
Qed.

Lemma addCustomModels_keyed entries acc :
  forOf (keyed customModelStep) entries acc
  = Ok (foldl (λ models entry,
                 let '(modelId, model) := entry in
                 if negb (CustomModel.enabled model) then models
                 else <[modelId := customModel model]> models)
              acc entries).
Proof.
  revert acc. induction entries as [|[k model] rest IH]; intros acc; simpl; [done|].
  unfold keyed at 1, customModelStep; simpl.
  destruct (CustomModel.enabled model); simpl.
  - apply IH.
  - rewrite partial_alter_self. apply IH.
Qed.

(** The catalog loop writes one entry per catalog id and nothing else. *)
Lemma addCatalogModels_lookup catalog providers acc :
  NoDup (SharedModel.id <$> catalog) →
  (∀ model, model ∈ catalog →
     addCatalogModels catalog providers acc !! SharedModel.id model
     = Some (catalogModel providers model))
  ∧ (∀ k, k ∉ SharedModel.id <$> catalog →
       addCatalogModels catalog providers acc !! k = acc !! k).
Proof.
  intros Hnd.
  pose proof (addCatalogModels_keyed catalog providers acc) as Hrun.
  apply forOf_keyed_spec in Hrun as [Hin Hout].
  - split.
    + intros model Hmodel.
      destruct (Hin (SharedModel.id model) model) as (content & [= <-] & ->);
        [|done].
      apply list_elem_of_fmap. by exists model.
    + intros k Hk. apply Hout. by rewrite <- list_fmap_compose.
  - by rewrite <- list_fmap_compose.
Qed.

(** The custom loop writes one entry per enabled custom model and nothing
    else. *)
Lemma addCustomModels_lookup customModels acc k :
  addCustomModels customModels acc !! k
  = match customModels !! k with
    | Some model =>
        if CustomModel.enabled model then Some (customModel model)
        else acc !! k
    | None => acc !! k
    end.
Proof.
  pose proof (addCustomModels_keyed (map_to_list customModels) acc) as Hrun.
  fold (addCustomModels customModels acc) in Hrun.
  apply forOf_keyed_spec in Hrun as [Hin Hout]; [|apply NoDup_fst_map_to_list].
  destruct (customModels !! k) as [model|] eqn:Hk.
  - apply elem_of_map_to_list in Hk.
    destruct (Hin _ _ Hk) as (content & [= <-] & ->).
    by destruct (CustomModel.enabled model).
  - apply Hout.
    intros ([k' c] & -> & Hin'%elem_of_map_to_list)%list_elem_of_fmap.
    simpl in Hk. congruence.
Qed.

(** The models map of the resolver over any catalog with pairwise
    distinct ids. *)
Lemma resolveRegistry_models `{K : KeyManagement}
    (catalog : list SharedModel.t) (settings : UserSettings.t)
    (registry : Registry.t) :
  NoDup (SharedModel.id <$> catalog) →
  resolveRegistry catalog settings = Ok registry →
  Registry.settings registry = settings
  ∧ resolveProviders settings = Ok (Registry.providers registry)
  ∧ ∀ key,
      Registry.models registry !! key
      = match UserSettings.customModels settings !! key with
        | Some custom =>
            if CustomModel.enabled custom then Some (customModel custom)
            else catalogModel (Registry.providers registry)
                   <$> list_find (λ model, SharedModel.id model = key) catalog
                   ≫= (λ found, Some found.2)
        | None =>
            catalogModel (Registry.providers registry)
              <$> list_find (λ model, SharedModel.id model = key) catalog
              ≫= (λ found, Some found.2)
        end.
Proof.
  intros Hnd. unfold resolveRegistry.
  destruct (resolveProviders settings) as [providers|] eqn:Hp; simpl; [|done].
  intros [= <-]; simpl. split; [done|]. split; [done|].
  intros key. rewrite addCustomModels_lookup.
  destruct (addCatalogModels_lookup catalog providers ∅ Hnd) as [Hcat Hrest].
  assert (addCatalogModels catalog providers ∅ !! key
          = catalogModel providers
              <$> list_find (λ model, SharedModel.id model = key) catalog
              ≫= (λ found, Some found.2)) as ->.
  { destruct (list_find _ catalog) as [[i model]|] eqn:Hfind; simpl.
    - apply list_find_Some in Hfind as (Hi & <- & _).
      apply Hcat. by eapply list_elem_of_lookup_2.
    - rewrite Hrest by
        (intros (model & -> & Hin)%list_elem_of_fmap;
         apply list_find_None in Hfind; rewrite Forall_forall in Hfind;
         by apply (Hfind model)).
      apply lookup_empty. }
  done.
Qed.

(** C3.  For every model of the catalog and every settings snapshot on
    which the resolver returns, the keys of the providers map are exactly
    the provider ids holding an enabled credential, and the adapters the
    resolver makes available for the model are, in catalog order, those
    whose provider segment is such a key or starts with [i3-].  An
    adapter whose provider only has a switched-off credential (whatever
    its encrypted key) and no internal prefix is left out; an adapter
    with the internal prefix is kept whatever the providers are. *)
Theorem available_adapters_enabled_or_internal `{K : KeyManagement}
    (db : Db) (userId : string) (registry : Registry.t) (model : SharedModel.t) :
  getUserRegistryInternal db userId = Ok registry →
  model ∈ MODELS_SHARED →
  (∀ providerId,
     providerId ∈ dom (Registry.providers registry)
     ↔ enabledCredential (getSettings db userId) providerId)
  ∧ RegistryModel.adapters (catalogModel (Registry.providers registry) model)
    = available_adapters_spec (Registry.providers registry)
        (SharedModel.adapters model)
  ∧ (∀ adapter,
       adapter ∈ SharedModel.adapters model →
       disabledCredential (getSettings db userId) (splitHead adapter) →
       ¬ enabledCredential (getSettings db userId) (splitHead adapter) →
       startsWith "i3-" (splitHead adapter) = false →
       adapter ∉ RegistryModel.adapters
                   (catalogModel (Registry.providers registry) model))
  ∧ (∀ adapter anyProviders,
       adapter ∈ SharedModel.adapters model →
       startsWith "i3-" (splitHead adapter) = true →
       adapter ∈ RegistryModel.adapters (catalogModel anyProviders model)).
Proof.
  intros Hrun Hmodel.
  apply (resolveRegistry_models _ _ _ catalog_ids_unique) in Hrun
    as (_ & Hp & _).
  generalize dependent (Registry.providers registry). intros providers Hp.
  generalize dependent (getSettings db userId). intros settings Hp.
  assert (Forall (λ a, splitHead a ∉ ObjectPrototypeKeys)
                 (SharedModel.adapters model)) as Hown.
  { pose proof catalog_providers_own as Hall.
    rewrite Forall_forall in Hall. by apply Hall. }
  clear Hmodel.
  assert (∀ providerId,
            providerId ∈ dom providers
            ↔ enabledCredential settings providerId) as Hkeys.
  { intros providerId. rewrite elem_of_dom.
    by apply resolveProviders_keys. }
  split; [done|].
  split; [by apply available_adapters_own|].
  split.
  - intros adapter Hin _ Hnot Hint [_ Hsel]%available_adapters_elem.
    rewrite Hint, orb_false_r in Hsel. unfold hasProperty in Hsel.
    apply orb_true_iff in Hsel
      as [Hsel%bool_decide_eq_true|Hsel%bool_decide_eq_true].
    + apply Hnot, Hkeys. by apply elem_of_dom.
    + rewrite Forall_forall in Hown. by apply (Hown adapter).
  - intros adapter anyProviders Hin Hint.
    apply available_adapters_elem. split; [done|].
    rewrite Hint. apply orb_true_r.
Qed.

(** The stored settings of [Samples.aliceTable] switch [openai] off while
    keeping its key; the theorem applies to the catalog's [gpt-4o], which
    is left without adapter. *)
Lemma available_adapters_enabled_or_internal_witness :
  @getUserRegistryInternal Samples.taggedKeys Samples.aliceTable "alice"
  = Ok Samples.aliceRegistry
  ∧ Samples.gpt4o ∈ MODELS_SHARED
  ∧ RegistryModel.adapters
      (catalogModel (Registry.providers Samples.aliceRegistry) Samples.gpt4o)
    = available_adapters_spec (Registry.providers Samples.aliceRegistry)
        (SharedModel.adapters Samples.gpt4o).
Proof.
  assert (@getUserRegistryInternal Samples.taggedKeys Samples.aliceTable
            "alice" = Ok Samples.aliceRegistry) as Hrun
    by (vm_compute; reflexivity).
  assert (Samples.gpt4o ∈ MODELS_SHARED) as Hmodel.
  { do 3 apply list_elem_of_further. apply list_elem_of_here. }
  split; [exact Hrun|]. split; [exact Hmodel|].
  exact (proj1 (proj2 (@available_adapters_enabled_or_internal
                         Samples.taggedKeys Samples.aliceTable "alice"
                         Samples.aliceRegistry Samples.gpt4o Hrun Hmodel))).
Defined.

(** C6.  Whenever the resolver returns, its models map holds an entry
    under every catalog id, whether or not any adapter of the model is
    available, and that entry is the catalog one unless an enabled custom
    model is stored under the same key; it holds, under the key of every
    enabled custom model, the synthesized entry whose only adapter is
    [providerId:modelId], also when the key is a catalog id (the custom
    loop runs after the catalog loop); and it holds nothing else, so a
    disabled custom model contributes no entry. *)
Theorem registry_models_catalog_then_custom `{K : KeyManagement}
    (db : Db) (userId : string) (registry : Registry.t) :
  getUserRegistryInternal db userId = Ok registry →
  (∀ model, model ∈ MODELS_SHARED →
     is_Some (Registry.models registry !! SharedModel.id model)
     ∧ ((∀ custom,
           UserSettings.customModels (getSettings db userId)
             !! SharedModel.id model = Some custom →
           CustomModel.enabled custom = false) →
        Registry.models registry !! SharedModel.id model
        = Some (catalogModel (Registry.providers registry) model)))
  ∧ (∀ key custom,
       UserSettings.customModels (getSettings db userId) !! key = Some custom →
       CustomModel.enabled custom = true →
       Registry.models registry !! key = Some (customModel custom)
       ∧ RegistryModel.adapters (customModel custom)
         = [CustomModel.providerId custom +:+ ":"
            +:+ CustomModel.modelId custom])
  ∧ (∀ key, is_Some (Registry.models registry !! key) →
       (∃ model, model ∈ MODELS_SHARED ∧ SharedModel.id model = key)
       ∨ (∃ custom,
            UserSettings.customModels (getSettings db userId) !! key
            = Some custom
            ∧ CustomModel.enabled custom = true)).
Proof.
  intros Hrun.
  apply (resolveRegistry_models _ _ _ catalog_ids_unique) in Hrun
    as (_ & _ & Hmodels).
  generalize dependent (Registry.models registry). intros models Hmodels.
  generalize dependent (getSettings db userId). intros settings Hmodels.
  assert (∀ model, model ∈ MODELS_SHARED →
            list_find (λ m, SharedModel.id m = SharedModel.id model)
                      MODELS_SHARED ≫= (λ found, Some found.2)
            = Some model) as Hfound.
  { intros model Hmodel.
    destruct (list_find _ MODELS_SHARED) as [[i m]|] eqn:Hfind.
    - apply list_find_Some in Hfind as (Hi & Hid & _). cbn. f_equal.
      apply list_elem_of_lookup in Hmodel as [j Hj].
      pose proof catalog_ids_unique as Hnd.
      assert (i = j) as ->; [|congruence].
      eapply NoDup_lookup; [exact Hnd| |];
        rewrite list_lookup_fmap; [by rewrite Hi|by rewrite Hj, Hid].
    - apply list_find_None in Hfind. rewrite Forall_forall in Hfind.
      by destruct (Hfind model Hmodel). }
  assert (∀ key,
            is_Some (catalogModel (Registry.providers registry)
                       <$> list_find (λ m, SharedModel.id m = key)
                             MODELS_SHARED ≫= (λ found, Some found.2)) →
            ∃ model, model ∈ MODELS_SHARED ∧ SharedModel.id model = key)
    as Hcatalog.
  { intros key.
    destruct (list_find _ MODELS_SHARED) as [[i m]|] eqn:Hfind.
    - intros _. apply list_find_Some in Hfind as (Hi & Hid & _).
      exists m. split; [by eapply list_elem_of_lookup_2|done].
    - by intros [? ?]. }
  generalize dependent MODELS_SHARED. intros catalog Hmodels Hfound Hcatalog.
  split; [|split].
  - intros model Hmodel. rewrite Hmodels, (Hfound _ Hmodel).
    split.
    + destruct (_ !! SharedModel.id model) as [custom|]; [|by eexists].
      destruct (CustomModel.enabled custom); by eexists.
    + intros Hoff.
      destruct (_ !! SharedModel.id model) as [custom|] eqn:Hc; [|done].
      by rewrite (Hoff custom eq_refl).
  - intros key custom Hkey Hon. by rewrite Hmodels, Hkey, Hon.
  - intros key. rewrite Hmodels.
    destruct (UserSettings.customModels settings !! key) as [custom|] eqn:Hc;
      [|by left; apply Hcatalog].
    destruct (CustomModel.enabled custom) eqn:Hon; [intros _; right; eauto|].
    by left; apply Hcatalog.
Qed.

(** In [Samples.aliceTable] the enabled custom model stored under
    [gpt-4o] replaces the catalog entry of that id. *)
Lemma registry_models_catalog_then_custom_witness :
  @getUserRegistryInternal Samples.taggedKeys Samples.aliceTable "alice"
  = Ok Samples.aliceRegistry
  ∧ UserSettings.customModels (getSettings Samples.aliceTable "alice")
      !! "gpt-4o" = Some Samples.my4o
  ∧ Registry.models Samples.aliceRegistry !! "gpt-4o"
    = Some (customModel Samples.my4o).
Proof.
  assert (@getUserRegistryInternal Samples.taggedKeys Samples.aliceTable
            "alice" = Ok Samples.aliceRegistry) as Hrun
    by (vm_compute; reflexivity).
  assert (UserSettings.customModels (getSettings Samples.aliceTable "alice")
            !! "gpt-4o" = Some Samples.my4o) as Hcustom
    by (vm_compute; reflexivity).
  split; [exact Hrun|]. split; [exact Hcustom|].
  exact (proj1 (proj1 (proj2 (@registry_models_catalog_then_custom
                                Samples.taggedKeys Samples.aliceTable "alice"
                                Samples.aliceRegistry Hrun))
                  "gpt-4o" Samples.my4o Hcustom eq_refl)).
Defined.

(** A catalog model with no available adapter keeps its entry: under the
    default settings [gpt-4o] resolves to an empty adapter list. *)
Example registry_keeps_model_without_adapter :
  (λ registry,
     RegistryModel.adapters <$> Registry.models registry !! "gpt-4o")
    <$> (match @getUserRegistryInternal Samples.taggedKeys [] "nobody" with
         | Ok registry => Some registry
         | Err _ => None
         end)
  = Some (Some []).
Proof. by vm_compute. Qed.

(** C7.  Two runs of the resolver for the same user return the same
    outcome, providers, models and settings alike, whenever the two
    tables hold the same settings snapshot for that user and the two
    collaborators answer alike on what the resolver hands them, the
    encrypted keys of the snapshot's enabled credentials: nothing else
    enters the result. *)
Theorem registry_resolution_deterministic (K1 K2 : KeyManagement)
    (db1 db2 : Db) (userId : string) :
  getSettings db1 userId = getSettings db2 userId →
  (∀ c, decryptedCiphertext (getSettings db1 userId) c →
        @decryptStored K1 c = @decryptStored K2 c) →
  @getUserRegistryInternal K1 db1 userId
  = @getUserRegistryInternal K2 db2 userId.
Proof.
  unfold getUserRegistryInternal, resolveRegistry.
  intros <- Hdec.
  set (settings := getSettings db1 userId) in *.
  assert (@resolveProviders K1 settings = @resolveProviders K2 settings) as ->;
    [|done].
  unfold resolveProviders.
  rewrite (forOf_agree (@addCoreProvider K1) (@addCoreProvider K2)).
  - destruct (forOf _ _ ∅) as [core|]; simpl; [|done].
    apply forOf_agree.
    intros acc [k p] Hin%elem_of_map_to_list. unfold addCustomProvider.
    destruct (CustomAIProvider.enabled p) eqn:Hon; simpl; [|done].
    rewrite Hdec; [done|]. right. eauto.
  - intros acc [k p] Hin%elem_of_map_to_list. unfold addCoreProvider.
    destruct (CoreAIProvider.enabled p) eqn:Hon; simpl; [|done].
    assert (decryptedCiphertext settings
              (Some (CoreAIProvider.encryptedKey p))) as Hc
      by (left; eauto).
    apply Hdec in Hc. simpl in Hc. by rewrite Hc.
Qed.

(** Two tables that differ in another user's document, resolved twice
    with the same collaborator. *)
Lemma registry_resolution_deterministic_witness :
  getSettings Samples.aliceTable "alice"
  = getSettings (Samples.aliceTable ++ Samples.corruptKeys)%list "alice"
  ∧ @getUserRegistryInternal Samples.taggedKeys Samples.aliceTable "alice"
    = @getUserRegistryInternal Samples.taggedKeys
        (Samples.aliceTable ++ Samples.corruptKeys)%list "alice".
Proof.
  split; [vm_compute; reflexivity|].
  apply (registry_resolution_deterministic Samples.taggedKeys
           Samples.taggedKeys);
    [vm_compute; reflexivity|intros c _; reflexivity].
Defined.

(** *** Decryption failures *)

(** The two key queries of the general providers catch every failure of
    the collaborator. *)
Lemma general_key_queries_never_throw `{K : KeyManagement}
    (db : Db) (providerId userId : string) :
  isOk (getDecryptedGeneralProviderKey db providerId userId) = true
  ∧ isOk (getSupermemoryKey db userId) = true.
Proof.
  unfold getDecryptedGeneralProviderKey, getSupermemoryKey, decryptOrNull.
  split.
  - destruct (generalProvider _ providerId) as [config|]; [|done].
    destruct (negb _ || _); [done|]. by destruct (decryptKey _).
  - destruct (generalProvider _ "supermemory") as [config|]; [|done].
    destruct (negb _ || _); [done|]. by destruct (decryptKey _).
Qed.

(** The resolver does not: one enabled credential whose ciphertext the
    collaborator rejects makes the whole query throw. *)
Lemma registry_throws_on_rejected_ciphertext `{K : KeyManagement}
    (db : Db) (userId : string) (ciphertext : option string) :
  decryptedCiphertext (getSettings db userId) ciphertext →
  isOk (decryptStored ciphertext) = false →
  isOk (getUserRegistryInternal db userId) = false.
Proof.
  intros Hc Hrej. unfold getUserRegistryInternal, resolveRegistry.
  destruct (resolveProviders (getSettings db userId)) as [providers|] eqn:Hp;
    [|done].
  pose proof (resolveProviders_needs_decryption _ _ _ Hp Hc). congruence.
Qed.

(** C2.  On [Samples.corruptKeys], whose document holds an enabled
    [openai] credential and an enabled memory integration with
    ciphertexts the collaborator rejects, the two key queries of the
    general providers return [null], but the registry resolution throws
    the collaborator's failure to its caller. *)
Theorem registry_propagates_decryption_failure :
  @getUserRegistryInternal Samples.taggedKeys Samples.corruptKeys "bob"
  = Err (Rejected "decryption failed")
  ∧ @getSupermemoryKey Samples.taggedKeys Samples.corruptKeys "bob" = Ok None
  ∧ @getDecryptedGeneralProviderKey Samples.taggedKeys Samples.corruptKeys
      "supermemory" "bob" = Ok None.
Proof. by vm_compute. Qed.

(** *** The settings table *)

Lemma withId_withId id settings : withId id (withId id settings) = withId id settings.
Proof. reflexivity. Qed.

Lemma getSettings_userId db userId :
  UserSettings.userId (getSettings db userId) = userId.
Proof.
  unfold getSettings, first.
  destruct (list_find _ db) as [[i d]|] eqn:Hfind; simpl; [|done].
  by apply list_find_Some in Hfind as (_ & ? & _).
Qed.

(** Saving never fails on settings that were just read. *)
Lemma save_getSettings_ok db userId value :
  ∃ db', save (getSettings db userId) value db = (Ok tt, db').
Proof.
  unfold save, getSettings, first.
  destruct (list_find _ db) as [[i d]|] eqn:Hfind; simpl.
  - apply list_find_Some in Hfind as (Hi & _). unfold patch. rewrite Hi. eauto.
  - unfold insert. eauto.
Qed.

(** Reading back what was saved, when the saved value keeps the user
    id. *)
Lemma save_getSettings db userId value db' :
  UserSettings.userId value = userId →
  save (getSettings db userId) value db = (Ok tt, db') →
  getSettings db' userId = readBack db userId value.
Proof.
  intros Huser. unfold save, getSettings, first, readBack.
  destruct (list_find _ db) as [[i d]|] eqn:Hfind; simpl.
  - apply list_find_Some in Hfind as (Hi & Hd & Hbefore).
    unfold patch. rewrite Hi. intros [= <-].
    assert (list_find (λ d, UserSettings.userId d = userId)
              (alter (λ stored, patched stored value) i db)
            = Some (i, patched d value)) as ->; [|done].
    apply list_find_Some. split; [|split].
    + by rewrite list_lookup_alter_eq, Hi.
    + done.
    + intros j y Hj Hlt. rewrite list_lookup_alter_ne in Hj by lia. eauto.
  - unfold insert. intros [= <-].
    apply list_find_None in Hfind.
    assert (list_find (λ d, UserSettings.userId d = userId)
              (db ++ [withId (length db) value])
            = Some (length db, withId (length db) value)) as ->; [|done].
    apply list_find_Some. split; [|split].
    + by rewrite lookup_app_r, Nat.sub_diag.
    + done.
    + intros j y Hj Hlt. rewrite lookup_app_l in Hj by done.
      rewrite Forall_forall in Hfind. apply Hfind.
      by eapply list_elem_of_lookup_2.
Qed.

(** *** Authorization *)

(** C10.  The full update throws [unauthorized:api] and leaves the table
    as it was when the caller's identity is unresolved and when it is
    resolved to an id other than the [userId] argument; the partial
    update does so when the caller's identity is unresolved. *)
Theorem mutations_reject_unauthorized `{K : KeyManagement}
    (args : FullUpdate.t) (partialArgs : PartialUpdate.t) (db : Db) :
  (∀ error,
     updateUserSettings (unresolved error) args db = (Err unauthorized, db))
  ∧ (∀ id, id ≠ FullUpdate.userId args →
       updateUserSettings (resolved id) args db = (Err unauthorized, db))
  ∧ (∀ error,
       updateUserSettingsPartial (unresolved error) partialArgs db
       = (Err unauthorized, db)).
Proof.
  split; [done|]. split; [|done].
  intros id Hne. unfold updateUserSettings.
  apply String.eqb_neq in Hne. by rewrite Hne.
Qed.

(** *** The full update *)

Lemma forOf_total {A B} (f : A → B → Result A) xs acc :
  (∀ a x, isOk (f a x) = true) → ∃ acc', forOf f xs acc = Ok acc'.
Proof.
  intros Hf. revert acc.
  induction xs as [|x xs IH]; intros acc; simpl; [eauto|].
  specialize (Hf acc x). destruct (f acc x); [simpl; auto|done].
Qed.

Section FullUpdateFacts.
Context `{K : KeyManagement}.

Lemma encryptOr_falsy newKey previous :
  truthy newKey = false → encryptOr newKey previous = previous.
Proof. by destruct newKey as [[|c rest]|]. Qed.

Lemma encryptOr_truthy newKey previous :
  truthy newKey = true →
  ∃ plaintext, newKey = Some plaintext ∧ plaintext ≠ ""
               ∧ encryptOr newKey previous = encryptKey plaintext.
Proof. destruct newKey as [[|c rest]|]; [done| |done]. intros _. eauto. Qed.

Lemma encryptOr_ok newKey previous :
  encryptionTotal K → isOk previous = true →
  isOk (encryptOr newKey previous) = true.
Proof. intros Henc Hprev. destruct newKey as [[|c rest]|]; simpl; auto. Qed.

Lemma encryptOrStored_falsy newKey stored :
  truthy newKey = false → encryptOrStored newKey stored = stored.
Proof. by destruct newKey as [[|c rest]|]. Qed.

Lemma encryptOrStored_truthy newKey stored :
  truthy newKey = true →
  ∃ plaintext, newKey = Some plaintext ∧ plaintext ≠ ""
               ∧ encryptOrStored newKey stored
                 = let? encryptedKey := encryptKey plaintext in
                   Ok (Some encryptedKey).
Proof. destruct newKey as [[|c rest]|]; [done| |done]. intros _. eauto. Qed.

Lemma fullCore_keyed settings acc entry :
  fullCore settings acc entry = keyed (fullCoreStep settings) acc entry.
Proof.
  destruct entry as [k u]. unfold fullCore, keyed, fullCoreStep; simpl.
  by destruct (encryptOr _ _).
Qed.

Lemma fullCustom_keyed settings acc entry :
  fullCustom settings acc entry = keyed (fullCustomStep settings) acc entry.
Proof.
  destruct entry as [k u]. unfold fullCustom, keyed, fullCustomStep; simpl.
  by destruct (encryptOrStored _ _).
Qed.

Lemma fullCore_ok settings acc entry :
  encryptionTotal K → isOk (fullCore settings acc entry) = true.
Proof.
  intros Henc. destruct entry as [k u]. unfold fullCore.
  pose proof (encryptOr_ok (CoreUpdate.newKey u)
                (Ok (previousCoreKey (UserSettings.coreAIProviders settings) k))
                Henc eq_refl) as Hok.
  by destruct (encryptOr _ _).
Qed.

Lemma fullGeneral_ok settings acc entry :
  encryptionTotal K → isOk (fullGeneral settings acc entry) = true.
Proof.
  intros Henc. destruct entry as [k u]. unfold fullGeneral.
  pose proof (encryptOr_ok (GeneralUpdate.newKey u)
                (Ok (previousGeneralKey (generalProvider settings k)))
                Henc eq_refl) as Hok.
  by destruct (encryptOr _ _).
Qed.

(** Everything after the custom loop completes when encryption does. *)
Lemma fullNewSettings_after_custom settings args core custom :
  encryptionTotal K →
  forOf (fullCore settings) (map_to_list (FullUpdate.coreProviders args)) ∅
  = Ok core →
  forOf (fullCustom settings)
        (map_to_list (FullUpdate.customProviders args)) ∅ = Ok custom →
  ∃ newSettings,
    fullNewSettings settings args = Ok newSettings
    ∧ UserSettings.coreAIProviders newSettings = core
    ∧ UserSettings.customAIProviders newSettings = custom.
Proof.
  intros Henc Hcore Hcustom. unfold fullNewSettings.
  rewrite Hcore, Hcustom; simpl.
  assert (∃ general,
            match FullUpdate.generalProviders args with
            | Some updates =>
                forOf (fullGeneral settings) (map_to_list updates)
                  (carriedGeneralProviders settings)
            | None => Ok (carriedGeneralProviders settings)
            end = Ok general) as [general ->].
  { destruct (FullUpdate.generalProviders args); [|eauto].
    apply forOf_total. intros a x. by apply fullGeneral_ok. }
  simpl. destruct (FullUpdate.supermemory args) as [supermemory|]; simpl;
    [|eauto].
  pose proof (encryptOr_ok (CoreUpdate.newKey supermemory)
                (Ok (previousGeneralKey (generalProvider settings "supermemory")))
                Henc eq_refl) as Hok.
  destruct (encryptOr _ _); [simpl; eauto|done].
Qed.

(** What a completed full update computed and wrote. *)
Lemma updateUserSettings_ok auth args db db' :
  updateUserSettings auth args db = (Ok tt, db') →
  auth = resolved (FullUpdate.userId args)
  ∧ ∃ core custom newSettings,
      forOf (fullCore (getSettings db (FullUpdate.userId args)))
            (map_to_list (FullUpdate.coreProviders args)) ∅ = Ok core
      ∧ forOf (fullCustom (getSettings db (FullUpdate.userId args)))
              (map_to_list (FullUpdate.customProviders args)) ∅ = Ok custom
      ∧ fullNewSettings (getSettings db (FullUpdate.userId args)) args
        = Ok newSettings
      ∧ UserSettings.coreAIProviders newSettings = core
      ∧ UserSettings.customAIProviders newSettings = custom
      ∧ UserSettings.userId newSettings
        = BaseSettings.userId (FullUpdate.baseSettings args)
      ∧ save (getSettings db (FullUpdate.userId args)) newSettings db
        = (Ok tt, db').
Proof.
  unfold updateUserSettings. destruct auth as [error|id]; [done|].
  destruct (String.eqb id (FullUpdate.userId args)) eqn:Hid; simpl; [|done].
  apply String.eqb_eq in Hid as ->.
  unfold bind, readSettings, await.
  destruct (fullNewSettings _ args) as [newSettings|] eqn:Hnew; [|done].
  intros Hsave. split; [done|].
  pose proof Hnew as Hnew'. unfold fullNewSettings in Hnew'.
  destruct (forOf (fullCore _) _ ∅) as [core|]; simpl in Hnew'; [|done].
  destruct (forOf (fullCustom _) _ ∅) as [custom|]; simpl in Hnew'; [|done].
  destruct (match FullUpdate.generalProviders args with
            | Some _ => _ | None => _ end) as [general|];
    simpl in Hnew'; [|done].
  destruct (match FullUpdate.supermemory args with
            | Some _ => _ | None => _ end) as [general'|];
    simpl in Hnew'; [|done].
  injection Hnew' as <-.
  exists core, custom. eexists. repeat split; done.
Qed.

End FullUpdateFacts.

Lemma orEmpty_Some s : orEmpty (Some s) = s.
Proof. by destruct s. Qed.

Lemma readBack_providers db userId value :
  UserSettings.coreAIProviders (readBack db userId value)
  = UserSettings.coreAIProviders value
  ∧ UserSettings.customAIProviders (readBack db userId value)
    = UserSettings.customAIProviders value
  ∧ UserSettings.customModels (readBack db userId value)
    = UserSettings.customModels value.
Proof. unfold readBack. by destruct (list_find _ db) as [[i d]|]. Qed.

(** C4.  Whenever a full update completes, the document it writes holds,
    for every core and every custom provider entry of the request: the
    encrypted key previously stored under that provider id, unchanged,
    when the entry brings no [newKey] (none, or the empty string, which
    the handler's truthiness test treats alike); the collaborator's
    encryption of [newKey] when it brings one.  When the base settings
    keep the user id, the next read of the user's settings shows these
    provider records. *)
Theorem full_update_carries_keys_forward `{K : KeyManagement}
    (auth : UserIdentity) (args : FullUpdate.t) (db db' : Db) :
  updateUserSettings auth args db = (Ok tt, db') →
  ∃ newSettings,
    fullNewSettings (getSettings db (FullUpdate.userId args)) args
    = Ok newSettings
    ∧ save (getSettings db (FullUpdate.userId args)) newSettings db
      = (Ok tt, db')
    ∧ (∀ providerId update,
         FullUpdate.coreProviders args !! providerId = Some update →
         (truthy (CoreUpdate.newKey update) = false →
          ∀ stored,
            UserSettings.coreAIProviders
              (getSettings db (FullUpdate.userId args)) !! providerId
            = Some stored →
            UserSettings.coreAIProviders newSettings !! providerId
            = Some (CoreAIProvider.make (CoreUpdate.enabled update)
                      (CoreAIProvider.encryptedKey stored)))
         ∧ (truthy (CoreUpdate.newKey update) = true →
            ∃ plaintext ciphertext,
              CoreUpdate.newKey update = Some plaintext
              ∧ encryptKey plaintext = Ok ciphertext
              ∧ UserSettings.coreAIProviders newSettings !! providerId
                = Some (CoreAIProvider.make (CoreUpdate.enabled update)
                          ciphertext)))
    ∧ (∀ providerId update,
         FullUpdate.customProviders args !! providerId = Some update →
         (truthy (CustomUpdate.newKey update) = false →
          ∀ stored,
            UserSettings.customAIProviders
              (getSettings db (FullUpdate.userId args)) !! providerId
            = Some stored →
            UserSettings.customAIProviders newSettings !! providerId
            = Some (CustomAIProvider.make (CustomUpdate.name update)
                      (CustomUpdate.enabled update)
                      (CustomUpdate.endpoint update)
                      (CustomAIProvider.encryptedKey stored)))
         ∧ (truthy (CustomUpdate.newKey update) = true →
            ∃ plaintext ciphertext,
              CustomUpdate.newKey update = Some plaintext
              ∧ encryptKey plaintext = Ok ciphertext
              ∧ UserSettings.customAIProviders newSettings !! providerId
                = Some (CustomAIProvider.make (CustomUpdate.name update)
                          (CustomUpdate.enabled update)
                          (CustomUpdate.endpoint update) (Some ciphertext))))
    ∧ (BaseSettings.userId (FullUpdate.baseSettings args)
       = FullUpdate.userId args →
       UserSettings.coreAIProviders (getSettings db' (FullUpdate.userId args))
       = UserSettings.coreAIProviders newSettings
       ∧ UserSettings.customAIProviders
           (getSettings db' (FullUpdate.userId args))
         = UserSettings.customAIProviders newSettings).
Proof.
  intros Hrun.
  apply updateUserSettings_ok in Hrun
    as (_ & core & custom & newSettings & Hcore & Hcustom & Hnew & <- & <-
        & Huser & Hsave).
  exists newSettings. split; [done|]. split; [done|].
  rewrite (forOf_ext _ _ _ _ (fullCore_keyed _)) in Hcore.
  rewrite (forOf_ext _ _ _ _ (fullCustom_keyed _)) in Hcustom.
  apply forOf_keyed_spec in Hcore as [Hcore _]; [|apply NoDup_fst_map_to_list].
  apply forOf_keyed_spec in Hcustom as [Hcustom _];
    [|apply NoDup_fst_map_to_list].
  split; [|split].
  - intros providerId update Hin%elem_of_map_to_list.
    destruct (Hcore _ _ Hin) as (content & Hstep & ->).
    unfold fullCoreStep in Hstep. split.
    + intros Hfalsy stored Hstored.
      rewrite (encryptOr_falsy _ _ Hfalsy) in Hstep. simpl in Hstep.
      injection Hstep as <-. unfold previousCoreKey.
      rewrite Hstored. cbn [fmap option_fmap option_map].
      by rewrite orEmpty_Some.
    + intros Htruthy.
      destruct (encryptOr_truthy _
                  (Ok (previousCoreKey
                         (UserSettings.coreAIProviders
                            (getSettings db (FullUpdate.userId args)))
                         providerId)) Htruthy)
        as (plaintext & Hkey & _ & Henc).
      rewrite Henc in Hstep.
      destruct (encryptKey plaintext) as [ciphertext|] eqn:Hc;
        simpl in Hstep; [|done].
      injection Hstep as <-. eauto.
  - intros providerId update Hin%elem_of_map_to_list.
    destruct (Hcustom _ _ Hin) as (content & Hstep & ->).
    unfold fullCustomStep in Hstep. split.
    + intros Hfalsy stored Hstored.
      rewrite (encryptOrStored_falsy _ _ Hfalsy) in Hstep.
      unfold storedCustomKey in Hstep. rewrite Hstored in Hstep.
      simpl in Hstep. by injection Hstep as <-.
    + intros Htruthy.
      destruct (encryptOrStored_truthy _
                  (storedCustomKey
                     (UserSettings.customAIProviders
                        (getSettings db (FullUpdate.userId args)))
                     providerId) Htruthy)
        as (plaintext & Hkey & _ & Henc).
      rewrite Henc in Hstep.
      destruct (encryptKey plaintext) as [ciphertext|] eqn:Hc;
        simpl in Hstep; [|done].
      injection Hstep as <-. eauto.
  - intros Hbase.
    rewrite (save_getSettings _ _ _ _ (eq_trans Huser Hbase) Hsave).
    pose proof (readBack_providers db (FullUpdate.userId args) newSettings)
      as (-> & -> & _).
    done.
Qed.

(** On [Samples.aliceTable] the update [Samples.keepOpenai] completes;
    the key stored for [openai] is still there when the settings are read
    again. *)
Lemma full_update_carries_keys_forward_witness :
  @updateUserSettings Samples.taggedKeys (resolved "alice") Samples.keepOpenai
    Samples.aliceTable = (Ok tt, Samples.afterKeepOpenai)
  ∧ UserSettings.coreAIProviders (getSettings Samples.afterKeepOpenai "alice")
      !! "openai"
    = Some (CoreAIProvider.make true "enc:sk-1").
Proof.
  assert (@updateUserSettings Samples.taggedKeys (resolved "alice")
            Samples.keepOpenai Samples.aliceTable
          = (Ok tt, Samples.afterKeepOpenai)) as Hrun
    by (vm_compute; reflexivity).
  split; [exact Hrun|].
  destruct (@full_update_carries_keys_forward Samples.taggedKeys _ _ _ _ Hrun)
    as (newSettings & _ & _ & Hcore & _ & Hread).
  exact (eq_trans
           (f_equal (λ providers, providers !! "openai")
              (proj1 (Hread eq_refl)))
           (proj1 (Hcore "openai" (CoreUpdate.make true None)
                     ltac:(vm_compute; reflexivity))
              eq_refl (CoreAIProvider.make false "enc:sk-1")
              ltac:(vm_compute; reflexivity))).
Defined.

(** C5.  With a collaborator that never rejects an encryption: a full
    update by the owner whose [customProviders] holds, without [newKey],
    a provider id that the stored settings lack and that is no property
    name plain objects inherit throws the engine's [TypeError] for a
    property read on [undefined] and leaves the table as it was; the same
    situation among [coreProviders], when every keyless custom entry is
    stored, completes and writes the entry with an empty encrypted
    key. *)
Theorem full_update_throws_on_unknown_custom_provider `{K : KeyManagement}
    (args : FullUpdate.t) (db : Db) :
  encryptionTotal K →
  (∀ providerId update,
     FullUpdate.customProviders args !! providerId = Some update →
     truthy (CustomUpdate.newKey update) = false →
     UserSettings.customAIProviders (getSettings db (FullUpdate.userId args))
       !! providerId = None →
     providerId ∉ ObjectPrototypeKeys →
     updateUserSettings (resolved (FullUpdate.userId args)) args db
     = (Err undefinedRead, db))
  ∧ (∀ providerId update,
       FullUpdate.coreProviders args !! providerId = Some update →
       truthy (CoreUpdate.newKey update) = false →
       UserSettings.coreAIProviders (getSettings db (FullUpdate.userId args))
         !! providerId = None →
       (∀ customId custom,
          FullUpdate.customProviders args !! customId = Some custom →
          truthy (CustomUpdate.newKey custom) = false →
          is_Some (UserSettings.customAIProviders
                     (getSettings db (FullUpdate.userId args)) !! customId)) →
       ∃ db' newSettings,
         updateUserSettings (resolved (FullUpdate.userId args)) args db
         = (Ok tt, db')
         ∧ fullNewSettings (getSettings db (FullUpdate.userId args)) args
           = Ok newSettings
         ∧ save (getSettings db (FullUpdate.userId args)) newSettings db
           = (Ok tt, db')
         ∧ UserSettings.coreAIProviders newSettings !! providerId
           = Some (CoreAIProvider.make (CoreUpdate.enabled update) "")).
Proof.
  intros Henc.
  set (settings := getSettings db (FullUpdate.userId args)).
  destruct (forOf_total (fullCore settings)
              (map_to_list (FullUpdate.coreProviders args)) ∅)
    as [core Hcore]; [intros a x; by apply fullCore_ok|].
  assert (∀ k v old,
            isOk (fullCustomStep settings k v old) = true
            ∨ fullCustomStep settings k v old = Err undefinedRead)
    as Hsteps.
  { intros k v old. unfold fullCustomStep.
    destruct (truthy (CustomUpdate.newKey v)) eqn:Hkey.
    - left.
      destruct (encryptOrStored_truthy (CustomUpdate.newKey v)
                  (storedCustomKey (UserSettings.customAIProviders settings) k)
                  Hkey) as (plaintext & _ & _ & ->).
      pose proof (Henc plaintext) as Hok.
      by destruct (encryptKey plaintext).
    - rewrite (encryptOrStored_falsy _ _ Hkey). unfold storedCustomKey.
      destruct (_ !! k); [by left|].
      destruct (bool_decide _); [by left|by right]. }
  split.
  - intros providerId update Hin%elem_of_map_to_list Hkey Hmissing Hown.
    unfold updateUserSettings. rewrite String.eqb_refl; simpl.
    unfold bind, readSettings, await. fold settings.
    assert (fullNewSettings settings args = Err undefinedRead) as ->; [|done].
    unfold fullNewSettings. rewrite Hcore; simpl.
    rewrite (forOf_ext _ _ _ _ (fullCustom_keyed _)).
    rewrite (forOf_keyed_err (fullCustomStep settings) _ undefinedRead);
      [done|apply NoDup_fst_map_to_list|intros k v _; apply Hsteps|].
    exists providerId, update. split; [done|].
    unfold fullCustomStep, storedCustomKey. fold settings in Hmissing.
    rewrite (encryptOrStored_falsy _ _ Hkey), Hmissing.
    by rewrite (bool_decide_eq_false_2 _ Hown).
  - intros providerId update Hin%elem_of_map_to_list Hkey Hmissing Hstored.
    destruct (forOf_keyed_ok (fullCustomStep settings)
                (map_to_list (FullUpdate.customProviders args))
                (NoDup_fst_map_to_list _) ∅) as [custom Hcustom].
    { intros k v Hkv%elem_of_map_to_list.
      destruct (Hsteps k v ((∅ : gmap string CustomAIProvider.t) !! k))
        as [Hok|Herr]; [done|].
      unfold fullCustomStep in Herr.
      destruct (truthy (CustomUpdate.newKey v)) eqn:Hv.
      - destruct (encryptOrStored_truthy (CustomUpdate.newKey v)
                    (storedCustomKey (UserSettings.customAIProviders settings)
                       k) Hv) as (plaintext & _ & _ & Hf).
        rewrite Hf in Herr. pose proof (Henc plaintext) as Hc.
        by destruct (encryptKey plaintext).
      - rewrite (encryptOrStored_falsy _ _ Hv) in Herr.
        destruct (Hstored k v Hkv Hv) as [stored Hs]. fold settings in Hs.
        unfold storedCustomKey in Herr. by rewrite Hs in Herr. }
    rewrite <- (forOf_ext _ _ _ _ (fullCustom_keyed _)) in Hcustom.
    destruct (fullNewSettings_after_custom settings args core custom
                Henc Hcore Hcustom) as (newSettings & Hnew & <- & _).
    destruct (save_getSettings_ok db (FullUpdate.userId args) newSettings)
      as [db' Hsave].
    exists db', newSettings. fold settings in Hsave.
    split; [|split; [done|split; [done|]]].
    + unfold updateUserSettings. rewrite String.eqb_refl; simpl.
      unfold bind, readSettings, await. fold settings. by rewrite Hnew.
    + pose proof Hnew as Hnew'. unfold fullNewSettings in Hnew'.
      rewrite Hcore in Hnew'. simpl in Hnew'.
      destruct (forOf (fullCustom settings) _ ∅) as [custom'|];
        simpl in Hnew'; [|done].
      destruct (match FullUpdate.generalProviders args with
                | Some _ => _ | None => _ end) as [general|];
        simpl in Hnew'; [|done].
      destruct (match FullUpdate.supermemory args with
                | Some _ => _ | None => _ end) as [general'|];
        simpl in Hnew'; [|done].
      injection Hnew' as <-. simpl.
      rewrite (forOf_ext _ _ _ _ (fullCore_keyed _)) in Hcore.
      apply forOf_keyed_spec in Hcore as [Hcore' _];
        [|apply NoDup_fst_map_to_list].
      destruct (Hcore' _ _ Hin) as (content & Hstep & ->).
      unfold fullCoreStep in Hstep.
      rewrite (encryptOr_falsy _ _ Hkey) in Hstep. simpl in Hstep.
      injection Hstep as <-. unfold previousCoreKey.
      fold settings in Hmissing. by rewrite Hmissing.
Qed.

(** On [Samples.aliceTable], [Samples.unknownCustom] names the custom
    provider [other-llm], which is not stored, without a key. *)
Lemma full_update_throws_on_unknown_custom_provider_witness :
  encryptionTotal Samples.taggedKeys
  ∧ FullUpdate.customProviders Samples.unknownCustom !! "other-llm"
    = Some (CustomUpdate.make "Other" true "https://other.example/v1" None)
  ∧ @updateUserSettings Samples.taggedKeys
      (resolved (FullUpdate.userId Samples.unknownCustom))
      Samples.unknownCustom Samples.aliceTable
    = (Err undefinedRead, Samples.aliceTable).
Proof.
  assert (encryptionTotal Samples.taggedKeys) as Henc by (intros p; reflexivity).
  assert (FullUpdate.customProviders Samples.unknownCustom !! "other-llm"
          = Some (CustomUpdate.make "Other" true "https://other.example/v1"
                    None)) as Hin by (vm_compute; reflexivity).
  split; [exact Henc|]. split; [exact Hin|].
  exact (proj1 (@full_update_throws_on_unknown_custom_provider
                  Samples.taggedKeys Samples.unknownCustom Samples.aliceTable
                  Henc)
           "other-llm" _ Hin eq_refl ltac:(vm_compute; reflexivity)
           ltac:(apply (bool_decide_unpack _); vm_compute; exact I)).
Defined.

(** C5, as stated, fails for a custom provider that goes by a property
    name every plain object inherits: [Samples.inheritedCustom] sends
    [constructor] without a key, the settings stored in
    [Samples.aliceTable] hold no such provider, and the update completes,
    writing the entry without an encrypted key. *)
Lemma unknown_custom_provider_with_inherited_name_is_stored :
  @updateUserSettings Samples.taggedKeys (resolved "alice")
    Samples.inheritedCustom Samples.aliceTable
  = (Ok tt, Samples.afterInheritedCustom)
  ∧ UserSettings.customAIProviders (getSettings Samples.aliceTable "alice")
      !! "constructor" = None
  ∧ UserSettings.customAIProviders
      (getSettings Samples.afterInheritedCustom "alice") !! "constructor"
    = Some (CustomAIProvider.make "Ctor" true "https://ctor.example/v1" None)
  ∧ ¬ (∀ (K : KeyManagement) (args : FullUpdate.t) (db : Db)
         (providerId : string) (update : CustomUpdate.t),
         encryptionTotal K →
         FullUpdate.customProviders args !! providerId = Some update →
         truthy (CustomUpdate.newKey update) = false →
         UserSettings.customAIProviders
           (getSettings db (FullUpdate.userId args)) !! providerId = None →
         @updateUserSettings K (resolved (FullUpdate.userId args)) args db
         = (Err undefinedRead, db)).
Proof.
  assert (@updateUserSettings Samples.taggedKeys (resolved "alice")
            Samples.inheritedCustom Samples.aliceTable
          = (Ok tt, Samples.afterInheritedCustom)) as Hrun
    by (vm_compute; reflexivity).
  split; [exact Hrun|]. split; [vm_compute; reflexivity|].
  split; [vm_compute; reflexivity|].
  intros Hclaim.
  specialize (Hclaim Samples.taggedKeys Samples.inheritedCustom
                Samples.aliceTable "constructor"
                (CustomUpdate.make "Ctor" true "https://ctor.example/v1" None)
                ltac:(intros plaintext; reflexivity)
                ltac:(vm_compute; reflexivity) eq_refl
                ltac:(vm_compute; reflexivity)).
  change (FullUpdate.userId Samples.inheritedCustom) with "alice" in Hclaim.
  rewrite Hrun in Hclaim. discriminate.
Qed.

(** The core analogue on the same table: [Samples.unknownCore] completes
    and stores [anthropic] with an empty key. *)
Example full_update_unknown_core_provider_stores_empty_key :
  ∃ db',
    @updateUserSettings Samples.taggedKeys (resolved "alice")
      Samples.unknownCore Samples.aliceTable = (Ok tt, db')
    ∧ UserSettings.coreAIProviders (getSettings db' "alice") !! "anthropic"
      = Some (CoreAIProvider.make true "").
Proof. eexists. split; vm_compute; reflexivity. Qed.

(** *** The partial update *)

Section PartialUpdateFacts.
Context `{K : KeyManagement}.

Lemma partialCustom_keyed acc entry :
  partialCustom acc entry = keyed partialCustomStep acc entry.
Proof.
  destruct entry as [k [u|]]; unfold partialCustom, keyed, partialCustomStep;
    simpl; [|done].
  by destruct (encryptOr _ _).
Qed.

Lemma partialModel_keyed entries acc :
  forOf (keyed partialModelStep) entries acc
  = Ok (foldl partialModel acc entries).
Proof.
  revert acc.
  induction entries as [|[k [u|]] rest IH]; intros acc; simpl; [done|..];
    apply IH.
Qed.

Lemma partialCore_ok acc entry :
  encryptionTotal K → isOk (partialCore acc entry) = true.
Proof.
  intros Henc. destruct entry as [k u]. unfold partialCore.
  pose proof (encryptOr_ok (CoreUpdate.newKey u)
                (Ok (previousCoreKey acc k)) Henc eq_refl) as Hok.
  by destruct (encryptOr _ _).
Qed.

Lemma partialCustom_ok acc entry :
  encryptionTotal K → isOk (partialCustom acc entry) = true.
Proof.
  intros Henc. destruct entry as [k [u|]]; unfold partialCustom; [|done].
  pose proof (encryptOr_ok (CustomUpdate.newKey u)
                (Ok (orEmpty (acc !! k ≫= CustomAIProvider.encryptedKey)))
                Henc eq_refl) as Hok.
  by destruct (encryptOr _ _).
Qed.

Lemma partialGeneral_ok shared acc entry :
  encryptionTotal K → isOk (partialGeneral shared acc entry) = true.
Proof.
  intros Henc. destruct entry as [k u]. unfold partialGeneral.
  pose proof (encryptOr_ok (GeneralUpdate.newKey u)
                (Ok (previousGeneralKey
                       (if shared then acc !! k else None)))
                Henc eq_refl) as Hok.
  by destruct (encryptOr _ _).
Qed.

(** The partial update computes its document whenever encryption
    completes. *)
Lemma partialNewSettings_ok settings args :
  encryptionTotal K → ∃ newSettings, partialNewSettings settings args = Ok newSettings.
Proof.
  intros Henc. unfold partialNewSettings.
  assert (∃ core,
            match PartialUpdate.coreProviderUpdates args with
            | Some updates =>
                forOf partialCore (map_to_list updates)
                  (UserSettings.coreAIProviders settings)
            | None => Ok (UserSettings.coreAIProviders settings)
            end = Ok core) as [core ->].
  { destruct (PartialUpdate.coreProviderUpdates args); [|eauto].
    apply forOf_total. intros a x. by apply partialCore_ok. }
  assert (∃ custom,
            match PartialUpdate.customProviderUpdates args with
            | Some updates =>
                forOf partialCustom (map_to_list updates)
                  (UserSettings.customAIProviders settings)
            | None => Ok (UserSettings.customAIProviders settings)
            end = Ok custom) as [custom ->].
  { destruct (PartialUpdate.customProviderUpdates args); [|eauto].
    apply forOf_total. intros a x. by apply partialCustom_ok. }
  simpl.
  destruct (PartialUpdate.generalProviderUpdates args) as [updates|];
    [|simpl; eauto].
  destruct (UserSettings.generalProviders settings) as [stored|].
  - destruct (forOf_total (partialGeneral true) (map_to_list updates) stored)
      as [general ->]; [intros a x; by apply partialGeneral_ok|].
    simpl. eauto.
  - destruct (forOf_total (partialGeneral false) (map_to_list updates) ∅)
      as [general ->]; [intros a x; by apply partialGeneral_ok|].
    simpl. eauto.
Qed.

(** The fields of the document a partial update computes. *)
Lemma partialNewSettings_inv settings args newSettings :
  partialNewSettings settings args = Ok newSettings →
  UserSettings.userId newSettings = UserSettings.userId settings
  ∧ UserSettings.customThemes newSettings
    = partialRemoveTheme (PartialUpdate.removeTheme args)
        (partialAddTheme (PartialUpdate.addTheme args)
           (UserSettings.customThemes settings))
  ∧ match PartialUpdate.customProviderUpdates args with
    | Some updates =>
        forOf partialCustom (map_to_list updates)
          (UserSettings.customAIProviders settings)
    | None => Ok (UserSettings.customAIProviders settings)
    end = Ok (UserSettings.customAIProviders newSettings)
  ∧ UserSettings.customModels newSettings
    = match PartialUpdate.customModelUpdates args with
      | Some updates =>
          foldl partialModel (UserSettings.customModels settings)
            (map_to_list updates)
      | None => UserSettings.customModels settings
      end.
Proof.
  unfold partialNewSettings.
  destruct (match PartialUpdate.coreProviderUpdates args with
            | Some _ => _ | None => _ end) as [core|]; simpl; [|done].
  destruct (match PartialUpdate.customProviderUpdates args with
            | Some _ => _ | None => _ end) as [custom|]; simpl; [|done].
  destruct (match PartialUpdate.generalProviderUpdates args with
            | Some _ => _ | None => _ end) as [general|]; simpl; [|done].
  by intros [= <-].
Qed.

Lemma updateUserSettingsPartial_run id args db :
  updateUserSettingsPartial (resolved id) args db
  = match partialNewSettings (getSettings db id) args with
    | Ok newSettings => save (getSettings db id) newSettings db
    | Err failure => (Err failure, db)
    end.
Proof. reflexivity. Qed.

End PartialUpdateFacts.

Lemma partial_update_completes `{K : KeyManagement}
    (id : string) (args : PartialUpdate.t) (db : Db) :
  encryptionTotal K →
  ∃ db', updateUserSettingsPartial (resolved id) args db = (Ok tt, db').
Proof.
  intros Henc. rewrite updateUserSettingsPartial_run.
  destruct (partialNewSettings_ok (getSettings db id) args Henc)
    as [newSettings ->].
  apply save_getSettings_ok.
Qed.

(** C8.  A partial update by a resolved caller completes whenever the
    collaborator's encryptions do, and once it has completed, every key
    its [customProviderUpdates] maps to [null] is absent from
    [customAIProviders] in the settings the caller reads next, and every
    key its [customModelUpdates] maps to [null] is absent from
    [customModels]. *)
Theorem partial_update_null_deletes `{K : KeyManagement}
    (id : string) (args : PartialUpdate.t) (db : Db) :
  (encryptionTotal K →
   ∃ db', updateUserSettingsPartial (resolved id) args db = (Ok tt, db'))
  ∧ (∀ db',
       updateUserSettingsPartial (resolved id) args db = (Ok tt, db') →
       getUserSettings (resolved id) db' = inr (getSettings db' id)
       ∧ (∀ updates key,
            PartialUpdate.customProviderUpdates args = Some updates →
            updates !! key = Some None →
            UserSettings.customAIProviders (getSettings db' id) !! key = None)
       ∧ (∀ updates key,
            PartialUpdate.customModelUpdates args = Some updates →
            updates !! key = Some None →
            UserSettings.customModels (getSettings db' id) !! key = None)).
Proof.
  split; [apply partial_update_completes|].
  rewrite updateUserSettingsPartial_run.
  - intros db'.
    destruct (partialNewSettings (getSettings db id) args)
      as [newSettings|] eqn:Hnew; [|done].
    intros Hsave.
    apply partialNewSettings_inv in Hnew as (Huser & _ & Hcustom & Hmodels).
    rewrite getSettings_userId in Huser.
    split; [done|].
    rewrite (save_getSettings _ _ _ _ Huser Hsave).
    pose proof (readBack_providers db id newSettings) as (_ & -> & ->).
    split.
    + intros updates key Hupdates Hkey. rewrite Hupdates in Hcustom.
      rewrite (forOf_ext _ _ _ _ partialCustom_keyed) in Hcustom.
      apply forOf_keyed_spec in Hcustom as [Hin _];
        [|apply NoDup_fst_map_to_list].
      apply elem_of_map_to_list in Hkey.
      by destruct (Hin _ _ Hkey) as (content & [= <-] & ->).
    + intros updates key Hupdates Hkey. rewrite Hmodels, Hupdates.
      pose proof (partialModel_keyed (map_to_list updates)
                    (UserSettings.customModels (getSettings db id))) as Hrun.
      apply forOf_keyed_spec in Hrun as [Hin _];
        [|apply NoDup_fst_map_to_list].
      apply elem_of_map_to_list in Hkey.
      by destruct (Hin _ _ Hkey) as (content & [= <-] & ->).
Qed.

(** On [Samples.aliceTable], which stores the custom provider [my-llm],
    the update [Samples.dropMyLlm] completes and the provider is gone. *)
Lemma partial_update_null_deletes_witness :
  is_Some (UserSettings.customAIProviders
             (getSettings Samples.aliceTable "alice") !! "my-llm")
  ∧ @updateUserSettingsPartial Samples.taggedKeys (resolved "alice")
      Samples.dropMyLlm Samples.aliceTable = (Ok tt, Samples.afterDropMyLlm)
  ∧ UserSettings.customAIProviders (getSettings Samples.afterDropMyLlm "alice")
      !! "my-llm" = None.
Proof.
  assert (@updateUserSettingsPartial Samples.taggedKeys (resolved "alice")
            Samples.dropMyLlm Samples.aliceTable
          = (Ok tt, Samples.afterDropMyLlm)) as Hrun
    by (vm_compute; reflexivity).
  split; [vm_compute; eauto|]. split; [exact Hrun|].
  exact (proj1 (proj2 (proj2 (@partial_update_null_deletes Samples.taggedKeys
                                "alice" Samples.dropMyLlm Samples.aliceTable)
                         Samples.afterDropMyLlm Hrun))
           {[ "my-llm" := None ]} "my-llm" eq_refl
           ltac:(vm_compute; reflexivity)).
Defined.

(** *** Themes *)

Lemma includes_elem themes url : includes themes url = true ↔ url ∈ themes.
Proof.
  unfold includes. rewrite existsb_exists. split.
  - intros (t & Hin & ->%String.eqb_eq). by apply list_elem_of_In.
  - intros Hin. exists url. split; [by apply list_elem_of_In|].
    apply String.eqb_refl.
Qed.

Lemma partialAddTheme_full addTheme (themes : list string) :
  (∀ url, addTheme = Some url → url ∈ themes ∨ (5 ≤ length themes)%nat) →
  partialAddTheme addTheme (Some themes) = Some themes.
Proof.
  intros Hfull. destruct addTheme as [[|c rest]|]; simpl; [done| |done].
  destruct (Hfull _ eq_refl) as [Hin%includes_elem|Hlen].
  - by rewrite Hin.
  - apply Nat.ltb_ge in Hlen. rewrite Hlen. by rewrite andb_false_r.
Qed.

Lemma readBack_customThemes db userId value themes :
  UserSettings.customThemes value = Some themes →
  UserSettings.customThemes (readBack db userId value) = Some themes.
Proof.
  intros Hthemes. unfold readBack.
  destruct (list_find _ db) as [[i d]|]; simpl; by rewrite Hthemes.
Qed.

(** C1, as the code has it.  Let the stored theme list of the caller hold
    the URL already, or hold five URLs or more.  Through the [addTheme]
    field of the partial update (no [removeTheme]) the theme list read
    afterwards is the stored one, whether the update completes or not,
    and it completes whenever the collaborator's encryptions do.  Through
    the dedicated mutation a URL already in the list returns without
    writing; a new URL on a list of five or more throws [Maximum number
    of themes reached] and writes nothing. *)
Theorem theme_cap_silent_in_partial_update_only `{K : KeyManagement}
    (id url : string) (themes : list string) (db : Db) :
  UserSettings.customThemes (getSettings db id) = Some themes →
  url ∈ themes ∨ (5 ≤ length themes)%nat →
  (∀ args,
     PartialUpdate.addTheme args = Some url →
     PartialUpdate.removeTheme args = None →
     (∀ outcome db',
        updateUserSettingsPartial (resolved id) args db = (outcome, db') →
        UserSettings.customThemes (getSettings db' id) = Some themes)
     ∧ (encryptionTotal K →
        ∃ db', updateUserSettingsPartial (resolved id) args db = (Ok tt, db')))
  ∧ (url ∈ themes → addUserTheme (resolved id) url db = (Ok tt, db))
  ∧ (url ∉ themes →
     addUserTheme (resolved id) url db
     = (Err (Error "Maximum number of themes reached"), db)).
Proof.
  intros Hstored Hfull. split; [|split].
  - intros args Hadd Hremove. split.
    + intros outcome db'. rewrite updateUserSettingsPartial_run.
      destruct (partialNewSettings (getSettings db id) args)
        as [newSettings|] eqn:Hnew; [|by intros [= _ <-]].
      intros Hsave.
      apply partialNewSettings_inv in Hnew as (Huser & Hthemes & _).
      rewrite getSettings_userId in Huser.
      destruct (save_getSettings_ok db id newSettings) as [db'' Hsave'].
      rewrite Hsave' in Hsave. injection Hsave as _ <-.
      rewrite (save_getSettings _ _ _ _ Huser Hsave').
      apply readBack_customThemes.
      rewrite Hthemes, Hremove, Hadd, Hstored.
      unfold partialRemoveTheme.
      apply partialAddTheme_full. by intros ? [= <-].
    + intros Henc. by apply (partial_update_completes id args db).
  - intros Hin%includes_elem. unfold addUserTheme, bind, readSettings.
    by rewrite Hstored; simpl; rewrite Hin.
  - intros Hout. destruct Hfull as [Hin|Hlen]; [done|].
    unfold addUserTheme, bind, readSettings. rewrite Hstored.
    cbn [from_option Datatypes.id].
    destruct (includes themes url) eqn:Hinc;
      [by apply includes_elem in Hinc|].
    apply Nat.leb_le in Hlen. by rewrite Hlen.
Qed.

(** [Samples.aliceTable] stores five themes for [alice]; the partial
    update that adds a sixth completes and the five are read back. *)
Lemma theme_cap_silent_in_partial_update_only_witness :
  UserSettings.customThemes (getSettings Samples.aliceTable "alice")
  = Some ["t1"; "t2"; "t3"; "t4"; "t5"]
  ∧ (5 ≤ length ["t1"; "t2"; "t3"; "t4"; "t5"])%nat
  ∧ @updateUserSettingsPartial Samples.taggedKeys (resolved "alice")
      (Samples.addTheme "t6") Samples.aliceTable
    = (Ok tt, Samples.afterAddSixthTheme)
  ∧ UserSettings.customThemes (getSettings Samples.afterAddSixthTheme "alice")
    = Some ["t1"; "t2"; "t3"; "t4"; "t5"].
Proof.
  assert (UserSettings.customThemes (getSettings Samples.aliceTable "alice")
          = Some ["t1"; "t2"; "t3"; "t4"; "t5"]) as Hstored
    by (vm_compute; reflexivity).
  assert (5 ≤ length ["t1"; "t2"; "t3"; "t4"; "t5"])%nat as Hlen
    by (simpl; lia).
  assert (@updateUserSettingsPartial Samples.taggedKeys (resolved "alice")
            (Samples.addTheme "t6") Samples.aliceTable
          = (Ok tt, Samples.afterAddSixthTheme)) as Hrun
    by (vm_compute; reflexivity).
  split; [exact Hstored|]. split; [exact Hlen|]. split; [exact Hrun|].
  exact (proj1 (proj1 (@theme_cap_silent_in_partial_update_only
                         Samples.taggedKeys "alice" "t6" _ Samples.aliceTable
                         Hstored (or_intror Hlen))
                  (Samples.addTheme "t6") eq_refl eq_refl)
           _ _ Hrun).
Defined.

(** C1, as stated, fails on the dedicated mutation: with the five themes
    that [Samples.aliceTable] stores for [alice], adding the sixth URL
    [t6] through [addUserTheme] throws instead of returning. *)
Lemma add_theme_mutation_throws_at_cap :
  addUserTheme (resolved "alice") "t6" Samples.aliceTable
  = (Err (Error "Maximum number of themes reached"), Samples.aliceTable)
  ∧ ¬ (∀ (db : Db) (id url : string) (themes : list string),
         UserSettings.customThemes (getSettings db id) = Some themes →
         length themes = 5%nat →
         addUserTheme (resolved id) url db = (Ok tt, db)).
Proof.
  assert (addUserTheme (resolved "alice") "t6" Samples.aliceTable
          = (Err (Error "Maximum number of themes reached"),
             Samples.aliceTable)) as Hrun by (vm_compute; reflexivity).
  split; [exact Hrun|].
  intros Hclaim.
  specialize (Hclaim Samples.aliceTable "alice" "t6"
                ["t1"; "t2"; "t3"; "t4"; "t5"]
                ltac:(vm_compute; reflexivity) eq_refl).
  rewrite Hrun in Hclaim. discriminate.
Qed.

(** A caller resolved to [mallory] asking to update [alice]. *)
Lemma mutations_reject_unauthorized_witness :
  "mallory" ≠ FullUpdate.userId Samples.keepOpenai
  ∧ @updateUserSettings Samples.taggedKeys (resolved "mallory")
      Samples.keepOpenai Samples.aliceTable
    = (Err unauthorized, Samples.aliceTable).
Proof.
  assert ("mallory" ≠ FullUpdate.userId Samples.keepOpenai) as Hne
    by (intros Heq; discriminate Heq).
  split; [exact Hne|].
  exact (proj1 (proj2 (@mutations_reject_unauthorized Samples.taggedKeys
                         Samples.keepOpenai Samples.dropMyLlm
                         Samples.aliceTable))
           "mallory" Hne).
Defined.

(** *** The provider factory *)

Lemma trimStart_nil s :
  trimStart s = [] ↔ Forall (λ c, isWhiteSpace c = true) s.
Proof.
  induction s as [|c rest IH]; simpl; [by split|].
  destruct (isWhiteSpace c) eqn:Hc.
  - rewrite IH. split; [by constructor|by intros [_ ?]%Forall_cons].
  - split; [done|]. intros [? _]%Forall_cons. congruence.
Qed.

Lemma trimStart_all_or_head s :
  trimStart s = [] ∨ ∃ c rest, trimStart s = c :: rest ∧ isWhiteSpace c = false.
Proof.
  induction s as [|c rest IH]; simpl; [by left|].
  destruct (isWhiteSpace c) eqn:Hc; [done|]. right. eauto.
Qed.

(** [apiKey.trim() === ""] says that the key is white space throughout. *)
Lemma trim_nil s : trim s = [] ↔ Forall (λ c, isWhiteSpace c = true) s.
Proof.
  unfold trim, trimEnd. rewrite <- trimStart_nil.
  destruct (trimStart_all_or_head s) as [->|(c & rest & -> & Hc)];
    [done|].
  split; [|done]. intros Hrev.
  apply (f_equal length) in Hrev. rewrite length_rev in Hrev.
  apply nil_length_inv, trimStart_nil in Hrev.
  apply Forall_rev in Hrev. rewrite rev_involutive in Hrev.
  apply Forall_cons in Hrev as [? _]. congruence.
Qed.

Lemma createProvider_guard apiKey :
  negb (codeUnitsEqb apiKey internal)
  && (codeUnitsEqb apiKey [] || codeUnitsEqb (trim apiKey) []) = true
  ↔ blankKey apiKey.
Proof.
  unfold blankKey, codeUnitsEqb.
  rewrite andb_true_iff, negb_true_iff, orb_true_iff, bool_decide_eq_false,
    !bool_decide_eq_true, trim_nil.
  split; intros [Hne Hblank]; (split; [done|]).
  - destruct Hblank as [->|?]; [constructor|done].
  - by right.
Qed.

(** C9, as the code has it.  The key check comes first.  For a provider
    id of the closed set, [createProvider] throws the configuration error
    exactly when the key is blank and not the sentinel, returns a client
    otherwise, and always returns one for the sentinel [internal]: for
    [anthropic] the client carries whatever [ANTHROPIC_API_KEY] holds,
    [undefined] included.  For any other provider id it throws the
    configuration error when the key is blank and not the sentinel, and
    the unknown-provider error otherwise. *)
Theorem createProvider_checks_key_first (env : Env) (providerId : string)
    (apiKey : CodeUnits) :
  (providerId ∈ FactoryProviders →
   (createProvider env providerId apiKey = Err configurationError
    ↔ blankKey apiKey)
   ∧ (¬ blankKey apiKey → isOk (createProvider env providerId apiKey) = true)
   ∧ isOk (createProvider env providerId internal) = true)
  ∧ createProvider env "anthropic" internal
    = Ok (Anthropic (env "ANTHROPIC_API_KEY"))
  ∧ (providerId ∉ FactoryProviders →
     (blankKey apiKey →
      createProvider env providerId apiKey = Err configurationError)
     ∧ (¬ blankKey apiKey →
        createProvider env providerId apiKey
        = Err (unknownProviderError providerId))).
Proof.
  assert (∀ key, blankKey key →
            createProvider env providerId key = Err configurationError)
    as Hblank.
  { intros key Hkey%createProvider_guard. unfold createProvider.
    by rewrite Hkey. }
  split; [|split; [reflexivity|]].
  - intros Hin.
    assert (∀ key, ¬ blankKey key →
              isOk (createProvider env providerId key) = true) as Hok.
    { intros key Hkey. unfold createProvider.
      destruct (negb _ && _) eqn:Hguard;
        [by apply createProvider_guard in Hguard|].
      unfold FactoryProviders, CoreProviders in Hin. simpl in Hin.
      repeat (apply elem_of_cons in Hin as [->|Hin]; [reflexivity|]).
      by apply elem_of_nil in Hin. }
    split; [|split].
    + split; [|apply Hblank].
      intros Herr.
      destruct (decide (negb (codeUnitsEqb apiKey internal)
                        && (codeUnitsEqb apiKey []
                            || codeUnitsEqb (trim apiKey) []) = true))
        as [Hguard|Hguard]; [by apply createProvider_guard|].
      assert (¬ blankKey apiKey) as Hnot
        by (by intros ?%createProvider_guard).
      apply Hok in Hnot. by rewrite Herr in Hnot.
    + apply Hok.
    + apply Hok. by intros [? _].
  - intros Hout. split; [apply Hblank|].
    intros Hkey. unfold createProvider.
    destruct (negb _ && _) eqn:Hguard;
      [by apply createProvider_guard in Hguard|].
    unfold FactoryProviders, CoreProviders in Hout. simpl in Hout.
    repeat (apply not_elem_of_cons in Hout as [Hne Hout];
            apply String.eqb_neq in Hne; rewrite Hne; clear Hne).
    done.
Qed.

(** [openai] belongs to the closed set; with the sentinel and an empty
    environment a client is returned. *)
Lemma createProvider_checks_key_first_witness :
  "openai" ∈ FactoryProviders
  ∧ isOk (createProvider Samples.noEnv "openai" internal) = true.
Proof.
  assert ("openai" ∈ FactoryProviders) as Hin by apply list_elem_of_here.
  split; [exact Hin|].
  exact (proj2 (proj2 (proj1 (createProvider_checks_key_first Samples.noEnv
                                "openai" internal) Hin))).
Defined.

(** C9, as stated, fails for a provider id outside the closed set that
    comes with an empty key: [createProvider("mistral", "")] throws the
    configuration error, not the unknown-provider one. *)
Lemma unknown_provider_with_blank_key_is_configuration_error :
  createProvider Samples.noEnv "mistral" [] = Err configurationError
  ∧ ("mistral" ∉ FactoryProviders)
  ∧ ¬ (∀ (env : Env) (providerId : string) (apiKey : CodeUnits),
         providerId ∉ FactoryProviders →
         createProvider env providerId apiKey
         = Err (unknownProviderError providerId)).
Proof.
  assert ("mistral" ∉ FactoryProviders) as Hout.
  { unfold FactoryProviders, CoreProviders. simpl.
    repeat (apply not_elem_of_cons; split; [done|]). apply not_elem_of_nil. }
  split; [reflexivity|]. split; [exact Hout|].
  intros Hclaim. specialize (Hclaim Samples.noEnv "mistral" [] Hout).
  discriminate Hclaim.
Qed.

(** ** Further properties of the handlers *)


(** *** Whose document a mutation writes *)

Section TableFrame.
Context {A : Type} (P : A → Prop) `{!∀ x, Decision (P x)}.

Lemma list_find_alter_other (f : A → A) i l :
  (∀ x, l !! i = Some x → ¬ P x ∧ ¬ P (f x)) →
  list_find P (alter f i l) = list_find P l.
Proof.
  revert i. induction l as [|x l IH]; intros i Hx; [done|].
  destruct i as [|i]; simpl.
  - destruct (Hx x eq_refl) as [H1 H2]. by rewrite !decide_False.
  - destruct (decide (P x)); [done|]. f_equal. apply IH. intros y Hy. by apply Hx.
Qed.

Lemma list_find_snoc_other x l :
  ¬ P x → list_find P (l ++ [x]) = list_find P l.
Proof.
  intros Hx. induction l as [|y l IH]; simpl.
  - by rewrite decide_False.
  - destruct (decide (P y)); [done|]. by rewrite IH.
Qed.

End TableFrame.

Lemma first_userId db userId settings :
  first db userId = Some settings → UserSettings.userId settings = userId.
Proof.
  unfold first. destruct (list_find _ db) as [[i d]|] eqn:Hfind; [|done].
  intros [= <-]. simpl. by apply list_find_Some in Hfind as (_ & ? & _).
Qed.

(** Saving over the settings read for [id] a value that keeps the user
    id does not change what any other user reads. *)
Lemma save_other db id other value db' :
  UserSettings.userId value = id → other ≠ id →
  save (getSettings db id) value db = (Ok tt, db') →
  first db' other = first db other.
Proof.
  intros Huser Hother. unfold save, getSettings, first at 1.
  destruct (list_find (λ d, UserSettings.userId d = id) db)
    as [[i d]|] eqn:Hfind; simpl.
  - apply list_find_Some in Hfind as (Hi & Hd & _).
    unfold patch. rewrite Hi. intros [= <-]. unfold first.
    rewrite list_find_alter_other; [done|].
    intros x Hx. rewrite Hi in Hx. injection Hx as <-. simpl.
    split; congruence.
  - unfold insert. intros [= <-]. unfold first.
    rewrite list_find_snoc_other; [done|]. simpl. congruence.
Qed.

(** The same save keeps the user ids of the table pairwise distinct, and
    adds a document only when the user had none. *)
Lemma save_one_document db id value db' :
  UserSettings.userId value = id →
  save (getSettings db id) value db = (Ok tt, db') →
  is_Some (first db' id)
  ∧ (NoDup (UserSettings.userId <$> db) → NoDup (UserSettings.userId <$> db'))
  ∧ length db'
    = match first db id with
      | Some _ => length db
      | None => S (length db)
      end.
Proof.
  intros Huser Hsave.
  split.
  { pose proof (save_getSettings _ _ _ _ Huser Hsave) as Hread.
    unfold getSettings, readBack in Hread. unfold first in *.
    destruct (list_find _ db') as [[j e]|]; [by eexists|].
    simpl in Hread.
    destruct (list_find _ db) as [[i d]|];
      apply (f_equal UserSettings._id) in Hread; simpl in Hread; done. }
  revert Hsave. unfold save, getSettings, first.
  destruct (list_find (λ d, UserSettings.userId d = id) db)
    as [[i d]|] eqn:Hfind; simpl.
  - apply list_find_Some in Hfind as (Hi & Hd & _).
    unfold patch. rewrite Hi. intros [= <-].
    split; [|by rewrite length_alter].
    assert (UserSettings.userId <$> alter (λ stored, patched stored value) i db
            = UserSettings.userId <$> db) as ->; [|done].
    apply list_eq. intros j. rewrite !list_lookup_fmap.
    destruct (decide (i = j)) as [<-|Hne].
    + rewrite list_lookup_alter_eq, Hi. simpl. congruence.
    + by rewrite list_lookup_alter_ne.
  - unfold insert. intros [= <-].
    split; [|rewrite length_app; simpl; lia].
    intros Hnd. rewrite fmap_app. simpl.
    apply NoDup_app. split; [done|]. split; [|apply NoDup_singleton].
    intros u Hu ->%list_elem_of_singleton.
    apply list_elem_of_fmap in Hu as (e & He & Hin).
    apply list_find_None in Hfind. rewrite Forall_forall in Hfind.
    apply (Hfind e Hin). by rewrite Huser in He.
Qed.

(** What the four mutations that act on the caller's own document do to
    the table: nothing, or one save over the caller's settings of a value
    that keeps the caller's id. *)
Lemma owner_mutation_outcome `{K : KeyManagement} (id url : string)
    (args : PartialUpdate.t) (m : Mutation unit) (db : Db) outcome db' :
  m = updateUserSettingsPartial (resolved id) args
  ∨ m = addUserTheme (resolved id) url
  ∨ m = deleteUserTheme (resolved id) url
  ∨ m = completeOnboarding (resolved id) →
  m db = (outcome, db') →
  (db' = db ∧ (outcome = Ok tt → is_Some (first db id)))
  ∨ (outcome = Ok tt
     ∧ ∃ value, UserSettings.userId value = id
                ∧ save (getSettings db id) value db = (Ok tt, db')).
Proof.
  intros [-> | [-> | [-> | ->]]].
  - rewrite updateUserSettingsPartial_run.
    destruct (partialNewSettings (getSettings db id) args)
      as [newSettings|] eqn:Hnew; [|intros [= <- <-]; by left].
    apply partialNewSettings_inv in Hnew as (Huser & _).
    rewrite getSettings_userId in Huser.
    destruct (save_getSettings_ok db id newSettings) as [db'' Hsave].
    rewrite Hsave. intros [= <- <-]. right. eauto.
  - unfold addUserTheme, bind, readSettings.
    destruct (includes _ url) eqn:Hinc.
    + intros [= <- <-]. left. split; [done|]. intros _.
      unfold getSettings in Hinc.
      destruct (first db id); [by eexists|done].
    + destruct (5 <=? _)%nat; [intros [= <- <-]; by left|].
      destruct (save_getSettings_ok db id
                  (withCustomThemes
                     (default [] (UserSettings.customThemes (getSettings db id))
                      ++ [url]) (getSettings db id))) as [db'' Hsave].
      rewrite Hsave. intros [= <- <-]. right. split; [done|].
      eexists. split; [|exact Hsave]. apply getSettings_userId.
  - unfold deleteUserTheme, bind, readSettings.
    destruct (save_getSettings_ok db id
                (withCustomThemes
                   (List.filter (λ t, negb (String.eqb t url))
                      (default [] (UserSettings.customThemes
                                     (getSettings db id))))
                   (getSettings db id))) as [db'' Hsave].
    rewrite Hsave. intros [= <- <-]. right. split; [done|].
    eexists. split; [|exact Hsave]. apply getSettings_userId.
  - unfold completeOnboarding, bind, readSettings.
    destruct (save_getSettings_ok db id
                (withOnboardingCompleted (getSettings db id)))
      as [db'' Hsave].
    rewrite Hsave. intros [= <- <-]. right. split; [done|].
    eexists. split; [|exact Hsave]. apply getSettings_userId.
Qed.

(** X1.  The partial update, the two theme mutations and
    [completeOnboarding], run by a resolved caller, leave the settings
    every other user reads as they were, whether they complete or
    throw. *)
Theorem owner_mutations_leave_other_users `{K : KeyManagement}
    (id other url : string) (args : PartialUpdate.t) (m : Mutation unit)
    (db db' : Db) (outcome : Result unit) :
  m = updateUserSettingsPartial (resolved id) args
  ∨ m = addUserTheme (resolved id) url
  ∨ m = deleteUserTheme (resolved id) url
  ∨ m = completeOnboarding (resolved id) →
  other ≠ id →
  m db = (outcome, db') →
  getSettings db' other = getSettings db other.
Proof.
  intros Hm Hother Hrun.
  destruct (owner_mutation_outcome id url args m db outcome db' Hm Hrun)
    as [[-> _]|(_ & value & Huser & Hsave)]; [done|].
  unfold getSettings. by rewrite (save_other _ _ _ _ _ Huser Hother Hsave).
Qed.

Lemma owner_mutations_leave_other_users_witness :
  "bob" ≠ "alice"
  ∧ deleteUserTheme (resolved "alice") "t1" Samples.twoUsers
    = (Ok tt, Samples.afterDeleteT1)
  ∧ getSettings Samples.afterDeleteT1 "bob"
    = getSettings Samples.twoUsers "bob".
Proof.
  assert ("bob" ≠ "alice") as Hother by discriminate.
  assert (deleteUserTheme (resolved "alice") "t1" Samples.twoUsers
          = (Ok tt, Samples.afterDeleteT1)) as Hrun
    by (vm_compute; reflexivity).
  split; [exact Hother|]. split; [exact Hrun|].
  exact (@owner_mutations_leave_other_users Samples.taggedKeys
           "alice" "bob" "t1" (Samples.addTheme "t1")
           (deleteUserTheme (resolved "alice") "t1")
           Samples.twoUsers Samples.afterDeleteT1 (Ok tt)
           (or_intror (or_intror (or_introl eq_refl))) Hother Hrun).
Defined.

(** X2.  On a table with at most one document per user, each of these
    mutations keeps it so; it adds one document when it completes for a
    caller who had none and none otherwise, and once it has completed the
    caller has a document. *)
Theorem owner_mutations_keep_one_document_per_user `{K : KeyManagement}
    (id url : string) (args : PartialUpdate.t) (m : Mutation unit)
    (db db' : Db) (outcome : Result unit) :
  m = updateUserSettingsPartial (resolved id) args
  ∨ m = addUserTheme (resolved id) url
  ∨ m = deleteUserTheme (resolved id) url
  ∨ m = completeOnboarding (resolved id) →
  NoDup (UserSettings.userId <$> db) →
  m db = (outcome, db') →
  NoDup (UserSettings.userId <$> db')
  ∧ (outcome = Ok tt → is_Some (first db' id))
  ∧ length db'
    = match first db id with
      | Some _ => length db
      | None => if isOk outcome then S (length db) else length db
      end.
Proof.
  intros Hm Hnd Hrun.
  destruct (owner_mutation_outcome id url args m db outcome db' Hm Hrun)
    as [[-> Hdoc]|(-> & value & Huser & Hsave)].
  - split; [done|]. split; [done|].
    destruct (first db id) eqn:Hfirst; [done|].
    destruct outcome as [[]|]; [|done].
    by destruct (Hdoc eq_refl).
  - destruct (save_one_document _ _ _ _ Huser Hsave) as (Hsome & Hkeep & Hlen).
    split; [auto|]. split; [done|].
    rewrite Hlen. by destruct (first db id).
Qed.

Lemma owner_mutations_keep_one_document_per_user_witness :
  NoDup (UserSettings.userId <$> Samples.twoUsers)
  ∧ addUserTheme (resolved "alice") "t2" Samples.twoUsers
    = (Ok tt, Samples.afterAddT2)
  ∧ NoDup (UserSettings.userId <$> Samples.afterAddT2)
  ∧ length Samples.afterAddT2 = 2%nat.
Proof.
  assert (NoDup (UserSettings.userId <$> Samples.twoUsers)) as Hunique
    by (apply (bool_decide_unpack _); vm_compute; exact I).
  assert (addUserTheme (resolved "alice") "t2" Samples.twoUsers
          = (Ok tt, Samples.afterAddT2)) as Hrun
    by (vm_compute; reflexivity).
  split; [exact Hunique|]. split; [exact Hrun|].
  destruct (@owner_mutations_keep_one_document_per_user Samples.taggedKeys
              "alice" "t2" (Samples.addTheme "t2")
              (addUserTheme (resolved "alice") "t2")
              Samples.twoUsers Samples.afterAddT2 (Ok tt)
              (or_intror (or_introl eq_refl)) Hunique Hrun)
    as (Hunique' & _ & Hlength).
  split; [exact Hunique'|exact Hlength].
Defined.


(** *** Per-key upserts of the partial update *)

Lemma readBack_generalProviders db userId value general :
  UserSettings.generalProviders value = Some general →
  UserSettings.generalProviders (readBack db userId value) = Some general.
Proof.
  intros Hg. unfold readBack.
  destruct (list_find _ db) as [[i d]|]; simpl; by rewrite Hg.
Qed.

Section PartialUpsertFacts.
Context `{K : KeyManagement}.

Lemma partialCore_keyed acc entry :
  partialCore acc entry = keyed partialCoreStep acc entry.
Proof.
  destruct entry as [k u]. unfold partialCore, keyed, partialCoreStep; simpl.
  unfold previousCoreKey. by destruct (encryptOr _ _).
Qed.

Lemma partialGeneral_keyed shared acc entry :
  partialGeneral shared acc entry = keyed (partialGeneralStep shared) acc entry.
Proof.
  destruct entry as [k u].
  unfold partialGeneral, keyed, partialGeneralStep; simpl.
  by destruct (encryptOr _ _).
Qed.

(** The three provider loops of a partial update that computed its
    document. *)
Lemma partialNewSettings_loops settings args newSettings :
  partialNewSettings settings args = Ok newSettings →
  match PartialUpdate.coreProviderUpdates args with
  | Some updates =>
      forOf partialCore (map_to_list updates)
        (UserSettings.coreAIProviders settings)
  | None => Ok (UserSettings.coreAIProviders settings)
  end = Ok (UserSettings.coreAIProviders newSettings)
  ∧ match PartialUpdate.generalProviderUpdates args with
    | Some updates =>
        match UserSettings.generalProviders settings with
        | Some stored =>
            let? general :=
              forOf (partialGeneral true) (map_to_list updates) stored in
            Ok (Some general)
        | None =>
            let? general :=
              forOf (partialGeneral false) (map_to_list updates) ∅ in
            Ok (Some general)
        end
    | None => Ok (UserSettings.generalProviders settings)
    end = Ok (UserSettings.generalProviders newSettings)
  ∧ UserSettings.onboardingCompleted newSettings
    = UserSettings.onboardingCompleted settings.
Proof.
  unfold partialNewSettings.
  destruct (match PartialUpdate.coreProviderUpdates args with
            | Some _ => _ | None => _ end) as [core|]; simpl; [|done].
  destruct (match PartialUpdate.customProviderUpdates args with
            | Some _ => _ | None => _ end) as [custom|]; simpl; [|done].
  destruct (match PartialUpdate.generalProviderUpdates args with
            | Some _ => _ | None => _ end) as [general|]; simpl; [|done].
  by intros [= <-].
Qed.

(** The entry the general loop of a partial update computes for a
    listed provider: each key is visited once, so the entry the loop
    reads as existing is the stored one. *)
Lemma partialNewSettings_general settings args newSettings updates key update :
  partialNewSettings settings args = Ok newSettings →
  PartialUpdate.generalProviderUpdates args = Some updates →
  updates !! key = Some update →
  ∃ general encryptedKey,
    UserSettings.generalProviders newSettings = Some general
    ∧ general !! key = Some (generalEntry key update encryptedKey)
    ∧ encryptOr (GeneralUpdate.newKey update)
        (Ok (previousGeneralKey (generalProvider settings key)))
      = Ok encryptedKey.
Proof.
  intros Hnew Hupdates Hkey%elem_of_map_to_list.
  pose proof (partialNewSettings_loops _ _ _ Hnew) as (_ & Hgeneral & _).
  rewrite Hupdates in Hgeneral. unfold generalProvider.
  destruct (UserSettings.generalProviders settings) as [stored|].
  - destruct (forOf (partialGeneral true) _ stored) as [general|] eqn:Hloop;
      simpl in Hgeneral; [|done].
    injection Hgeneral as Hg. exists general.
    rewrite (forOf_ext _ _ _ _ (partialGeneral_keyed true)) in Hloop.
    apply forOf_keyed_spec in Hloop as [Hin _];
      [|apply NoDup_fst_map_to_list].
    destruct (Hin _ _ Hkey) as (content & Hstep & ->).
    unfold partialGeneralStep in Hstep.
    destruct (encryptOr _ _) as [encryptedKey|] eqn:Henc;
      simpl in Hstep; [|done].
    injection Hstep as <-. by exists encryptedKey.
  - destruct (forOf (partialGeneral false) _ ∅) as [general|] eqn:Hloop;
      simpl in Hgeneral; [|done].
    injection Hgeneral as Hg. exists general.
    rewrite (forOf_ext _ _ _ _ (partialGeneral_keyed false)) in Hloop.
    apply forOf_keyed_spec in Hloop as [Hin _];
      [|apply NoDup_fst_map_to_list].
    destruct (Hin _ _ Hkey) as (content & Hstep & ->).
    unfold partialGeneralStep in Hstep.
    destruct (encryptOr _ _) as [encryptedKey|] eqn:Henc;
      simpl in Hstep; [|done].
    injection Hstep as <-. by exists encryptedKey.
Qed.

(** A completed partial update, and the document the caller reads
    next. *)
Lemma partial_update_readBack id args db db' :
  updateUserSettingsPartial (resolved id) args db = (Ok tt, db') →
  ∃ newSettings,
    partialNewSettings (getSettings db id) args = Ok newSettings
    ∧ getSettings db' id = readBack db id newSettings.
Proof.
  rewrite updateUserSettingsPartial_run.
  destruct (partialNewSettings (getSettings db id) args)
    as [newSettings|] eqn:Hnew; [|done].
  intros Hsave. exists newSettings. split; [done|].
  apply partialNewSettings_inv in Hnew as (Huser & _).
  rewrite getSettings_userId in Huser.
  by apply save_getSettings.
Qed.

End PartialUpsertFacts.

(** X3.  A completed partial update leaves every core provider, custom
    provider and custom model whose key its update maps do not mention
    exactly as stored. *)
Theorem partial_update_keeps_unlisted_entries `{K : KeyManagement}
    (id : string) (args : PartialUpdate.t) (db db' : Db) :
  updateUserSettingsPartial (resolved id) args db = (Ok tt, db') →
  (∀ key,
     default ∅ (PartialUpdate.coreProviderUpdates args) !! key = None →
     UserSettings.coreAIProviders (getSettings db' id) !! key
     = UserSettings.coreAIProviders (getSettings db id) !! key)
  ∧ (∀ key,
       default ∅ (PartialUpdate.customProviderUpdates args) !! key = None →
       UserSettings.customAIProviders (getSettings db' id) !! key
       = UserSettings.customAIProviders (getSettings db id) !! key)
  ∧ (∀ key,
       default ∅ (PartialUpdate.customModelUpdates args) !! key = None →
       UserSettings.customModels (getSettings db' id) !! key
       = UserSettings.customModels (getSettings db id) !! key).
Proof.
  intros (newSettings & Hnew & ->)%partial_update_readBack.
  pose proof (readBack_providers db id newSettings) as (-> & -> & ->).
  pose proof (partialNewSettings_loops _ _ _ Hnew) as (Hcore & _).
  apply partialNewSettings_inv in Hnew as (_ & _ & Hcustom & Hmodels).
  assert (∀ {V} (m : gmap string V) key,
            m !! key = None → key ∉ (map_to_list m).*1) as Hout.
  { intros V m key Hkey
      ([k v] & -> & Hin%elem_of_map_to_list)%list_elem_of_fmap.
    simpl in Hkey. congruence. }
  split; [|split]; intros key Hkey.
  - destruct (PartialUpdate.coreProviderUpdates args) as [updates|];
      simpl in Hkey; [|by injection Hcore as <-].
    rewrite (forOf_ext _ _ _ _ partialCore_keyed) in Hcore.
    apply forOf_keyed_spec in Hcore as [_ Hrest];
      [|apply NoDup_fst_map_to_list].
    by apply Hrest, Hout.
  - destruct (PartialUpdate.customProviderUpdates args) as [updates|];
      simpl in Hkey; [|by injection Hcustom as <-].
    rewrite (forOf_ext _ _ _ _ partialCustom_keyed) in Hcustom.
    apply forOf_keyed_spec in Hcustom as [_ Hrest];
      [|apply NoDup_fst_map_to_list].
    by apply Hrest, Hout.
  - rewrite Hmodels.
    destruct (PartialUpdate.customModelUpdates args) as [updates|];
      simpl in Hkey; [|done].
    pose proof (partialModel_keyed (map_to_list updates)
                  (UserSettings.customModels (getSettings db id))) as Hrun.
    apply forOf_keyed_spec in Hrun as [_ Hrest];
      [|apply NoDup_fst_map_to_list].
    by apply Hrest, Hout.
Qed.

Lemma partial_update_keeps_unlisted_entries_witness :
  @updateUserSettingsPartial Samples.taggedKeys (resolved "alice")
    Samples.dropMyLlm Samples.aliceTable = (Ok tt, Samples.afterDropMyLlm)
  ∧ UserSettings.customModels (getSettings Samples.afterDropMyLlm "alice")
      !! "gpt-4o"
    = UserSettings.customModels (getSettings Samples.aliceTable "alice")
        !! "gpt-4o".
Proof.
  assert (@updateUserSettingsPartial Samples.taggedKeys (resolved "alice")
            Samples.dropMyLlm Samples.aliceTable
          = (Ok tt, Samples.afterDropMyLlm)) as Hrun
    by (vm_compute; reflexivity).
  split; [exact Hrun|].
  exact (proj2 (proj2 (@partial_update_keeps_unlisted_entries
                         Samples.taggedKeys "alice" Samples.dropMyLlm
                         Samples.aliceTable Samples.afterDropMyLlm Hrun))
           "gpt-4o" ltac:(vm_compute; reflexivity)).
Defined.

(** X4.  A completed partial update stores, for every entry of its four
    update maps (core, custom and general providers, custom models), the
    fields of the request; the encrypted key is the collaborator's
    encryption of a non-empty [newKey], and otherwise the key stored
    under that id before, or the empty string when there was none:
    unlike the full update, a keyless entry for an unknown custom
    provider is accepted.  A general provider gets the entry built for
    its id, with the optional fields of the request and no others.  A
    custom model is stored as sent. *)
Theorem partial_update_upserts_listed_entries `{K : KeyManagement}
    (id : string) (args : PartialUpdate.t) (db db' : Db) :
  updateUserSettingsPartial (resolved id) args db = (Ok tt, db') →
  (∀ updates key update,
     PartialUpdate.coreProviderUpdates args = Some updates →
     updates !! key = Some update →
     ∃ encryptedKey,
       UserSettings.coreAIProviders (getSettings db' id) !! key
       = Some (CoreAIProvider.make (CoreUpdate.enabled update) encryptedKey)
       ∧ encryptOr (CoreUpdate.newKey update)
           (Ok (orEmpty (CoreAIProvider.encryptedKey
                           <$> UserSettings.coreAIProviders (getSettings db id)
                               !! key)))
         = Ok encryptedKey)
  ∧ (∀ updates key update,
       PartialUpdate.customProviderUpdates args = Some updates →
       updates !! key = Some (Some update) →
       ∃ encryptedKey,
         UserSettings.customAIProviders (getSettings db' id) !! key
         = Some (CustomAIProvider.make (CustomUpdate.name update)
                   (CustomUpdate.enabled update)
                   (CustomUpdate.endpoint update) (Some encryptedKey))
         ∧ encryptOr (CustomUpdate.newKey update)
             (Ok (orEmpty (UserSettings.customAIProviders (getSettings db id)
                             !! key ≫= CustomAIProvider.encryptedKey)))
           = Ok encryptedKey)
  ∧ (∀ updates key model,
       PartialUpdate.customModelUpdates args = Some updates →
       updates !! key = Some (Some model) →
       UserSettings.customModels (getSettings db' id) !! key = Some model)
  ∧ (∀ updates key update,
       PartialUpdate.generalProviderUpdates args = Some updates →
       updates !! key = Some update →
       ∃ encryptedKey,
         generalProvider (getSettings db' id) key
         = Some (generalEntry key update encryptedKey)
         ∧ encryptOr (GeneralUpdate.newKey update)
             (Ok (previousGeneralKey
                    (generalProvider (getSettings db id) key)))
           = Ok encryptedKey).
Proof.
  intros (newSettings & Hnew & Hread)%partial_update_readBack.
  assert (∀ updates key update,
            PartialUpdate.generalProviderUpdates args = Some updates →
            updates !! key = Some update →
            ∃ encryptedKey,
              generalProvider (getSettings db' id) key
              = Some (generalEntry key update encryptedKey)
              ∧ encryptOr (GeneralUpdate.newKey update)
                  (Ok (previousGeneralKey
                         (generalProvider (getSettings db id) key)))
                = Ok encryptedKey) as Hgeneral.
  { intros updates key update Hupdates Hkey.
    destruct (partialNewSettings_general _ _ _ _ _ _ Hnew Hupdates Hkey)
      as (general & encryptedKey & Hg & Hentry & Henc).
    exists encryptedKey. split; [|done]. unfold generalProvider at 1.
    by rewrite Hread, (readBack_generalProviders _ _ _ _ Hg). }
  rewrite Hread in Hgeneral |- *. clear Hread.
  pose proof (readBack_providers db id newSettings) as (-> & -> & ->).
  pose proof (partialNewSettings_loops _ _ _ Hnew) as (Hcore & _).
  apply partialNewSettings_inv in Hnew as (_ & _ & Hcustom & Hmodels).
  split; [|split; [|split; [|exact Hgeneral]]].
  - intros updates key update Hupdates Hkey%elem_of_map_to_list.
    rewrite Hupdates in Hcore.
    rewrite (forOf_ext _ _ _ _ partialCore_keyed) in Hcore.
    apply forOf_keyed_spec in Hcore as [Hin _];
      [|apply NoDup_fst_map_to_list].
    destruct (Hin _ _ Hkey) as (content & Hstep & ->).
    unfold partialCoreStep in Hstep.
    destruct (encryptOr _ _) as [encryptedKey|]; simpl in Hstep; [|done].
    injection Hstep as <-. eauto.
  - intros updates key update Hupdates Hkey%elem_of_map_to_list.
    rewrite Hupdates in Hcustom.
    rewrite (forOf_ext _ _ _ _ partialCustom_keyed) in Hcustom.
    apply forOf_keyed_spec in Hcustom as [Hin _];
      [|apply NoDup_fst_map_to_list].
    destruct (Hin _ _ Hkey) as (content & Hstep & ->).
    unfold partialCustomStep in Hstep.
    destruct (encryptOr _ _) as [encryptedKey|]; simpl in Hstep; [|done].
    injection Hstep as <-. eauto.
  - intros updates key model Hupdates Hkey%elem_of_map_to_list.
    rewrite Hmodels, Hupdates.
    pose proof (partialModel_keyed (map_to_list updates)
                  (UserSettings.customModels (getSettings db id))) as Hrun.
    apply forOf_keyed_spec in Hrun as [Hin _];
      [|apply NoDup_fst_map_to_list].
    by destruct (Hin _ _ Hkey) as (content & [= <-] & ->).
Qed.

Lemma partial_update_upserts_listed_entries_witness :
  @updateUserSettingsPartial Samples.taggedKeys (resolved "alice")
    Samples.enableOpenai Samples.aliceTable
  = (Ok tt, Samples.afterEnableOpenai)
  ∧ ∃ encryptedKey,
      UserSettings.coreAIProviders (getSettings Samples.afterEnableOpenai "alice")
        !! "openai"
      = Some (CoreAIProvider.make true encryptedKey).
Proof.
  assert (@updateUserSettingsPartial Samples.taggedKeys (resolved "alice")
            Samples.enableOpenai Samples.aliceTable
          = (Ok tt, Samples.afterEnableOpenai)) as Hrun
    by (vm_compute; reflexivity).
  split; [exact Hrun|].
  destruct (proj1 (@partial_update_upserts_listed_entries
                     Samples.taggedKeys "alice" Samples.enableOpenai
                     Samples.aliceTable Samples.afterEnableOpenai Hrun)
              {[ "openai" := CoreUpdate.make true None ]} "openai"
              (CoreUpdate.make true None) eq_refl
              ltac:(vm_compute; reflexivity))
    as (encryptedKey & Hstored & _).
  exists encryptedKey. exact Hstored.
Defined.


(** *** Wholesale replacement in the full update *)

Section FullReplaceFacts.
Context `{K : KeyManagement}.

Lemma fullGeneral_keyed settings acc entry :
  fullGeneral settings acc entry = keyed (fullGeneralStep settings) acc entry.
Proof.
  destruct entry as [k u]. unfold fullGeneral, keyed, fullGeneralStep; simpl.
  by destruct (encryptOr _ _).
Qed.

Lemma carriedGeneralProviders_lookup settings key :
  carriedGeneralProviders settings !! key
  = if bool_decide (key ∈ generalProviderIds)
    then generalProvider settings key else None.
Proof.
  unfold carriedGeneralProviders. fold generalProviderIds.
  induction generalProviderIds as [|k ks IH]; simpl; [done|].
  destruct (decide (key = k)) as [->|Hne].
  - rewrite bool_decide_eq_true_2 by left.
    destruct (generalProvider settings k) as [p|] eqn:Hp.
    + by rewrite lookup_insert_eq.
    + rewrite IH. by destruct (bool_decide _).
  - assert (bool_decide (key ∈ k :: ks) = bool_decide (key ∈ ks)) as ->.
    { apply bool_decide_ext. rewrite elem_of_cons.
      split; [by intros [?|?]|by right]. }
    destruct (generalProvider settings k); [|done].
    by rewrite lookup_insert_ne.
Qed.

(** The general-provider record a full update computes. *)
Lemma fullNewSettings_general settings args newSettings :
  fullNewSettings settings args = Ok newSettings →
  ∃ looped general,
    match FullUpdate.generalProviders args with
    | Some updates =>
        forOf (fullGeneral settings) (map_to_list updates)
          (carriedGeneralProviders settings)
    | None => Ok (carriedGeneralProviders settings)
    end = Ok looped
    ∧ match FullUpdate.supermemory args with
      | Some supermemory =>
          let? encryptedKey :=
            encryptOr (CoreUpdate.newKey supermemory)
              (Ok (previousGeneralKey (generalProvider settings "supermemory")))
          in
          Ok (<["supermemory" :=
                  GeneralProvider.make (CoreUpdate.enabled supermemory)
                    encryptedKey None None None None]> looped)
      | None => Ok looped
      end = Ok general
    ∧ UserSettings.generalProviders newSettings = Some general
    ∧ UserSettings.customModels newSettings
      = BaseSettings.customModels (FullUpdate.baseSettings args).
Proof.
  unfold fullNewSettings.
  destruct (forOf (fullCore _) _ ∅) as [core|]; simpl; [|done].
  destruct (forOf (fullCustom _) _ ∅) as [custom|]; simpl; [|done].
  destruct (match FullUpdate.generalProviders args with
            | Some _ => _ | None => _ end) as [looped|]; simpl; [|done].
  destruct (match FullUpdate.supermemory args with
            | Some _ => _ | None => _ end) as [general|] eqn:Hsuper;
    simpl; [|done].
  intros [= <-]. by exists looped, general.
Qed.

End FullReplaceFacts.

(** X5.  A completed full update whose base settings keep the user id
    replaces the provider records wholesale: the core and custom
    providers read afterwards are those the request lists and no others,
    so a stored provider the request omits is gone; the custom models are
    those of the base settings. *)
Theorem full_update_replaces_provider_records `{K : KeyManagement}
    (auth : UserIdentity) (args : FullUpdate.t) (db db' : Db) :
  updateUserSettings auth args db = (Ok tt, db') →
  BaseSettings.userId (FullUpdate.baseSettings args) = FullUpdate.userId args →
  (∀ key,
     is_Some (UserSettings.coreAIProviders
                (getSettings db' (FullUpdate.userId args)) !! key)
     ↔ is_Some (FullUpdate.coreProviders args !! key))
  ∧ (∀ key,
       is_Some (UserSettings.customAIProviders
                  (getSettings db' (FullUpdate.userId args)) !! key)
       ↔ is_Some (FullUpdate.customProviders args !! key))
  ∧ UserSettings.customModels (getSettings db' (FullUpdate.userId args))
    = BaseSettings.customModels (FullUpdate.baseSettings args).
Proof.
  intros Hrun Hbase.
  apply updateUserSettings_ok in Hrun
    as (_ & core & custom & newSettings & Hcore & Hcustom & Hnew & <- & <-
        & Huser & Hsave).
  rewrite (save_getSettings _ _ _ _ (eq_trans Huser Hbase) Hsave).
  pose proof (readBack_providers db (FullUpdate.userId args) newSettings)
    as (-> & -> & ->).
  apply fullNewSettings_general in Hnew as (_ & _ & _ & _ & _ & Hmodels).
  rewrite (forOf_ext _ _ _ _ (fullCore_keyed _)) in Hcore.
  rewrite (forOf_ext _ _ _ _ (fullCustom_keyed _)) in Hcustom.
  apply forOf_keyed_spec in Hcore as [Hcore Hcore'];
    [|apply NoDup_fst_map_to_list].
  apply forOf_keyed_spec in Hcustom as [Hcustom Hcustom'];
    [|apply NoDup_fst_map_to_list].
  split; [|split; [|done]]; intros key.
  - destruct (FullUpdate.coreProviders args !! key) as [update|] eqn:Hkey.
    + apply elem_of_map_to_list in Hkey.
      destruct (Hcore _ _ Hkey) as (content & Hstep & ->).
      unfold fullCoreStep in Hstep.
      destruct (encryptOr _ _); simpl in Hstep; [|done].
      injection Hstep as <-. split; by eexists.
    + rewrite Hcore', lookup_empty; [done|].
      intros ([k v] & -> & Hin%elem_of_map_to_list)%list_elem_of_fmap.
      simpl in Hkey. congruence.
  - destruct (FullUpdate.customProviders args !! key) as [update|] eqn:Hkey.
    + apply elem_of_map_to_list in Hkey.
      destruct (Hcustom _ _ Hkey) as (content & Hstep & ->).
      unfold fullCustomStep in Hstep.
      destruct (encryptOrStored _ _); simpl in Hstep; [|done].
      injection Hstep as <-. split; by eexists.
    + rewrite Hcustom', lookup_empty; [done|].
      intros ([k v] & -> & Hin%elem_of_map_to_list)%list_elem_of_fmap.
      simpl in Hkey. congruence.
Qed.

Lemma full_update_replaces_provider_records_witness :
  @updateUserSettings Samples.taggedKeys (resolved "alice") Samples.keepOpenai
    Samples.aliceTable = (Ok tt, Samples.afterKeepOpenai)
  ∧ BaseSettings.userId (FullUpdate.baseSettings Samples.keepOpenai)
    = FullUpdate.userId Samples.keepOpenai
  ∧ (is_Some (UserSettings.coreAIProviders
                (getSettings Samples.afterKeepOpenai "alice") !! "google")
     ↔ is_Some (FullUpdate.coreProviders Samples.keepOpenai !! "google")).
Proof.
  assert (@updateUserSettings Samples.taggedKeys (resolved "alice")
            Samples.keepOpenai Samples.aliceTable
          = (Ok tt, Samples.afterKeepOpenai)) as Hrun
    by (vm_compute; reflexivity).
  split; [exact Hrun|]. split; [reflexivity|].
  exact (proj1 (@full_update_replaces_provider_records Samples.taggedKeys
                  (resolved "alice") Samples.keepOpenai Samples.aliceTable
                  Samples.afterKeepOpenai Hrun eq_refl) "google").
Defined.

(** X6.  The general providers a completed full update leaves (base
    settings keeping the user id): the legacy [supermemory] argument,
    when present, decides the [supermemory] entry whatever
    [generalProviders] says, its flag and its key (the encryption of its
    own [newKey], or else the key stored before the update, or the empty
    string); any other provider the request lists gets the entry built
    from the request, its optional fields replaced rather than merged; a
    provider the request does not list keeps its stored entry when it is
    one of the five known ones and is dropped otherwise. *)
Theorem full_update_general_providers `{K : KeyManagement}
    (auth : UserIdentity) (args : FullUpdate.t) (db db' : Db) :
  updateUserSettings auth args db = (Ok tt, db') →
  BaseSettings.userId (FullUpdate.baseSettings args) = FullUpdate.userId args →
  ∃ general,
    UserSettings.generalProviders (getSettings db' (FullUpdate.userId args))
    = Some general
    ∧ (∀ supermemory,
         FullUpdate.supermemory args = Some supermemory →
         ∃ encryptedKey,
           general !! "supermemory"
           = Some (GeneralProvider.make (CoreUpdate.enabled supermemory)
                     encryptedKey None None None None)
           ∧ encryptOr (CoreUpdate.newKey supermemory)
               (Ok (previousGeneralKey
                      (generalProvider
                         (getSettings db (FullUpdate.userId args))
                         "supermemory")))
             = Ok encryptedKey)
    ∧ (∀ key,
         key ≠ "supermemory" ∨ FullUpdate.supermemory args = None →
         match default ∅ (FullUpdate.generalProviders args) !! key with
         | Some data =>
             ∃ encryptedKey,
               general !! key = Some (generalEntry key data encryptedKey)
               ∧ encryptOr (GeneralUpdate.newKey data)
                   (Ok (previousGeneralKey
                          (generalProvider
                             (getSettings db (FullUpdate.userId args)) key)))
                 = Ok encryptedKey
         | None =>
             general !! key
             = if bool_decide (key ∈ generalProviderIds)
               then generalProvider
                      (getSettings db (FullUpdate.userId args)) key
               else None
         end).
Proof.
  intros Hrun Hbase.
  apply updateUserSettings_ok in Hrun
    as (_ & core & custom & newSettings & _ & _ & Hnew & _ & _
        & Huser & Hsave).
  rewrite (save_getSettings _ _ _ _ (eq_trans Huser Hbase) Hsave).
  apply fullNewSettings_general in Hnew
    as (looped & general & Hloop & Hsuper & Hgeneral & _).
  exists general.
  split; [by apply readBack_generalProviders|].
  assert (∀ key,
            match default ∅ (FullUpdate.generalProviders args) !! key with
            | Some data =>
                ∃ encryptedKey,
                  looped !! key = Some (generalEntry key data encryptedKey)
                  ∧ encryptOr (GeneralUpdate.newKey data)
                      (Ok (previousGeneralKey
                             (generalProvider
                                (getSettings db (FullUpdate.userId args)) key)))
                    = Ok encryptedKey
            | None =>
                looped !! key
                = if bool_decide (key ∈ generalProviderIds)
                  then generalProvider
                         (getSettings db (FullUpdate.userId args)) key
                  else None
            end) as Hlooped.
  { intros key.
    destruct (FullUpdate.generalProviders args) as [updates|]; simpl.
    - rewrite (forOf_ext _ _ _ _ (fullGeneral_keyed _)) in Hloop.
      apply forOf_keyed_spec in Hloop as [Hin Hrest];
        [|apply NoDup_fst_map_to_list].
      destruct (updates !! key) as [data|] eqn:Hkey.
      + apply elem_of_map_to_list in Hkey.
        destruct (Hin _ _ Hkey) as (content & Hstep & ->).
        unfold fullGeneralStep in Hstep.
        destruct (encryptOr _ _) as [encryptedKey|]; simpl in Hstep; [|done].
        injection Hstep as <-. eauto.
      + rewrite Hrest; [apply carriedGeneralProviders_lookup|].
        intros ([k v] & -> & Hin'%elem_of_map_to_list)%list_elem_of_fmap.
        simpl in Hkey. congruence.
    - rewrite lookup_empty. injection Hloop as <-.
      apply carriedGeneralProviders_lookup. }
  split.
  - intros supermemory Hs. rewrite Hs in Hsuper.
    destruct (encryptOr (CoreUpdate.newKey supermemory) _)
      as [encryptedKey|] eqn:Hkey; simpl in Hsuper; [|done].
    injection Hsuper as <-. exists encryptedKey.
    split; [apply lookup_insert_eq|done].
  - intros key Hkey. specialize (Hlooped key).
    destruct (FullUpdate.supermemory args) as [supermemory|].
    + destruct Hkey as [Hne|?]; [|done].
      destruct (encryptOr (CoreUpdate.newKey supermemory) _)
        as [encryptedKey|]; simpl in Hsuper; [|done].
      injection Hsuper as <-.
      by rewrite lookup_insert_ne.
    + by injection Hsuper as <-.
Qed.

(** On [Samples.aliceTable], which stores no memory integration,
    [Samples.legacyMemory] leaves [supermemory] switched on with an empty
    key: the legacy argument wins over the [generalProviders] entry and
    its new key. *)
Lemma full_update_general_providers_witness :
  @updateUserSettings Samples.taggedKeys (resolved "alice")
    Samples.legacyMemory Samples.aliceTable
  = (Ok tt, Samples.afterLegacyMemory)
  ∧ BaseSettings.userId (FullUpdate.baseSettings Samples.legacyMemory)
    = FullUpdate.userId Samples.legacyMemory
  ∧ ∃ general,
      UserSettings.generalProviders
        (getSettings Samples.afterLegacyMemory "alice") = Some general
      ∧ general !! "supermemory"
        = Some (GeneralProvider.make true "" None None None None).
Proof.
  assert (@updateUserSettings Samples.taggedKeys (resolved "alice")
            Samples.legacyMemory Samples.aliceTable
          = (Ok tt, Samples.afterLegacyMemory)) as Hrun
    by (vm_compute; reflexivity).
  split; [exact Hrun|]. split; [reflexivity|].
  destruct (@full_update_general_providers Samples.taggedKeys
              (resolved "alice") Samples.legacyMemory Samples.aliceTable
              Samples.afterLegacyMemory Hrun eq_refl)
    as (general & Hgeneral & Hlegacy & _).
  exists general. split; [exact Hgeneral|].
  destruct (Hlegacy (CoreUpdate.make true None) eq_refl)
    as (encryptedKey & Hentry & Hkey).
  vm_compute in Hkey. injection Hkey as <-.
  exact Hentry.
Defined.


(** *** Keys of the general providers *)

(** The key query returns a key exactly for an enabled entry with a
    non-empty encrypted key that decrypts. *)
Lemma getDecryptedGeneralProviderKey_Some `{K : KeyManagement}
    (db : Db) (providerId userId key : string) :
  getDecryptedGeneralProviderKey db providerId userId = Ok (Some key)
  ↔ ∃ config,
      generalProvider (getSettings db userId) providerId = Some config
      ∧ GeneralProvider.enabled config = true
      ∧ GeneralProvider.encryptedKey config ≠ ""
      ∧ decryptKey (GeneralProvider.encryptedKey config) = Ok key.
Proof.
  unfold getDecryptedGeneralProviderKey, decryptOrNull.
  destruct (generalProvider _ providerId) as [config|]; [|split].
  - destruct (GeneralProvider.enabled config) eqn:Hon; simpl.
    + destruct (String.eqb _ "") eqn:Hempty.
      * apply String.eqb_eq in Hempty. split; [done|].
        intros (c & [= <-] & _ & Hne & _). done.
      * apply String.eqb_neq in Hempty.
        destruct (decryptKey _) as [plain|] eqn:Hdec.
        -- split.
           ++ intros [= <-]. exists config. by rewrite Hdec.
           ++ intros (c & [= <-] & _ & _ & Hd). congruence.
        -- split; [done|]. intros (c & [= <-] & _ & _ & Hd). congruence.
    + split; [done|]. intros (c & [= <-] & Hen & _). congruence.
  - done.
  - by intros (c & ? & _).
Qed.

(** X7.  What the key query of a general provider returns: the decrypted
    key exactly when the provider has an entry that is enabled, holds a
    non-empty encrypted key, and that key decrypts; [null] in every other
    case, a disabled entry with a good key and a failing decryption
    included.  The memory query is the same query at [supermemory]. *)
Theorem general_provider_key_when_enabled `{K : KeyManagement}
    (db : Db) (providerId userId : string) :
  (∀ key,
     getDecryptedGeneralProviderKey db providerId userId = Ok (Some key)
     ↔ ∃ config,
         generalProvider (getSettings db userId) providerId = Some config
         ∧ GeneralProvider.enabled config = true
         ∧ GeneralProvider.encryptedKey config ≠ ""
         ∧ decryptKey (GeneralProvider.encryptedKey config) = Ok key)
  ∧ ((∀ key,
        getDecryptedGeneralProviderKey db providerId userId ≠ Ok (Some key)) →
     getDecryptedGeneralProviderKey db providerId userId = Ok None)
  ∧ getSupermemoryKey db userId
    = getDecryptedGeneralProviderKey db "supermemory" userId.
Proof.
  split; [intros key; apply getDecryptedGeneralProviderKey_Some|].
  split; [|reflexivity].
  intros Hnone.
  pose proof (general_key_queries_never_throw db providerId userId)
    as [Hok _].
  destruct (getDecryptedGeneralProviderKey db providerId userId)
    as [[other|]|]; [by destruct (Hnone other)|done|done].
Qed.

(** X8.  Storing then fetching a general-provider key: after a completed
    partial update that lists the provider as enabled with a non-empty
    [newKey] the collaborator can give back, the key query returns that
    very key; listed as disabled, the query returns [null] whatever key
    came with it. *)
Theorem partial_update_then_general_provider_key `{K : KeyManagement}
    (id providerId : string) (args : PartialUpdate.t)
    (updates : gmap string GeneralUpdate.t) (update : GeneralUpdate.t)
    (db db' : Db) :
  updateUserSettingsPartial (resolved id) args db = (Ok tt, db') →
  PartialUpdate.generalProviderUpdates args = Some updates →
  updates !! providerId = Some update →
  (∀ plaintext,
     GeneralUpdate.enabled update = true →
     GeneralUpdate.newKey update = Some plaintext →
     plaintext ≠ "" →
     roundTrips K plaintext →
     getDecryptedGeneralProviderKey db' providerId id = Ok (Some plaintext))
  ∧ (GeneralUpdate.enabled update = false →
     getDecryptedGeneralProviderKey db' providerId id = Ok None).
Proof.
  intros (newSettings & Hnew & Hread)%partial_update_readBack Hupdates Hkey.
  pose proof (partialNewSettings_loops _ _ _ Hnew) as (_ & Hgeneral & _).
  rewrite Hupdates in Hgeneral.
  assert (∃ general encryptedKey,
            UserSettings.generalProviders newSettings = Some general
            ∧ general !! providerId
              = Some (generalEntry providerId update encryptedKey)
            ∧ ∃ previous,
                encryptOr (GeneralUpdate.newKey update) (Ok previous)
                = Ok encryptedKey)
    as (general & encryptedKey & Hg & Hentry & previous & Henc).
  { apply elem_of_map_to_list in Hkey.
    destruct (UserSettings.generalProviders (getSettings db id)) as [stored|].
    - destruct (forOf (partialGeneral true) _ stored) as [general|] eqn:Hloop;
        simpl in Hgeneral; [|done].
      injection Hgeneral as Hg. exists general.
      rewrite (forOf_ext _ _ _ _ (partialGeneral_keyed true)) in Hloop.
      apply forOf_keyed_spec in Hloop as [Hin _];
        [|apply NoDup_fst_map_to_list].
      destruct (Hin _ _ Hkey) as (content & Hstep & ->).
      unfold partialGeneralStep in Hstep.
      destruct (encryptOr _ _) as [encryptedKey|] eqn:Henc;
        simpl in Hstep; [|done].
      injection Hstep as <-. eauto 6.
    - destruct (forOf (partialGeneral false) _ ∅) as [general|] eqn:Hloop;
        simpl in Hgeneral; [|done].
      injection Hgeneral as Hg. exists general.
      rewrite (forOf_ext _ _ _ _ (partialGeneral_keyed false)) in Hloop.
      apply forOf_keyed_spec in Hloop as [Hin _];
        [|apply NoDup_fst_map_to_list].
      destruct (Hin _ _ Hkey) as (content & Hstep & ->).
      unfold partialGeneralStep in Hstep.
      destruct (encryptOr _ _) as [encryptedKey|] eqn:Henc;
        simpl in Hstep; [|done].
      injection Hstep as <-. eauto 6. }
  assert (generalProvider (getSettings db' id) providerId
          = Some (generalEntry providerId update encryptedKey)) as Hconfig.
  { unfold generalProvider.
    by rewrite Hread, (readBack_generalProviders _ _ _ _ Hg). }
  assert (GeneralProvider.enabled (generalEntry providerId update encryptedKey)
          = GeneralUpdate.enabled update
          ∧ GeneralProvider.encryptedKey
              (generalEntry providerId update encryptedKey) = encryptedKey)
    as [Hen Hek].
  { unfold generalEntry.
    destruct (String.eqb providerId "brave"); [done|].
    by destruct (String.eqb providerId "serper"). }
  split.
  - intros plaintext Hon Hnew' Hne Hround.
    apply getDecryptedGeneralProviderKey_Some.
    exists (generalEntry providerId update encryptedKey).
    rewrite Hen, Hek. rewrite Hnew' in Henc.
    destruct plaintext as [|c rest]; [done|]. simpl in Henc.
    destruct (Hround _ Henc) as [Hnonempty Hdec]. done.
  - intros Hoff. unfold getDecryptedGeneralProviderKey.
    by rewrite Hconfig, Hen, Hoff.
Qed.

Lemma partial_update_then_general_provider_key_witness :
  @updateUserSettingsPartial Samples.taggedKeys (resolved "alice")
    Samples.enableTavily Samples.aliceTable
  = (Ok tt, Samples.afterEnableTavily)
  ∧ roundTrips Samples.taggedKeys "tv-key"
  ∧ @getDecryptedGeneralProviderKey Samples.taggedKeys
      Samples.afterEnableTavily "tavily" "alice" = Ok (Some "tv-key").
Proof.
  assert (@updateUserSettingsPartial Samples.taggedKeys (resolved "alice")
            Samples.enableTavily Samples.aliceTable
          = (Ok tt, Samples.afterEnableTavily)) as Hrun
    by (vm_compute; reflexivity).
  assert (roundTrips Samples.taggedKeys "tv-key") as Hkeys.
  { intros ciphertext Hencrypt. injection Hencrypt as <-.
    split; [discriminate|reflexivity]. }
  split; [exact Hrun|]. split; [exact Hkeys|].
  exact (proj1 (@partial_update_then_general_provider_key Samples.taggedKeys
                  "alice" "tavily" Samples.enableTavily
                  {[ "tavily" := Samples.tavilyUpdate ]} Samples.tavilyUpdate
                  Samples.aliceTable Samples.afterEnableTavily Hrun eq_refl
                  ltac:(vm_compute; reflexivity))
           "tv-key" eq_refl eq_refl ltac:(discriminate) Hkeys).
Defined.


(** *** Themes and onboarding *)

Lemma readBack_themesOf db userId value :
  (UserSettings.customThemes value = None →
   UserSettings.customThemes (getSettings db userId) = None) →
  themesOf (readBack db userId value) = themesOf value.
Proof.
  unfold themesOf, readBack, getSettings, first.
  destruct (list_find _ db) as [[i d]|]; simpl; [|done].
  destruct (UserSettings.customThemes value); [done|]. by intros ->.
Qed.

Lemma filter_other_themes (themes : list string) url :
  (url ∉ List.filter (λ t, negb (String.eqb t url)) themes)
  ∧ (∀ t, t ≠ url →
       t ∈ List.filter (λ t, negb (String.eqb t url)) themes ↔ t ∈ themes).
Proof.
  split.
  - rewrite list_elem_of_In, filter_In. intros [_ Hne].
    by rewrite String.eqb_refl in Hne.
  - intros t Hne. rewrite !list_elem_of_In, filter_In.
    apply String.eqb_neq in Hne. rewrite Hne.
    split; [by intros [? _]|done].
Qed.

Lemma filter_appended_theme (themes : list string) url :
  url ∉ themes →
  List.filter (λ t, negb (String.eqb t url)) (themes ++ [url]) = themes.
Proof.
  intros Hout. rewrite List.filter_app. simpl. rewrite String.eqb_refl. simpl.
  rewrite app_nil_r. induction themes as [|t rest IH]; simpl; [done|].
  apply not_elem_of_cons in Hout as [Hne Hout].
  apply not_eq_sym, String.eqb_neq in Hne. rewrite Hne. simpl.
  by rewrite IH.
Qed.

Lemma NoDup_List_filter {A} (f : A → bool) (l : list A) :
  NoDup l → NoDup (List.filter f l).
Proof.
  induction 1 as [|x l Hx Hnd IH]; simpl; [constructor|].
  destruct (f x); [|done]. constructor; [|done].
  rewrite list_elem_of_In, filter_In, <- list_elem_of_In. by intros [? _].
Qed.

(** The theme statements of the partial update keep a list free of
    duplicates and within five entries, and never drop the field. *)
Lemma partial_themes_invariants (stored : option (list string))
    (addTheme removeTheme : option string) :
  NoDup (default [] stored) → (length (default [] stored) ≤ 5)%nat →
  NoDup (default [] (partialRemoveTheme removeTheme
                       (partialAddTheme addTheme stored)))
  ∧ (length (default [] (partialRemoveTheme removeTheme
                           (partialAddTheme addTheme stored))) ≤ 5)%nat.
Proof.
  intros Hnd Hlen.
  assert (NoDup (default [] (partialAddTheme addTheme stored))
          ∧ (length (default [] (partialAddTheme addTheme stored)) ≤ 5)%nat)
    as [Hnd' Hlen'].
  { destruct addTheme as [[|c rest]|]; simpl; try done.
    destruct (includes (default [] stored) (String c rest)) eqn:Hinc;
      simpl; [done|].
    destruct (length (default [] stored) <? 5)%nat eqn:Hlt; simpl; [|done].
    apply Nat.ltb_lt in Hlt. split.
    - apply NoDup_app. split; [done|]. split; [|apply NoDup_singleton].
      intros t Hin ->%list_elem_of_singleton.
      apply includes_elem in Hin. congruence.
    - rewrite length_app. simpl. lia. }
  destruct removeTheme as [[|c rest]|]; simpl; try done.
  split; [by apply NoDup_List_filter|].
  pose proof (filter_length_le (λ t, negb (String.eqb t (String c rest)))
                (default [] (partialAddTheme addTheme stored))). lia.
Qed.

Lemma partial_themes_none (stored : option (list string))
    (addTheme removeTheme : option string) :
  partialRemoveTheme removeTheme (partialAddTheme addTheme stored) = None →
  stored = None.
Proof.
  destruct removeTheme as [[|c rest]|]; simpl; try done;
    destruct addTheme as [[|c' rest']|]; simpl; try done;
    by destruct (negb _ && _).
Qed.

(** X9.  The theme list of the caller stays free of duplicates and within
    five entries through the partial update, [addUserTheme] and
    [deleteUserTheme], whether they complete or throw. *)
Theorem theme_mutations_keep_list_unique_and_capped `{K : KeyManagement}
    (id url : string) (args : PartialUpdate.t) (m : Mutation unit)
    (db db' : Db) (outcome : Result unit) :
  m = updateUserSettingsPartial (resolved id) args
  ∨ m = addUserTheme (resolved id) url
  ∨ m = deleteUserTheme (resolved id) url →
  NoDup (themesOf (getSettings db id)) →
  (length (themesOf (getSettings db id)) ≤ 5)%nat →
  m db = (outcome, db') →
  NoDup (themesOf (getSettings db' id))
  ∧ (length (themesOf (getSettings db' id)) ≤ 5)%nat.
Proof.
  intros Hm Hnd Hlen.
  destruct Hm as [-> | [-> | ->]].
  - rewrite updateUserSettingsPartial_run.
    destruct (partialNewSettings (getSettings db id) args)
      as [newSettings|] eqn:Hnew; [|by intros [= _ <-]].
    intros Hsave.
    apply partialNewSettings_inv in Hnew as (Huser & Hthemes & _).
    rewrite getSettings_userId in Huser.
    destruct (save_getSettings_ok db id newSettings) as [db'' Hsave'].
    rewrite Hsave' in Hsave. injection Hsave as _ <-.
    rewrite (save_getSettings _ _ _ _ Huser Hsave').
    rewrite readBack_themesOf.
    + unfold themesOf. rewrite Hthemes. by apply partial_themes_invariants.
    + rewrite Hthemes. apply partial_themes_none.
  - unfold addUserTheme, bind, readSettings.
    fold (themesOf (getSettings db id)).
    destruct (includes _ url) eqn:Hinc; [by intros [= _ <-]|].
    destruct (5 <=? _)%nat eqn:Hcap; [by intros [= _ <-]|].
    apply Nat.leb_gt in Hcap.
    destruct (save_getSettings_ok db id
                (withCustomThemes (themesOf (getSettings db id) ++ [url])%list
                   (getSettings db id))) as [db'' Hsave].
    rewrite Hsave. intros [= _ <-].
    rewrite (save_getSettings db id
               (withCustomThemes (themesOf (getSettings db id) ++ [url])%list
                  (getSettings db id)) db''
               (getSettings_userId db id) Hsave).
    rewrite readBack_themesOf by done. unfold themesOf at 1 3. simpl.
    split.
    + apply NoDup_app. split; [done|]. split; [|apply NoDup_singleton].
      intros t Hin ->%list_elem_of_singleton.
      apply includes_elem in Hin. congruence.
    + rewrite length_app. simpl. lia.
  - unfold deleteUserTheme, bind, readSettings.
    fold (themesOf (getSettings db id)).
    destruct (save_getSettings_ok db id
                (withCustomThemes
                   (List.filter (λ t, negb (String.eqb t url))
                      (themesOf (getSettings db id)))
                   (getSettings db id))) as [db'' Hsave].
    rewrite Hsave. intros [= _ <-].
    rewrite (save_getSettings db id
               (withCustomThemes
                  (List.filter (λ t, negb (String.eqb t url))
                     (themesOf (getSettings db id)))
                  (getSettings db id)) db''
               (getSettings_userId db id) Hsave).
    rewrite readBack_themesOf by done. unfold themesOf at 1 3. simpl.
    split; [by apply NoDup_List_filter|].
    pose proof (filter_length_le (λ t, negb (String.eqb t url))
                  (themesOf (getSettings db id))). lia.
Qed.

Lemma theme_mutations_keep_list_unique_and_capped_witness :
  NoDup (themesOf (getSettings Samples.twoUsers "alice"))
  ∧ (length (themesOf (getSettings Samples.twoUsers "alice")) ≤ 5)%nat
  ∧ addUserTheme (resolved "alice") "t2" Samples.twoUsers
    = (Ok tt, Samples.afterAddT2)
  ∧ NoDup (themesOf (getSettings Samples.afterAddT2 "alice"))
  ∧ (length (themesOf (getSettings Samples.afterAddT2 "alice")) ≤ 5)%nat.
Proof.
  assert (NoDup (themesOf (getSettings Samples.twoUsers "alice"))) as Hunique
    by (apply (bool_decide_unpack _); vm_compute; exact I).
  assert (length (themesOf (getSettings Samples.twoUsers "alice")) ≤ 5)%nat
    as Hcap by (apply (bool_decide_unpack _); vm_compute; exact I).
  assert (addUserTheme (resolved "alice") "t2" Samples.twoUsers
          = (Ok tt, Samples.afterAddT2)) as Hrun
    by (vm_compute; reflexivity).
  split; [exact Hunique|]. split; [exact Hcap|]. split; [exact Hrun|].
  exact (@theme_mutations_keep_list_unique_and_capped Samples.taggedKeys
           "alice" "t2" (Samples.addTheme "t2")
           (addUserTheme (resolved "alice") "t2")
           Samples.twoUsers Samples.afterAddT2 (Ok tt)
           (or_intror (or_introl eq_refl)) Hunique Hcap Hrun).
Defined.


(** Reading back a theme list saved over the caller's settings. *)
Lemma save_withCustomThemes db id themes db' :
  save (getSettings db id) (withCustomThemes themes (getSettings db id)) db
  = (Ok tt, db') →
  themesOf (getSettings db' id) = themes.
Proof.
  intros Hsave.
  rewrite (save_getSettings db id (withCustomThemes themes (getSettings db id))
             db' (getSettings_userId db id) Hsave).
  by rewrite readBack_themesOf.
Qed.

(** [deleteUserTheme] completes and stores the filtered list. *)
Lemma delete_theme_steps (id url : string) (db : Db) :
  ∃ db',
    deleteUserTheme (resolved id) url db = (Ok tt, db')
    ∧ themesOf (getSettings db' id)
      = List.filter (λ t, negb (String.eqb t url))
          (themesOf (getSettings db id)).
Proof.
  unfold deleteUserTheme, bind, readSettings.
  fold (themesOf (getSettings db id)).
  destruct (save_getSettings_ok db id
              (withCustomThemes
                 (List.filter (λ t, negb (String.eqb t url))
                    (themesOf (getSettings db id)))
                 (getSettings db id))) as [db' Hsave].
  exists db'. split; [done|]. by apply (save_withCustomThemes db).
Qed.

Lemma filter_absent_theme (themes : list string) url :
  url ∉ themes →
  List.filter (λ t, negb (String.eqb t url)) themes = themes.
Proof.
  induction themes as [|t rest IH]; simpl; [done|].
  intros [Hne Hout]%not_elem_of_cons.
  apply not_eq_sym, String.eqb_neq in Hne. rewrite Hne. simpl.
  by rewrite IH.
Qed.

(** X10.  [deleteUserTheme] by a resolved caller always completes; the
    theme list read afterwards is the stored one without the URL, the
    other themes kept in order.  Deleting a URL that is not stored leaves
    the list as it was. *)
Theorem delete_theme_removes_only_the_url (id url : string) (db : Db) :
  ∃ db',
    deleteUserTheme (resolved id) url db = (Ok tt, db')
    ∧ themesOf (getSettings db' id)
      = List.filter (λ t, negb (String.eqb t url))
          (themesOf (getSettings db id))
    ∧ (url ∉ themesOf (getSettings db' id))
    ∧ (∀ theme, theme ≠ url →
         theme ∈ themesOf (getSettings db' id)
         ↔ theme ∈ themesOf (getSettings db id))
    ∧ (url ∉ themesOf (getSettings db id) →
       themesOf (getSettings db' id) = themesOf (getSettings db id)).
Proof.
  destruct (delete_theme_steps id url db) as (db' & Hrun & Hthemes).
  exists db'. split; [done|]. split; [done|]. rewrite Hthemes.
  destruct (filter_other_themes (themesOf (getSettings db id)) url)
    as [Hgone Hkept].
  split; [done|]. split; [done|]. apply filter_absent_theme.
Qed.

(** X11.  Adding a new URL to a list of fewer than five themes appends it
    at the end, and deleting it again restores the list the caller
    started with. *)
Theorem add_then_delete_theme_restores_list (id url : string) (db : Db) :
  url ∉ themesOf (getSettings db id) →
  (length (themesOf (getSettings db id)) < 5)%nat →
  ∃ db1 db2,
    addUserTheme (resolved id) url db = (Ok tt, db1)
    ∧ themesOf (getSettings db1 id)
      = (themesOf (getSettings db id) ++ [url])%list
    ∧ deleteUserTheme (resolved id) url db1 = (Ok tt, db2)
    ∧ themesOf (getSettings db2 id) = themesOf (getSettings db id).
Proof.
  intros Hout Hlen.
  assert (∃ db1, addUserTheme (resolved id) url db = (Ok tt, db1)
                 ∧ themesOf (getSettings db1 id)
                   = (themesOf (getSettings db id) ++ [url])%list)
    as (db1 & Hadd & Hthemes1).
  { unfold addUserTheme, bind, readSettings.
    fold (themesOf (getSettings db id)).
    destruct (includes _ url) eqn:Hinc; [by apply includes_elem in Hinc|].
    apply Nat.leb_gt in Hlen. rewrite Hlen.
    destruct (save_getSettings_ok db id
                (withCustomThemes (themesOf (getSettings db id) ++ [url])%list
                   (getSettings db id))) as [db1 Hsave].
    exists db1. split; [done|]. by apply (save_withCustomThemes db). }
  destruct (delete_theme_steps id url db1) as (db2 & Hdel & Hthemes2).
  exists db1, db2. split; [done|]. split; [done|]. split; [done|].
  rewrite Hthemes2, Hthemes1. by apply filter_appended_theme.
Qed.

Lemma add_then_delete_theme_restores_list_witness :
  ("t2" ∉ themesOf (getSettings Samples.twoUsers "alice"))
  ∧ (length (themesOf (getSettings Samples.twoUsers "alice")) < 5)%nat
  ∧ ∃ db1 db2,
      addUserTheme (resolved "alice") "t2" Samples.twoUsers = (Ok tt, db1)
      ∧ themesOf (getSettings db1 "alice")
        = (themesOf (getSettings Samples.twoUsers "alice") ++ ["t2"])%list
      ∧ deleteUserTheme (resolved "alice") "t2" db1 = (Ok tt, db2)
      ∧ themesOf (getSettings db2 "alice")
        = themesOf (getSettings Samples.twoUsers "alice").
Proof.
  assert ("t2" ∉ themesOf (getSettings Samples.twoUsers "alice")) as Hnew
    by (apply (bool_decide_unpack _); vm_compute; exact I).
  assert (length (themesOf (getSettings Samples.twoUsers "alice")) < 5)%nat
    as Hroom by (apply (bool_decide_unpack _); vm_compute; exact I).
  split; [exact Hnew|]. split; [exact Hroom|].
  exact (add_then_delete_theme_restores_list "alice" "t2" Samples.twoUsers
           Hnew Hroom).
Defined.


(** *** Onboarding *)

Lemma readBack_onboardingCompleted db userId value :
  (UserSettings.onboardingCompleted value = None →
   UserSettings.onboardingCompleted (getSettings db userId) = None) →
  UserSettings.onboardingCompleted (readBack db userId value)
  = UserSettings.onboardingCompleted value.
Proof.
  unfold readBack, getSettings, first.
  destruct (list_find _ db) as [[i d]|]; simpl; [|done].
  destruct (UserSettings.onboardingCompleted value); [done|]. by intros ->.
Qed.

(** X12.  A caller without stored settings is shown the onboarding.
    [completeOnboarding] always completes for a resolved caller; from
    then on the status query says not to show it, and the caller's
    providers, custom models and themes are as before.  A partial update
    never changes the answer of the status query. *)
Theorem complete_onboarding_is_remembered `{K : KeyManagement}
    (id : string) (args : PartialUpdate.t) (db : Db) :
  (first db id = None → getOnboardingStatus (resolved id) db = inr true)
  ∧ (∃ db',
       completeOnboarding (resolved id) db = (Ok tt, db')
       ∧ getOnboardingStatus (resolved id) db' = inr false
       ∧ UserSettings.coreAIProviders (getSettings db' id)
         = UserSettings.coreAIProviders (getSettings db id)
       ∧ UserSettings.customAIProviders (getSettings db' id)
         = UserSettings.customAIProviders (getSettings db id)
       ∧ UserSettings.customModels (getSettings db' id)
         = UserSettings.customModels (getSettings db id)
       ∧ themesOf (getSettings db' id) = themesOf (getSettings db id))
  ∧ (∀ outcome db',
       updateUserSettingsPartial (resolved id) args db = (outcome, db') →
       getOnboardingStatus (resolved id) db'
       = getOnboardingStatus (resolved id) db).
Proof.
  split; [|split].
  - intros Hnone. unfold getOnboardingStatus, getSettings. by rewrite Hnone.
  - unfold completeOnboarding, bind, readSettings.
    destruct (save_getSettings_ok db id
                (withOnboardingCompleted (getSettings db id)))
      as [db' Hsave].
    exists db'. split; [done|].
    pose proof (save_getSettings db id
                  (withOnboardingCompleted (getSettings db id)) db'
                  (getSettings_userId db id) Hsave) as Hread.
    unfold getOnboardingStatus. rewrite Hread.
    rewrite readBack_onboardingCompleted by done.
    pose proof (readBack_providers db id
                  (withOnboardingCompleted (getSettings db id)))
      as (-> & -> & ->).
    rewrite readBack_themesOf by done. done.
  - intros outcome db'. rewrite updateUserSettingsPartial_run.
    destruct (partialNewSettings (getSettings db id) args)
      as [newSettings|] eqn:Hnew; [|by intros [= _ <-]].
    pose proof (partialNewSettings_loops _ _ _ Hnew) as (_ & _ & Honb).
    apply partialNewSettings_inv in Hnew as (Huser & _).
    rewrite getSettings_userId in Huser.
    destruct (save_getSettings_ok db id newSettings) as [db'' Hsave].
    rewrite Hsave. intros [= _ <-].
    unfold getOnboardingStatus.
    rewrite (save_getSettings _ _ _ _ Huser Hsave).
    rewrite readBack_onboardingCompleted; rewrite Honb; done.
Qed.

(** *** More on the registry *)

(** X13.  In the providers map of the resolver an enabled custom provider
    holds the key the collaborator returned for its [encryptedKey], its
    endpoint and its display name, also when an enabled core provider is
    stored under the same id: the custom loop runs last.  An enabled core
    provider with no enabled custom provider of its id holds its
    decrypted key, no endpoint, and its id as name. *)
Theorem registry_providers_prefer_custom `{K : KeyManagement}
    (db : Db) (userId : string) (registry : Registry.t) :
  getUserRegistryInternal db userId = Ok registry →
  (∀ providerId provider,
     UserSettings.customAIProviders (getSettings db userId) !! providerId
     = Some provider →
     CustomAIProvider.enabled provider = true →
     ∃ key,
       decryptStored (CustomAIProvider.encryptedKey provider) = Ok key
       ∧ Registry.providers registry !! providerId
         = Some (ResolvedProvider.make key
                   (Some (CustomAIProvider.endpoint provider))
                   (Some (CustomAIProvider.name provider))))
  ∧ (∀ providerId provider,
       UserSettings.coreAIProviders (getSettings db userId) !! providerId
       = Some provider →
       CoreAIProvider.enabled provider = true →
       (∀ custom,
          UserSettings.customAIProviders (getSettings db userId) !! providerId
          = Some custom → CustomAIProvider.enabled custom = false) →
       ∃ key,
         decryptKey (CoreAIProvider.encryptedKey provider) = Ok key
         ∧ Registry.providers registry !! providerId
           = Some (ResolvedProvider.make key None (Some providerId))).
Proof.
  intros Hrun.
  apply (resolveRegistry_models _ _ _ catalog_ids_unique) in Hrun
    as (_ & Hp & _).
  generalize dependent (Registry.providers registry). intros providers.
  generalize dependent (getSettings db userId). intros settings.
  unfold resolveProviders.
  destruct (forOf addCoreProvider _ ∅) as [core|] eqn:Hcore; simpl; [|done].
  intros Hcustom.
  rewrite (forOf_ext _ _ _ _ addCoreProvider_keyed) in Hcore.
  rewrite (forOf_ext _ _ _ _ addCustomProvider_keyed) in Hcustom.
  apply forOf_keyed_spec in Hcore as [Hc1 _]; [|apply NoDup_fst_map_to_list].
  apply forOf_keyed_spec in Hcustom as [Hu1 Hu2];
    [|apply NoDup_fst_map_to_list].
  split.
  - intros providerId provider Hin%elem_of_map_to_list Hon.
    destruct (Hu1 _ _ Hin) as (content & Hstep & ->).
    unfold resolveCustomStep in Hstep. rewrite Hon in Hstep. simpl in Hstep.
    destruct (decryptStored _) as [key|]; simpl in Hstep; [|done].
    injection Hstep as <-. eauto.
  - intros providerId provider Hin%elem_of_map_to_list Hon Hoff.
    destruct (Hc1 _ _ Hin) as (content & Hstep & Hcore).
    unfold resolveCoreStep in Hstep. rewrite Hon in Hstep. simpl in Hstep.
    destruct (decryptKey _) as [key|]; simpl in Hstep; [|done].
    injection Hstep as <-. exists key. split; [done|].
    destruct (UserSettings.customAIProviders settings !! providerId)
      as [custom|] eqn:Hc.
    + pose proof Hc as Hc'. apply elem_of_map_to_list in Hc'.
      destruct (Hu1 _ _ Hc') as (content & Hstep & ->).
      unfold resolveCustomStep in Hstep.
      rewrite (Hoff custom eq_refl) in Hstep. simpl in Hstep.
      by injection Hstep as <-.
    + rewrite Hu2; [done|].
      intros ([k c] & -> & Hin'%elem_of_map_to_list)%list_elem_of_fmap.
      simpl in Hc. congruence.
Qed.

Lemma registry_providers_prefer_custom_witness :
  @getUserRegistryInternal Samples.taggedKeys Samples.aliceTable "alice"
  = Ok Samples.aliceRegistry
  ∧ UserSettings.customAIProviders (getSettings Samples.aliceTable "alice")
      !! "my-llm" = Some Samples.myLlm
  ∧ ∃ key,
      @decryptStored Samples.taggedKeys
        (CustomAIProvider.encryptedKey Samples.myLlm) = Ok key
      ∧ Registry.providers Samples.aliceRegistry !! "my-llm"
        = Some (ResolvedProvider.make key (Some "https://llm.example/v1")
                  (Some "My LLM")).
Proof.
  assert (@getUserRegistryInternal Samples.taggedKeys Samples.aliceTable
            "alice" = Ok Samples.aliceRegistry) as Hrun
    by (vm_compute; reflexivity).
  assert (UserSettings.customAIProviders
            (getSettings Samples.aliceTable "alice") !! "my-llm"
          = Some Samples.myLlm) as Hcustom
    by (vm_compute; reflexivity).
  split; [exact Hrun|]. split; [exact Hcustom|].
  exact (proj1 (@registry_providers_prefer_custom Samples.taggedKeys
                  Samples.aliceTable "alice" Samples.aliceRegistry Hrun)
           "my-llm" Samples.myLlm Hcustom eq_refl).
Defined.

Lemma resolveProviders_default `{K : KeyManagement} userId :
  resolveProviders (DefaultSettings userId) = Ok ∅.
Proof. unfold resolveProviders. simpl. by rewrite !map_to_list_empty. Qed.

Lemma catalog_find model :
  model ∈ MODELS_SHARED →
  list_find (λ m, SharedModel.id m = SharedModel.id model) MODELS_SHARED
    ≫= (λ found, Some found.2)
  = Some model.
Proof.
  intros Hmodel.
  destruct (list_find _ MODELS_SHARED) as [[i m]|] eqn:Hfind.
  - apply list_find_Some in Hfind as (Hi & Hid & _). cbn. f_equal.
    apply list_elem_of_lookup in Hmodel as [j Hj].
    pose proof catalog_ids_unique as Hnd.
    assert (i = j) as ->; [|congruence].
    eapply NoDup_lookup; [exact Hnd| |];
      rewrite list_lookup_fmap; [by rewrite Hi|by rewrite Hj, Hid].
  - apply list_find_None in Hfind. rewrite Forall_forall in Hfind.
    by destruct (Hfind model Hmodel).
Qed.

Lemma available_adapters_empty adapters :
  Forall (λ a, splitHead a ∉ ObjectPrototypeKeys) adapters →
  available_adapters ∅ adapters = internalAdapters adapters.
Proof.
  unfold internalAdapters.
  induction 1 as [|a rest Ha _ IH]; simpl; [done|].
  unfold hasProperty at 1. rewrite lookup_empty.
  rewrite (bool_decide_eq_false_2 (is_Some None)) by (by intros [? ?]).
  rewrite (bool_decide_eq_false_2 (splitHead a ∈ ObjectPrototypeKeys)) by done.
  simpl. by rewrite IH.
Qed.

(** X14.  For a user without stored settings the resolver always returns:
    no provider, the default settings, and for every catalog model the
    catalog entry whose adapters are the internal ones of the model and
    no other. *)
Theorem registry_without_settings_is_internal_only `{K : KeyManagement}
    (db : Db) (userId : string) :
  first db userId = None →
  ∃ registry,
    getUserRegistryInternal db userId = Ok registry
    ∧ Registry.providers registry = ∅
    ∧ Registry.settings registry = DefaultSettings userId
    ∧ (∀ model, model ∈ MODELS_SHARED →
         Registry.models registry !! SharedModel.id model
         = Some (catalogModel ∅ model)
         ∧ RegistryModel.adapters (catalogModel ∅ model)
           = internalAdapters (SharedModel.adapters model)).
Proof.
  intros Hnone. unfold getUserRegistryInternal, getSettings. rewrite Hnone.
  destruct (resolveRegistry MODELS_SHARED (DefaultSettings userId))
    as [registry|] eqn:Hrun.
  - exists registry. split; [done|].
    apply (resolveRegistry_models _ _ _ catalog_ids_unique) in Hrun
      as (Hsettings & Hp & Hmodels).
    rewrite resolveProviders_default in Hp. injection Hp as Hp.
    split; [done|]. split; [done|].
    intros model Hmodel. rewrite Hmodels. rewrite <- Hp.
    split.
    + change (UserSettings.customModels (DefaultSettings userId)) with
        (∅ : gmap string CustomModel.t).
      by rewrite lookup_empty, (catalog_find _ Hmodel).
    + apply available_adapters_empty.
      pose proof catalog_providers_own as Hall.
      rewrite Forall_forall in Hall. by apply Hall.
  - exfalso. revert Hrun. unfold resolveRegistry.
    by rewrite resolveProviders_default.
Qed.

Lemma registry_without_settings_is_internal_only_witness :
  first Samples.twoUsers "carol" = None
  ∧ ∃ registry,
      @getUserRegistryInternal Samples.taggedKeys Samples.twoUsers "carol"
      = Ok registry
      ∧ Registry.providers registry = ∅.
Proof.
  assert (first Samples.twoUsers "carol" = None) as Hnone
    by (vm_compute; reflexivity).
  split; [exact Hnone|].
  destruct (@registry_without_settings_is_internal_only Samples.taggedKeys
              Samples.twoUsers "carol" Hnone)
    as (registry & Hrun & Hproviders & _).
  exists registry. split; [exact Hrun|exact Hproviders].
Defined.

(** X15.  Availability is monotone in the providers: with more provider
    ids present, the adapters available before are still available, in
    the same order; and what is available is always a selection of the
    model's adapters in their order. *)
Theorem available_adapters_monotone
    (providers1 providers2 : gmap string ResolvedProvider.t)
    (adapters : list RegistryKey) :
  (∀ providerId,
     is_Some (providers1 !! providerId) → is_Some (providers2 !! providerId)) →
  sublist (available_adapters providers1 adapters)
          (available_adapters providers2 adapters)
  ∧ sublist (available_adapters providers2 adapters) adapters.
Proof.
  intros Hsub. split.
  - induction adapters as [|a rest IH]; simpl; [done|].
    destruct (hasProperty (splitHead a) providers1
              || startsWith "i3-" (splitHead a)) eqn:H1.
    + assert (hasProperty (splitHead a) providers2
              || startsWith "i3-" (splitHead a) = true) as ->.
      { apply orb_true_iff in H1 as [H1|H1]; [|by rewrite H1, orb_true_r].
        unfold hasProperty in *.
        apply orb_true_iff in H1 as [H1%bool_decide_eq_true|H1].
        - by rewrite (bool_decide_eq_true_2 _ (Hsub _ H1)).
        - by rewrite H1, orb_true_r. }
      by apply sublist_skip.
    + destruct (hasProperty (splitHead a) providers2
                || startsWith "i3-" (splitHead a));
        [by apply sublist_cons|done].
  - induction adapters as [|a rest IH]; simpl; [done|].
    destruct (hasProperty (splitHead a) providers2
              || startsWith "i3-" (splitHead a));
      [by apply sublist_skip|by apply sublist_cons].
Qed.

Lemma available_adapters_monotone_witness :
  (∀ providerId,
     is_Some ((∅ : gmap string ResolvedProvider.t) !! providerId) →
     is_Some (Samples.openaiOnly !! providerId))
  ∧ sublist (available_adapters ∅ (SharedModel.adapters Samples.gpt4o))
            (available_adapters Samples.openaiOnly
               (SharedModel.adapters Samples.gpt4o)).
Proof.
  assert (∀ providerId,
            is_Some ((∅ : gmap string ResolvedProvider.t) !! providerId) →
            is_Some (Samples.openaiOnly !! providerId)) as Hmore.
  { intros providerId [provider Hprovider].
    rewrite lookup_empty in Hprovider. discriminate. }
  split; [exact Hmore|].
  exact (proj1 (available_adapters_monotone ∅ Samples.openaiOnly
                  (SharedModel.adapters Samples.gpt4o) Hmore)).
Defined.


(** *** Adapters of custom models *)

Lemma splitHead_adapter provider model :
  splitHead (provider +:+ ":" +:+ model) = splitHead provider.
Proof.
  induction provider as [|c rest IH]; simpl; [done|].
  destruct (Ascii.eqb c ":"); [done|]. by rewrite IH.
Qed.

Lemma splitHead_without_colon s : splitHead s = s ↔ hasColon s = false.
Proof.
  induction s as [|c rest IH]; simpl; [done|].
  destruct (Ascii.eqb c ":"); simpl; [done|].
  rewrite <- IH. split; [by intros [= ?]|by intros ->].
Qed.

(** X16.  The adapter the resolver synthesizes for a custom model splits
    back to the model's provider id exactly when that id contains no
    colon; with a colon in it, the provider segment is only the part of
    the id before its first colon. *)
Theorem custom_model_adapter_names_its_provider (model : CustomModel.t) :
  ∃ adapter,
    RegistryModel.adapters (customModel model) = [adapter]
    ∧ splitHead adapter = splitHead (CustomModel.providerId model)
    ∧ (Some (splitHead adapter) = RegistryModel.customProviderId (customModel model)
       ↔ hasColon (CustomModel.providerId model) = false).
Proof.
  eexists. split; [reflexivity|]. rewrite splitHead_adapter.
  split; [done|]. simpl. rewrite <- splitHead_without_colon.
  split; [by intros [= ?]|by intros ->].
Qed.

(** *** From a key update to the registry *)

Lemma partial_update_core_entry `{K : KeyManagement}
    (id providerId : string) (args : PartialUpdate.t)
    (updates : gmap string CoreUpdate.t) (update : CoreUpdate.t)
    (db db' : Db) :
  updateUserSettingsPartial (resolved id) args db = (Ok tt, db') →
  PartialUpdate.coreProviderUpdates args = Some updates →
  updates !! providerId = Some update →
  ∃ encryptedKey,
    UserSettings.coreAIProviders (getSettings db' id) !! providerId
    = Some (CoreAIProvider.make (CoreUpdate.enabled update) encryptedKey).
Proof.
  intros (newSettings & Hnew & ->)%partial_update_readBack Hupdates
    Hkey%elem_of_map_to_list.
  pose proof (readBack_providers db id newSettings) as (-> & _).
  pose proof (partialNewSettings_loops _ _ _ Hnew) as (Hcore & _).
  rewrite Hupdates in Hcore.
  rewrite (forOf_ext _ _ _ _ partialCore_keyed) in Hcore.
  apply forOf_keyed_spec in Hcore as [Hin _]; [|apply NoDup_fst_map_to_list].
  destruct (Hin _ _ Hkey) as (content & Hstep & ->).
  unfold partialCoreStep in Hstep.
  destruct (encryptOr _ _) as [encryptedKey|]; simpl in Hstep; [|done].
  injection Hstep as <-. eauto.
Qed.

(** X17.  After a completed partial update that lists a core provider,
    on any later resolution that returns: listed as enabled, the provider
    is in the providers map and every catalog adapter of that provider is
    available; listed as disabled, with no enabled custom provider of the
    same id and an id without the internal prefix, it is not in the map
    and no adapter of that provider is available. *)
Theorem partial_update_switches_core_provider `{K : KeyManagement}
    (id providerId : string) (args : PartialUpdate.t)
    (updates : gmap string CoreUpdate.t) (update : CoreUpdate.t)
    (db db' : Db) (registry : Registry.t) :
  updateUserSettingsPartial (resolved id) args db = (Ok tt, db') →
  PartialUpdate.coreProviderUpdates args = Some updates →
  updates !! providerId = Some update →
  getUserRegistryInternal db' id = Ok registry →
  (CoreUpdate.enabled update = true →
   is_Some (Registry.providers registry !! providerId)
   ∧ ∀ model adapter,
       model ∈ MODELS_SHARED →
       adapter ∈ SharedModel.adapters model →
       splitHead adapter = providerId →
       adapter ∈ RegistryModel.adapters
                   (catalogModel (Registry.providers registry) model))
  ∧ (CoreUpdate.enabled update = false →
     (∀ custom,
        UserSettings.customAIProviders (getSettings db' id) !! providerId
        = Some custom → CustomAIProvider.enabled custom = false) →
     startsWith "i3-" providerId = false →
     Registry.providers registry !! providerId = None
     ∧ ∀ model adapter,
         model ∈ MODELS_SHARED →
         adapter ∈ SharedModel.adapters model →
         splitHead adapter = providerId →
         adapter ∉ RegistryModel.adapters
                     (catalogModel (Registry.providers registry) model)).
Proof.
  intros Hrun Hupdates Hkey Hregistry.
  destruct (partial_update_core_entry _ _ _ _ _ _ _ Hrun Hupdates Hkey)
    as [encryptedKey Hentry].
  apply (resolveRegistry_models _ _ _ catalog_ids_unique) in Hregistry
    as (_ & Hp & _).
  pose proof (resolveProviders_keys _ _ providerId Hp) as Hkeys.
  split.
  - intros Hon.
    assert (is_Some (Registry.providers registry !! providerId)) as Hsome.
    { apply Hkeys. left. eexists. split; [exact Hentry|]. exact Hon. }
    split; [done|].
    intros model adapter _ Hin Hsplit.
    apply available_adapters_elem. split; [done|].
    unfold hasProperty. rewrite Hsplit.
    by rewrite (bool_decide_eq_true_2 _ Hsome).
  - intros Hoff Hcustom Hinternal.
    assert (Registry.providers registry !! providerId = None) as Hnone.
    { destruct (Registry.providers registry !! providerId) eqn:Hsome; [|done].
      exfalso.
      destruct (proj1 Hkeys ltac:(by eexists))
        as [(c & Hc & Hen)|(c & Hc & Hen)].
      - rewrite Hentry in Hc. injection Hc as <-. simpl in Hen. congruence.
      - rewrite (Hcustom c Hc) in Hen. done. }
    split; [done|].
    intros model adapter Hmodel Hin Hsplit [_ Hsel]%available_adapters_elem.
    pose proof catalog_providers_own as Hall.
    rewrite Forall_forall in Hall. specialize (Hall model Hmodel).
    rewrite Forall_forall in Hall. specialize (Hall adapter Hin).
    unfold hasProperty in Hsel. rewrite Hsplit in Hsel, Hall.
    rewrite Hnone, Hinternal in Hsel.
    rewrite (bool_decide_eq_false_2 (is_Some None)) in Hsel
      by (by intros [? ?]).
    by rewrite (bool_decide_eq_false_2 _ Hall) in Hsel.
Qed.

Lemma partial_update_switches_core_provider_witness :
  @updateUserSettingsPartial Samples.taggedKeys (resolved "alice")
    Samples.enableOpenai Samples.aliceTable
  = (Ok tt, Samples.afterEnableOpenai)
  ∧ @getUserRegistryInternal Samples.taggedKeys Samples.afterEnableOpenai
      "alice" = Ok Samples.registryAfterEnableOpenai
  ∧ is_Some (Registry.providers Samples.registryAfterEnableOpenai !! "openai").
Proof.
  assert (@updateUserSettingsPartial Samples.taggedKeys (resolved "alice")
            Samples.enableOpenai Samples.aliceTable
          = (Ok tt, Samples.afterEnableOpenai)) as Hrun
    by (vm_compute; reflexivity).
  assert (@getUserRegistryInternal Samples.taggedKeys
            Samples.afterEnableOpenai "alice"
          = Ok Samples.registryAfterEnableOpenai) as Hresolve
    by (vm_compute; reflexivity).
  split; [exact Hrun|]. split; [exact Hresolve|].
  exact (proj1 (proj1 (@partial_update_switches_core_provider
                         Samples.taggedKeys "alice" "openai"
                         Samples.enableOpenai
                         {[ "openai" := CoreUpdate.make true None ]}
                         (CoreUpdate.make true None)
                         Samples.aliceTable Samples.afterEnableOpenai
                         Samples.registryAfterEnableOpenai
                         Hrun eq_refl ltac:(vm_compute; reflexivity)
                         Hresolve)
                  eq_refl)).
Defined.

(** *** Where the key of a client comes from *)

(** X18.  For a provider id of the closed set: a key of the caller that
    passes the key check is the key of the client, whatever the
    environment holds; with the sentinel [internal] the client carries
    the value of the provider's environment variable, except for
    [openrouter], whose client is given the sentinel itself as key. *)
Theorem createProvider_key_provenance (env1 env2 : Env) (providerId : string)
    (apiKey : CodeUnits) :
  providerId ∈ FactoryProviders →
  (¬ blankKey apiKey → apiKey ≠ internal →
   createProvider env1 providerId apiKey = createProvider env2 providerId apiKey
   ∧ ∃ client,
       createProvider env1 providerId apiKey = Ok client
       ∧ clientKey client = Some apiKey)
  ∧ (providerId ≠ "openrouter" →
     ∃ client,
       createProvider env1 providerId internal = Ok client
       ∧ clientKey client = env1 (envVariable providerId))
  ∧ createProvider env1 "openrouter" internal = Ok (OpenRouter internal).
Proof.
  intros Hin. split; [|split; [|reflexivity]].
  - intros Hkey Hne. unfold createProvider.
    destruct (negb _ && _) eqn:Hguard;
      [by apply createProvider_guard in Hguard|].
    unfold keyOrEnv, codeUnitsEqb.
    rewrite (bool_decide_eq_false_2 (apiKey = internal)) by done.
    unfold FactoryProviders, CoreProviders in Hin. simpl in Hin.
    repeat (apply elem_of_cons in Hin as [->|Hin];
            [split; [reflexivity|eexists; split; reflexivity]|]).
    by apply elem_of_nil in Hin.
  - intros Hne.
    unfold FactoryProviders, CoreProviders in Hin. simpl in Hin.
    repeat (apply elem_of_cons in Hin as [->|Hin];
            [first [done|eexists; split; reflexivity]|]).
    by apply elem_of_nil in Hin.
Qed.

Lemma createProvider_key_provenance_witness :
  "google" ∈ FactoryProviders
  ∧ ∃ client,
      createProvider Samples.noEnv "google" internal = Ok client
      ∧ clientKey client = Samples.noEnv (envVariable "google").
Proof.
  assert ("google" ∈ FactoryProviders) as Hknown
    by (apply (bool_decide_unpack _); vm_compute; exact I).
  split; [exact Hknown|].
  exact (proj1 (proj2 (createProvider_key_provenance Samples.noEnv
                         Samples.noEnv "google" internal Hknown))
           ltac:(discriminate)).
Defined.


(** *** Grouping in the model selector *)

Section GroupingFacts.
Import Selector.
Context {DisplayModel : Type}.
Context (adapters : DisplayModel → option (list RegistryKey)).
Context (isCustom : DisplayModel → option bool).

Lemma groupStep_spec acc model :
  providerKey adapters model ∉ ObjectPrototypeKeys →
  (∀ key, acc !! key ≠ Some []) →
  ∃ acc',
    groupStep adapters acc model = Ok acc'
    ∧ (∀ key, acc' !! key ≠ Some [])
    ∧ ∀ key,
        default [] (acc' !! key)
        = (default [] (acc !! key)
           ++ (if String.eqb (providerKey adapters model) key
               then [model] else []))%list.
Proof.
  intros Hown Hfull. unfold groupStep.
  destruct (acc !! providerKey adapters model) as [group|] eqn:Hgroup.
  - eexists. split; [done|]. split.
    + intros key. destruct (decide (providerKey adapters model = key)) as [<-|Hne].
      * rewrite lookup_insert_eq. intros [= Hnil]. by destruct group.
      * by rewrite lookup_insert_ne.
    + intros key. destruct (decide (providerKey adapters model = key)) as [<-|Hne].
      * by rewrite lookup_insert_eq, Hgroup, String.eqb_refl.
      * rewrite lookup_insert_ne by done.
        apply String.eqb_neq in Hne. by rewrite Hne, app_nil_r.
  - rewrite bool_decide_eq_false_2 by done.
    eexists. split; [done|]. split.
    + intros key. destruct (decide (providerKey adapters model = key)) as [<-|Hne].
      * by rewrite lookup_insert_eq.
      * by rewrite lookup_insert_ne.
    + intros key. destruct (decide (providerKey adapters model = key)) as [<-|Hne].
      * by rewrite lookup_insert_eq, Hgroup, String.eqb_refl.
      * rewrite lookup_insert_ne by done.
        apply String.eqb_neq in Hne. by rewrite Hne, app_nil_r.
Qed.

Lemma groupStep_loop models :
  Forall (λ model, providerKey adapters model ∉ ObjectPrototypeKeys) models →
  ∀ acc, (∀ key, acc !! key ≠ Some []) →
    ∃ acc',
      forOf (groupStep adapters) models acc = Ok acc'
      ∧ (∀ key, acc' !! key ≠ Some [])
      ∧ ∀ key,
          default [] (acc' !! key)
          = (default [] (acc !! key)
             ++ List.filter
                  (λ model, String.eqb (providerKey adapters model) key)
                  models)%list.
Proof.
  induction 1 as [|model rest Hown _ IH]; intros acc Hfull; simpl.
  - exists acc. split; [done|]. split; [done|].
    intros key. by rewrite app_nil_r.
  - destruct (groupStep_spec acc model Hown Hfull)
      as (acc1 & -> & Hfull1 & Hstep).
    simpl. destruct (IH acc1 Hfull1) as (acc' & -> & Hfull' & Hrest).
    exists acc'. split; [done|]. split; [done|].
    intros key. rewrite Hrest, Hstep, <- app_assoc.
    by destruct (String.eqb (providerKey adapters model) key).
Qed.

Lemma groupStep_inherited models :
  Exists (λ model, providerKey adapters model ∈ ObjectPrototypeKeys) models →
  ∀ acc, (∀ key, key ∈ ObjectPrototypeKeys → acc !! key = None) →
    isOk (forOf (groupStep adapters) models acc) = false.
Proof.
  induction models as [|model rest IH]; intros Hex acc Hacc;
    [by apply Exists_nil in Hex|].
  simpl. unfold groupStep at 1.
  destruct (decide (providerKey adapters model ∈ ObjectPrototypeKeys))
    as [Hin|Hout].
  - by rewrite (Hacc _ Hin), bool_decide_eq_true_2.
  - apply Exists_cons in Hex as [?|Hex]; [done|].
    destruct (acc !! providerKey adapters model) as [group|]; simpl.
    + apply IH; [done|]. intros key Hkey.
      rewrite lookup_insert_ne; [by apply Hacc|]. by intros <-.
    + rewrite bool_decide_eq_false_2 by done. simpl.
      apply IH; [done|]. intros key Hkey.
      rewrite lookup_insert_ne; [by apply Hacc|]. by intros <-.
Qed.

(** X19.  The selector groups the models that carry no [isCustom] key by
    provider key.  When no provider key is a name plain objects inherit,
    the grouping returns, no group is empty, and the group under a key
    holds exactly the shared models of that provider key, in their
    order: every shared model is shown once.  When some provider key is
    such a name, the reducer throws.  A model whose [isCustom] is present
    but false is in no group and not among the custom models. *)
Theorem selector_groups_partition_shared_models
    (availableModels : list DisplayModel) :
  (Forall (λ model, providerKey adapters model ∉ ObjectPrototypeKeys)
          (sharedModels isCustom availableModels) →
   ∃ groups,
     groupedSharedModels adapters isCustom availableModels = Ok groups
     ∧ ∀ key,
         groups !! key ≠ Some []
         ∧ default [] (groups !! key)
           = List.filter
               (λ model, String.eqb (providerKey adapters model) key)
               (sharedModels isCustom availableModels))
  ∧ (Exists (λ model, providerKey adapters model ∈ ObjectPrototypeKeys)
            (sharedModels isCustom availableModels) →
     isOk (groupedSharedModels adapters isCustom availableModels) = false)
  ∧ (∀ model,
       isCustom model = Some false →
       (model ∉ sharedModels isCustom availableModels)
       ∧ (model ∉ customModels isCustom availableModels)).
Proof.
  split; [|split].
  - intros Hown. unfold groupedSharedModels.
    destruct (groupStep_loop _ Hown ∅) as (groups & Hrun & Hfull & Hgroups).
    { intros key. by rewrite lookup_empty. }
    exists groups. split; [done|]. intros key. split; [done|].
    by rewrite Hgroups, lookup_empty.
  - intros Hex. apply groupStep_inherited; [done|].
    intros key _. apply lookup_empty.
  - intros model Hfalse. unfold sharedModels, customModels.
    rewrite !list_elem_of_In, !filter_In, Hfalse. split.
    + intros [_ H]. by rewrite bool_decide_eq_true_2 in H by (by eexists).
    + by intros [_ H].
Qed.

End GroupingFacts.

Lemma selector_groups_partition_shared_models_witness :
  Forall (λ model,
            Selector.providerKey (λ model, Some (SharedModel.adapters model))
              model ∉ ObjectPrototypeKeys)
         (Selector.sharedModels (λ _, None) [Samples.gpt4o])
  ∧ ∃ groups,
      Selector.groupedSharedModels
        (λ model, Some (SharedModel.adapters model)) (λ _, None)
        [Samples.gpt4o] = Ok groups
      ∧ default [] (groups !! "openai") = [Samples.gpt4o].
Proof.
  assert (Forall (λ model,
                    Selector.providerKey
                      (λ model, Some (SharedModel.adapters model)) model
                    ∉ ObjectPrototypeKeys)
                 (Selector.sharedModels (λ _, None) [Samples.gpt4o]))
    as Hown by (apply (bool_decide_unpack _); vm_compute; exact I).
  split; [exact Hown|].
  destruct (proj1 (@selector_groups_partition_shared_models SharedModel.t
                     (λ model, Some (SharedModel.adapters model))
                     (λ _, None) [Samples.gpt4o]) Hown)
    as (groups & Hrun & Hgroups).
  exists groups. split; [exact Hrun|].
  exact (eq_trans (proj2 (Hgroups "openai")) eq_refl).
Defined.
